(** * StoryGenome clustering core: a shallow embedding and its properties

    The development follows [src/ml/cluster.py] (class [ArticleClusterer]),
    [src/database.py] (class [StoryGenomeDB]) and the clustering constants of
    [src/config.py]; around that core it takes in [clean_article_text] of
    [src/ingest/fetch_news.py], [create_demo_clusters] of
    [src/data/create_demo_data.py] and [_truncate_text] of
    [src/ml/score_bias.py].

    - Python [str] values are Rocq strings; a character with code [n] stands
      for the code point [n], so the model covers the code points 0..255.
      The regular-expression classes [\w] and [\s] and [str.lower] are
      written out for exactly that range.
    - SQLite tables are lists of rows in table order.  Every statement sent
      through a connection is recorded in a log, may fail according to a
      fault schedule, and runs inside the transaction that the connection's
      [with] block commits or rolls back.
    - The sentence-embedding model, the scaler with HDBSCAN and the TF-IDF
      vectoriser are third-party code: they are the fields of the class
      [MLBackend]. *)

From Stdlib Require Import ZArith List String Ascii Bool Lia Arith.
From Stdlib Require Import DecimalString.
From Stdlib Require Import Permutation Sorted.
From Stdlib Require Decimal.
Import ListNotations.

Set Implicit Arguments.
Local Open Scope string_scope.
Local Open Scope list_scope.

(** ** Python strings *)

Module PyStr.

Definition chars : Type := list ascii.

Definition code (c : ascii) : nat := nat_of_ascii c.

Definition between (lo hi : nat) (c : ascii) : bool :=
  (lo <=? code c)%nat && (code c <=? hi)%nat.

Definition is_digit (c : ascii) : bool := between 48 57 c.
Definition is_ascii_upper (c : ascii) : bool := between 65 90 c.
Definition is_ascii_lower (c : ascii) : bool := between 97 122 c.
Definition is_ascii_alnum (c : ascii) : bool :=
  is_digit c || is_ascii_upper c || is_ascii_lower c.

(** Code points 128..255 for which [str.isalnum] holds: the letters
    U+00AA, U+00B5, U+00BA, U+00C0..U+00D6, U+00D8..U+00F6,
    U+00F8..U+00FF and the numerics U+00B2, U+00B3, U+00B9,
    U+00BC..U+00BE. *)
Definition is_latin1_alnum (c : ascii) : bool :=
  between 170 170 c || between 178 179 c || between 181 181 c
  || between 185 186 c || between 188 190 c
  || between 192 214 c || between 216 246 c || between 248 255 c.

(** Alphanumeric in the sense of [str.isalnum]. *)
Definition is_alnum (c : ascii) : bool :=
  is_ascii_alnum c || is_latin1_alnum c.

(** The class [\w] of [re] on a [str] pattern: alphanumerics and the
    underscore. *)
Definition is_word (c : ascii) : bool :=
  is_alnum c || (code c =? 95)%nat.

(** The class [\s] of [re] on a [str] pattern, which is also what
    [str.strip] removes: U+0009..U+000D, U+001C..U+0020, U+0085,
    U+00A0. *)
Definition is_space (c : ascii) : bool :=
  between 9 13 c || between 28 32 c || (code c =? 133)%nat
  || (code c =? 160)%nat.

(** Upper-case letters of the range: A..Z, U+00C0..U+00DE but U+00D7. *)
Definition is_upper (c : ascii) : bool :=
  is_ascii_upper c
  || (between 192 222 c && negb (code c =? 215)%nat).

(** [str.lower] on one character. *)
Definition lower_char (c : ascii) : ascii :=
  if is_upper c then ascii_of_nat (code c + 32) else c.

Definition lower (s : chars) : chars := map lower_char s.

(** Lower-case letters whose upper case is again in the range; U+00B5,
    U+00DF and U+00FF are cased, but their upper case lies outside it and
    [upper_char] leaves them alone. *)
Definition has_upper (c : ascii) : bool :=
  is_ascii_lower c
  || (between 224 254 c && negb (code c =? 247)%nat).

Definition upper_char (c : ascii) : ascii :=
  if has_upper c then ascii_of_nat (code c - 32) else c.

(** Cased characters, for [str.title]. *)
Definition is_cased (c : ascii) : bool :=
  is_upper c || has_upper c || between 170 170 c || between 181 181 c
  || between 186 186 c || between 223 223 c || between 255 255 c.

(** [str.title]: a cased character is upper-cased after an uncased one
    and lower-cased after a cased one. *)
Fixpoint title_from (prev_cased : bool) (s : chars) : chars :=
  match s with
  | [] => []
  | c :: r =>
      (if prev_cased then lower_char c else upper_char c)
        :: title_from (is_cased c) r
  end.

Definition title (s : chars) : chars := title_from false s.

(** [s.replace(a, b)] for one-character [a] and [b]. *)
Definition replace_char (a b : ascii) (s : chars) : chars :=
  map (fun c => if Ascii.eqb c a then b else c) s.

(** [sep.join(parts)]. *)
Fixpoint join (sep : chars) (parts : list chars) : chars :=
  match parts with
  | [] => []
  | [p] => p
  | p :: rest => p ++ sep ++ join sep rest
  end.

(** [s.strip()]. *)
Fixpoint lstrip (s : chars) : chars :=
  match s with
  | [] => []
  | c :: r => if is_space c then lstrip r else s
  end.

Definition rstrip (s : chars) : chars := rev (lstrip (rev s)).

Definition strip (s : chars) : chars := rstrip (lstrip s).

(** [s[:n]]. *)
Definition prefix (n : nat) (s : string) : string :=
  string_of_list_ascii (firstn n (list_ascii_of_string s)).

(** [str(n)] for an integer. *)
Definition of_Z (n : Z) : string := NilZero.string_of_int (Z.to_int n).

End PyStr.

(** ** The three substitutions of [preprocess_text] *)

Module Regex.
Import PyStr.

Definition lt_sign : ascii := "<"%char.
Definition gt_sign : ascii := ">"%char.
Definition blank : ascii := " "%char.

(** [tag_length r]: when the text after a ["<"] starts with one or more
    characters other than [">"] followed by a [">"], the number of
    characters of [r] that the match of [<[^>]+>] covers. *)
Fixpoint tag_body (r : chars) : option nat :=
  match r with
  | [] => None
  | c :: r' =>
      if Ascii.eqb c gt_sign then Some 1
      else option_map S (tag_body r')
  end.

Definition tag_length (r : chars) : option nat :=
  match r with
  | [] => None
  | c :: _ => if Ascii.eqb c gt_sign then None else tag_body r
  end.

(** [re.sub(r'<[^>]+>', '', text)]: a left-to-right scan; [skip] counts
    the characters of the current match still to be dropped. *)
Fixpoint sub_tags (skip : nat) (s : chars) : chars :=
  match s with
  | [] => []
  | c :: r =>
      match skip with
      | S k => sub_tags k r
      | O =>
          if Ascii.eqb c lt_sign then
            match tag_length r with
            | Some n => sub_tags n r
            | None => c :: sub_tags 0 r
            end
          else c :: sub_tags 0 r
      end
  end.

Definition remove_tags (s : chars) : chars := sub_tags 0 s.

(** [re.sub(r'\s+', ' ', text)]: [in_run] tells that the previous
    character belonged to the run of whitespace being replaced. *)
Fixpoint sub_spaces (in_run : bool) (s : chars) : chars :=
  match s with
  | [] => []
  | c :: r =>
      if is_space c then
        if in_run then sub_spaces true r else blank :: sub_spaces true r
      else c :: sub_spaces false r
  end.

Definition collapse_spaces (s : chars) : chars := sub_spaces false s.

(** The characters that [[^\w\s\.\,\!\?\-]] does not match. *)
Definition is_basic_punct (c : ascii) : bool :=
  Ascii.eqb c "."%char || Ascii.eqb c ","%char || Ascii.eqb c "!"%char
  || Ascii.eqb c "?"%char || Ascii.eqb c "-"%char.

Definition kept (c : ascii) : bool :=
  is_word c || is_space c || is_basic_punct c.

(** [re.sub(r'[^\w\s\.\,\!\?\-]', '', text)]. *)
Definition remove_other (s : chars) : chars := filter kept s.

End Regex.

(** ** [ArticleClusterer.preprocess_text] *)

Definition preprocess_chars (text : PyStr.chars) : PyStr.chars :=
  match text with
  | [] => []
  | _ =>
      let text1 := Regex.remove_tags text in
      let text2 := PyStr.strip (Regex.collapse_spaces text1) in
      let text3 := Regex.remove_other text2 in
      PyStr.lower text3
  end.

Definition preprocess_text (text : string) : string :=
  string_of_list_ascii (preprocess_chars (list_ascii_of_string text)).

(** What is left of a character that passes the last substitution and is
    then lower-cased: an alphanumeric, a space, one of [. , ! ? -], or an
    underscore, and never an upper-case letter. *)
Definition in_output_alphabet (c : ascii) : bool :=
  (PyStr.is_alnum c || PyStr.is_space c || Regex.is_basic_punct c
   || Ascii.eqb c "_"%char)
  && negb (PyStr.is_upper c).

(** ** Exceptions *)

Inductive exn : Type :=
| OperationalError   (* the store is unavailable or a statement fails *)
| IntegrityError     (* a PRIMARY KEY or UNIQUE constraint is violated *)
| IndexError         (* a list or array index is out of range *)
| BackendError.      (* raised by the third-party models *)

Inductive result (A : Type) : Type :=
| Ok (a : A)
| Raise (e : exn).

Arguments Ok {A} a.
Arguments Raise {A} e.

Definition is_ok {A} (r : result A) : bool :=
  match r with Ok _ => true | Raise _ => false end.

Definition rbind {A B} (r : result A) (f : A -> result B) : result B :=
  match r with
  | Ok a => f a
  | Raise e => Raise e
  end.

(** ** Python dictionaries with integer keys

    A [dict] keeps its keys in insertion order; assigning to a key that is
    present replaces the value where it stands. *)

Module PyDict.
Section Dict.
Variable V : Type.

Definition t : Type := list (Z * V).

Definition empty : t := [].

Fixpoint get (k : Z) (d : t) : option V :=
  match d with
  | [] => None
  | (k', v) :: r => if Z.eqb k k' then Some v else get k r
  end.

Definition mem (k : Z) (d : t) : bool :=
  match get k d with Some _ => true | None => false end.

Fixpoint set (k : Z) (v : V) (d : t) : t :=
  match d with
  | [] => [(k, v)]
  | (k', v') :: r =>
      if Z.eqb k k' then (k, v) :: r else (k', v') :: set k v r
  end.

Definition items (d : t) : list (Z * V) := d.
Definition keys (d : t) : list Z := map fst d.
Definition len (d : t) : nat := List.length d.
End Dict.

Arguments empty {V}.
End PyDict.

(** ** Configuration: the clustering constants of [config.py] *)

Definition EMBEDDING_MODEL : string := "sentence-transformers/all-mpnet-base-v2".
Definition MIN_CLUSTER_SIZE : nat := 3.
Definition MIN_SAMPLES : nat := 2.

(** The value [-1] that marks a noise point. *)
Definition NOISE : Z := (-1)%Z.

(** ** Third-party models

    [encode] is [SentenceTransformer.encode]; [scale_and_cluster] is
    [StandardScaler().fit_transform] followed by [HDBSCAN(...).fit_predict]
    with the parameters [MIN_CLUSTER_SIZE], [MIN_SAMPLES], ['euclidean'] and
    ['eom']; [tfidf_fit_transform] is [TfidfVectorizer.fit_transform]
    together with [get_feature_names_out] and the column sums of the
    matrix; [weight_pos w] is [w > 0] on such a sum and [argsort] is
    [numpy.argsort].  Each of the three models may raise. *)

Class MLBackend : Type := {
  vec : Type;
  weight : Type;
  encode : list string -> result (list vec);
  scale_and_cluster : list vec -> result (list Z);
  tfidf_fit_transform : list string -> result (list string * list weight);
  weight_pos : weight -> bool;
  argsort : list weight -> list nat
}.

(** ** The tables of [init_database] that the clustering core touches

    The AUTOINCREMENT ids and the [created_at] defaults are left out; an
    article keeps the columns the core reads. *)

Record article : Type := {
  a_id : Z;
  a_outlet : string;
  a_published_at : option Z;
  a_title : string;
  a_text : string
}.

Record embedding_row {B : MLBackend} : Type := {
  e_article_id : Z;
  e_vector : vec;
  e_model_name : string
}.

Record cluster_row : Type := {
  c_cluster_id : Z;
  c_label : string
}.

Record member_row : Type := {
  m_cluster_id : Z;
  m_article_id : Z
}.

Record database {B : MLBackend} : Type := {
  articles : list article;
  embeddings : list embedding_row;
  clusters : list cluster_row;
  cluster_members : list member_row
}.

(** The statements the core sends with [conn.execute]. *)
Inductive statement {B : MLBackend} : Type :=
| DeleteClusterMembers
| DeleteClusters
| InsertCluster (cluster_id : Z) (label : string)
| InsertClusterMember (cluster_id article_id : Z)
| InsertEmbedding (article_id : Z) (vector : vec) (model_name : string)
| SelectArticlesWithoutEmbeddings (limit : nat)
| SelectAllEmbeddings.

(** The rows of [get_articles_without_embeddings]: keys ['id'], ['title'],
    ['text']. *)
Record article_dict : Type := {
  d_id : Z;
  d_title : string;
  d_text : string
}.

(** The rows of [get_all_embeddings]: keys ['article_id'], ['vector'],
    ['title'], ['outlet'], ['published_at']. *)
Record embedding_dict {B : MLBackend} : Type := {
  i_article_id : Z;
  i_vector : vec;
  i_title : string;
  i_outlet : string;
  i_published_at : option Z
}.

(** [article.get('title', '')] and [article.get('text', '')]. *)
Class TitleText (A : Type) : Type := {
  get_title : A -> string;
  get_text : A -> string
}.

#[export] Instance TitleText_article_dict : TitleText article_dict :=
  {| get_title := d_title; get_text := d_text |}.

(** A row of [get_all_embeddings] has no key ['text']: the default [''] is
    what [get] returns. *)
#[export] Instance TitleText_embedding_dict {B : MLBackend} :
  TitleText embedding_dict :=
  {| get_title := i_title; get_text := fun _ => "" |}.

(** ** The store: statements, transactions and failures *)

Section Store.
Context {B : MLBackend}.

(** The state a run works on: the committed tables, the schedule that
    says which of the coming store operations fail ([true] is a failure;
    past its end nothing fails), and the statements executed so far. *)
Record world : Type := {
  w_db : database;
  w_faults : list bool;
  w_log : list statement
}.

(** Computations over the store.  An exception leaves the world it was
    raised in to the handler. *)
Definition M (A : Type) : Type := world -> result A * world.

Definition ret {A} (a : A) : M A := fun w => (Ok a, w).

Definition bind {A C} (m : M A) (f : A -> M C) : M C :=
  fun w =>
    match m w with
    | (Ok a, w') => f a w'
    | (Raise e, w') => (Raise e, w')
    end.

Definition lift {A} (r : result A) : M A := fun w => (r, w).

(** [try: m  except Exception as e: logger.error(...)]. *)
Definition try_except (m : M unit) : M unit :=
  fun w => (Ok tt, snd (m w)).

Definition set_db (d : database) (w : world) : world :=
  {| w_db := d; w_faults := w_faults w; w_log := w_log w |}.

(** The next entry of the fault schedule. *)
Definition next_fault (w : world) : bool * world :=
  match w_faults w with
  | [] => (false, w)
  | f :: fs => (f, {| w_db := w_db w; w_faults := fs; w_log := w_log w |})
  end.

Definition record (s : statement) (w : world) : world :=
  {| w_db := w_db w; w_faults := w_faults w; w_log := w_log w ++ [s] |}.

(** *** What a statement does to the tables *)

Definition has_cluster (cid : Z) (d : database) : bool :=
  existsb (fun c => Z.eqb (c_cluster_id c) cid) (clusters d).

Definition has_member (cid aid : Z) (d : database) : bool :=
  existsb (fun m => Z.eqb (m_cluster_id m) cid && Z.eqb (m_article_id m) aid)
          (cluster_members d).

Definition has_embedding (aid : Z) (d : database) : bool :=
  existsb (fun e => Z.eqb (e_article_id e) aid) (embeddings d).

(** [cluster_id] is the PRIMARY KEY of [clusters] and
    [(cluster_id, article_id)] is UNIQUE in [cluster_members].  SQLite
    does not enforce the FOREIGN KEY clauses unless asked to, and the
    connection never asks. *)
Definition apply_statement (s : statement) (d : database) : result database :=
  match s with
  | DeleteClusterMembers =>
      Ok {| articles := articles d; embeddings := embeddings d;
            clusters := clusters d; cluster_members := [] |}
  | DeleteClusters =>
      Ok {| articles := articles d; embeddings := embeddings d;
            clusters := []; cluster_members := cluster_members d |}
  | InsertCluster cid label =>
      if has_cluster cid d then Raise IntegrityError
      else Ok {| articles := articles d; embeddings := embeddings d;
                 clusters := clusters d
                             ++ [{| c_cluster_id := cid; c_label := label |}];
                 cluster_members := cluster_members d |}
  | InsertClusterMember cid aid =>
      if has_member cid aid d then Raise IntegrityError
      else Ok {| articles := articles d; embeddings := embeddings d;
                 clusters := clusters d;
                 cluster_members :=
                   cluster_members d
                   ++ [{| m_cluster_id := cid; m_article_id := aid |}] |}
  | InsertEmbedding aid v model =>
      Ok {| articles := articles d;
            embeddings := embeddings d
                          ++ [{| e_article_id := aid; e_vector := v;
                                 e_model_name := model |}];
            clusters := clusters d; cluster_members := cluster_members d |}
  | SelectArticlesWithoutEmbeddings _ => Ok d
  | SelectAllEmbeddings => Ok d
  end.

(** [conn.execute(s)]: the statement is recorded; it fails when the
    schedule says so or when a constraint is violated, and otherwise
    changes the tables of the open transaction. *)
Definition execute (s : statement) : M unit :=
  fun w =>
    let (fault, w1) := next_fault (record s w) in
    if fault then (Raise OperationalError, w1)
    else match apply_statement s (w_db w1) with
         | Ok d => (Ok tt, set_db d w1)
         | Raise e => (Raise e, w1)
         end.

(** [conn.execute(s)] followed by reading the rows [rows] selects. *)
Definition query {A} (s : statement) (rows : database -> A) : M A :=
  bind (execute s) (fun _ => fun w => (Ok (rows (w_db w)), w)).

(** [with self.get_connection() as conn: body].  The first statement that
    writes opens a transaction; leaving the block commits it, and the
    tables go back to what they were when the body raises or the commit
    fails. *)
Definition with_connection {A} (body : M A) : M A :=
  fun w =>
    match body w with
    | (Ok a, w1) =>
        let (fault, w2) := next_fault w1 in
        if fault then (Raise OperationalError, set_db (w_db w) w2)
        else (Ok a, w2)
    | (Raise e, w1) => (Raise e, set_db (w_db w) w1)
    end.

(** [for x in xs: body(x)]. *)
Fixpoint for_each {A} (xs : list A) (body : A -> M unit) : M unit :=
  match xs with
  | [] => ret tt
  | x :: r => bind (body x) (fun _ => for_each r body)
  end.

End Store.

Declare Scope store_scope.
Delimit Scope store_scope with store.
Notation "x <- m ;; k" := (bind m (fun x => k))
  (at level 61, m at next level, right associativity) : store_scope.
Notation "m ;; k" := (bind m (fun _ => k))
  (at level 61, right associativity) : store_scope.

(** ** [StoryGenomeDB] *)

Section Database.
Context {B : MLBackend}.
Local Open Scope store_scope.

(** [insert_embedding]; pickling the vector and reading it back is the
    identity and is not modelled. *)
Definition insert_embedding (article_id : Z) (vector : vec)
           (model_name : string) : M unit :=
  with_connection (execute (InsertEmbedding article_id vector model_name)).

(** The rows of
    [SELECT a.id, a.title, a.text FROM articles a
     LEFT JOIN embeddings e ON a.id = e.article_id
     WHERE e.id IS NULL LIMIT ?]:
    an article with no matching embedding row yields one joined row whose
    [e.id] is NULL, any other article yields only rows whose [e.id] is
    not. *)
Definition to_article_dict (a : article) : article_dict :=
  {| d_id := a_id a; d_title := a_title a; d_text := a_text a |}.

Definition without_embedding (d : database) (a : article) : bool :=
  negb (has_embedding (a_id a) d).

Definition select_articles_without_embeddings (limit : nat) (d : database)
  : list article_dict :=
  firstn limit (map to_article_dict (filter (without_embedding d) (articles d))).

Definition get_articles_without_embeddings (limit : nat)
  : M (list article_dict) :=
  with_connection
    (query (SelectArticlesWithoutEmbeddings limit)
           (select_articles_without_embeddings limit)).

(** [ORDER BY a.published_at DESC]: NULL sorts last; rows with equal
    keys stay in the order of the join. *)
Definition published_before (x y : option Z) : bool :=
  match x, y with
  | Some p, Some q => Z.ltb p q
  | None, Some _ => true
  | _, None => false
  end.

Fixpoint insert_desc (x : embedding_dict) (l : list embedding_dict)
  : list embedding_dict :=
  match l with
  | [] => [x]
  | y :: r =>
      if published_before (i_published_at x) (i_published_at y)
      then y :: insert_desc x r
      else x :: l
  end.

Definition order_by_published_desc (l : list embedding_dict)
  : list embedding_dict :=
  fold_right insert_desc [] l.

(** [FROM embeddings e JOIN articles a ON e.article_id = a.id]. *)
Definition join_articles (d : database) (e : embedding_row)
  : list embedding_dict :=
  map (fun a => {| i_article_id := e_article_id e; i_vector := e_vector e;
                   i_title := a_title a; i_outlet := a_outlet a;
                   i_published_at := a_published_at a |})
      (filter (fun a => Z.eqb (e_article_id e) (a_id a)) (articles d)).

Definition select_all_embeddings (d : database) : list embedding_dict :=
  order_by_published_desc (flat_map (join_articles d) (embeddings d)).

Definition get_all_embeddings : M (list embedding_dict) :=
  with_connection (query SelectAllEmbeddings select_all_embeddings).

(** [update_clusters]: one [with] block around the two deletes and all
    the inserts. *)
Definition update_clusters (cluster_assignments : PyDict.t Z)
           (cluster_labels : PyDict.t string) : M unit :=
  with_connection
    (execute DeleteClusterMembers ;;
     execute DeleteClusters ;;
     for_each (PyDict.items cluster_labels)
              (fun '(cluster_id, label) =>
                 execute (InsertCluster cluster_id label)) ;;
     for_each (PyDict.items cluster_assignments)
              (fun '(article_id, cluster_id) =>
                 if (0 <=? cluster_id)%Z
                 then execute (InsertClusterMember cluster_id article_id)
                 else ret tt)).

End Database.

(** ** [ArticleClusterer] *)

Section Clusterer.
Context {B : MLBackend}.
Local Open Scope store_scope.

(** *** [generate_embeddings] *)

(** [f"{title}. {text_preview}"] with [text_preview = text[:1000]],
    preprocessed. *)
Definition embedding_text (a : article_dict) : string :=
  let title := get_title a in
  let text := get_text a in
  let text_preview := PyStr.prefix 1000 text in
  let combined_text := (title ++ ". " ++ text_preview)%string in
  preprocess_text combined_text.

(** One turn of the loop over [articles]: the two lists grow at their
    end when the processed text has more than 50 characters. *)
Definition select_step (acc : list Z * list string) (a : article_dict)
  : list Z * list string :=
  let processed_text := embedding_text a in
  if (50 <? String.length processed_text)%nat
  then (fst acc ++ [d_id a], snd acc ++ [processed_text])
  else acc.

Definition select_texts (articles : list article_dict)
  : list Z * list string :=
  fold_left select_step articles ([], []).

Definition generate_embeddings (articles : list article_dict)
  : result (list Z * list vec) :=
  let (article_ids, texts) := select_texts articles in
  match texts with
  | [] => Ok ([], [])
  | _ => rbind (encode texts) (fun embeddings => Ok (article_ids, embeddings))
  end.

(** *** [store_embeddings]: every insert sits in its own [try]. *)
Fixpoint store_pairs (pairs : list (Z * vec)) : M unit :=
  match pairs with
  | [] => ret tt
  | (article_id, embedding) :: rest =>
      try_except (insert_embedding article_id embedding EMBEDDING_MODEL) ;;
      store_pairs rest
  end.

Definition store_embeddings (article_ids : list Z) (embeddings : list vec)
  : M unit :=
  store_pairs (combine article_ids embeddings).

(** *** [cluster_articles] *)
Definition cluster_articles (embeddings : list vec) : result (list Z) :=
  if (List.length embeddings <? MIN_CLUSTER_SIZE)%nat
  then Ok (repeat NOISE (List.length embeddings))
  else scale_and_cluster embeddings.

(** *** [generate_cluster_labels] *)

(** The first loop: [clusters[label].append(articles[i])] for every
    label that is not negative. *)
Fixpoint group_by_label {A} (articles : list A) (i : nat)
         (cluster_labels : list Z) (clusters : PyDict.t (list A))
  : result (PyDict.t (list A)) :=
  match cluster_labels with
  | [] => Ok clusters
  | label :: rest =>
      if (0 <=? label)%Z then
        let clusters1 :=
          if PyDict.mem label clusters then clusters
          else PyDict.set label [] clusters in
        match nth_error articles i, PyDict.get label clusters1 with
        | Some a, Some members =>
            group_by_label articles (S i) rest
                           (PyDict.set label (members ++ [a]) clusters1)
        | _, _ => Raise IndexError
        end
      else group_by_label articles (S i) rest clusters
  end.

(** [f"{title} {text[:500]}"], preprocessed. *)
Definition label_text {A} `{TitleText A} (a : A) : string :=
  let title := get_title a in
  let text := get_text a in
  let combined := (title ++ " " ++ PyStr.prefix 500 text)%string in
  preprocess_text combined.

(** [f"Cluster {cluster_id}"]. *)
Definition placeholder_label (cluster_id : Z) : string :=
  ("Cluster " ++ PyStr.of_Z cluster_id)%string.

(** [l[-n:]]. *)
Definition last_n {A} (n : nat) (l : list A) : list A :=
  skipn (List.length l - n) l.

(** [[feature_names[i] for i in top_indices if tfidf_sums[i] > 0]]. *)
Fixpoint pick_terms (feature_names : list string) (tfidf_sums : list weight)
         (top_indices : list nat) : result (list string) :=
  match top_indices with
  | [] => Ok []
  | i :: rest =>
      match nth_error tfidf_sums i with
      | None => Raise IndexError
      | Some w =>
          if weight_pos w then
            match nth_error feature_names i with
            | None => Raise IndexError
            | Some name =>
                rbind (pick_terms feature_names tfidf_sums rest)
                      (fun names => Ok (name :: names))
            end
          else pick_terms feature_names tfidf_sums rest
      end
  end.

(** [" ".join(top_terms[:3]).replace('_', ' ').title()]. *)
Definition render_label (top_terms : list string) : string :=
  let label := PyStr.join [Regex.blank]
                          (map list_ascii_of_string (firstn 3 top_terms)) in
  string_of_list_ascii
    (PyStr.title (PyStr.replace_char "_"%char Regex.blank label)).

(** The body of the [try]. *)
Definition tfidf_label (cluster_id : Z) (texts : list string)
  : result string :=
  rbind (tfidf_fit_transform texts) (fun '(feature_names, tfidf_sums) =>
  let top_indices := rev (last_n 5 (argsort tfidf_sums)) in
  rbind (pick_terms feature_names tfidf_sums top_indices) (fun top_terms =>
  match top_terms with
  | [] => Ok (placeholder_label cluster_id)
  | _ => Ok (render_label top_terms)
  end)).

(** The label one cluster gets in the second loop. *)
Definition cluster_label (cluster_id : Z) (texts : list string) : string :=
  match texts with
  | [] => placeholder_label cluster_id
  | _ =>
      match tfidf_label cluster_id texts with
      | Ok label => label
      | Raise _ => placeholder_label cluster_id
      end
  end.

Definition label_step {A} `{TitleText A} (cluster_labels_dict : PyDict.t string)
           (entry : Z * list A) : PyDict.t string :=
  let (cluster_id, cluster_articles) := entry in
  let texts := map label_text cluster_articles in
  PyDict.set cluster_id (cluster_label cluster_id texts) cluster_labels_dict.

Definition generate_cluster_labels {A} `{TitleText A} (articles : list A)
           (cluster_labels : list Z) : result (PyDict.t string) :=
  rbind (group_by_label articles 0 cluster_labels PyDict.empty)
        (fun clusters =>
           Ok (fold_left label_step (PyDict.items clusters) PyDict.empty)).

(** *** [run_clustering] *)

(** The loop that fills [cluster_assignments]. *)
Definition assign_step (cluster_assignments : PyDict.t Z) (p : Z * Z)
  : PyDict.t Z :=
  let (article_id, label) := p in
  if (0 <=? label)%Z then PyDict.set article_id label cluster_assignments
  else cluster_assignments.

Definition build_assignments (article_ids cluster_labels : list Z)
  : PyDict.t Z :=
  fold_left assign_step (combine article_ids cluster_labels) PyDict.empty.

Definition run_clustering : M nat :=
  articles_data <- get_all_embeddings ;;
  match articles_data with
  | [] => ret 0%nat
  | _ =>
      let article_ids := map i_article_id articles_data in
      let embeddings := map i_vector articles_data in
      if (List.length embeddings <? MIN_CLUSTER_SIZE)%nat then ret 0%nat
      else
        cluster_labels <- lift (cluster_articles embeddings) ;;
        cluster_labels_dict <-
          lift (generate_cluster_labels articles_data cluster_labels) ;;
        let cluster_assignments :=
          build_assignments article_ids cluster_labels in
        update_clusters cluster_assignments cluster_labels_dict ;;
        ret (PyDict.len cluster_labels_dict)
  end.

(** *** [generate_embeddings_for_unprocessed] *)
Definition generate_embeddings_for_unprocessed : M nat :=
  articles <- get_articles_without_embeddings 50 ;;
  match articles with
  | [] => ret 0%nat
  | _ =>
      r <- lift (generate_embeddings articles) ;;
      let (article_ids, embeddings) := r in
      match article_ids with
      | [] => ret 0%nat
      | _ =>
          store_embeddings article_ids embeddings ;;
          ret (List.length article_ids)
      end
  end.

(** [main]. *)
Definition main : M unit :=
  generate_embeddings_for_unprocessed ;;
  run_clustering ;;
  ret tt.

End Clusterer.

(** ** Vocabulary of the statements below *)

Section Vocabulary.
Context {B : MLBackend}.

(** The statements in order, stopping at the first that fails. *)
Definition execute_all (stmts : list statement) : M unit :=
  for_each stmts execute.

(** The tables after all of [stmts], when none violates a constraint. *)
Fixpoint apply_all (stmts : list statement) (d : database) : result database :=
  match stmts with
  | [] => Ok d
  | s :: r => rbind (apply_statement s d) (apply_all r)
  end.

Definition nonneg_assignment (p : Z * Z) : bool := (0 <=? snd p)%Z.

Definition cluster_of (p : Z * string) : cluster_row :=
  {| c_cluster_id := fst p; c_label := snd p |}.

(** An entry of [cluster_assignments] maps an article to a cluster. *)
Definition member_of (p : Z * Z) : member_row :=
  {| m_cluster_id := snd p; m_article_id := fst p |}.

Definition insert_cluster_of (p : Z * string) : statement :=
  InsertCluster (fst p) (snd p).

Definition insert_member_of (p : Z * Z) : statement :=
  InsertClusterMember (snd p) (fst p).

(** The statements [update_clusters] sends when nothing fails. *)
Definition update_statements (cluster_assignments : PyDict.t Z)
           (cluster_labels : PyDict.t string) : list statement :=
  [DeleteClusterMembers; DeleteClusters]
    ++ map insert_cluster_of (PyDict.items cluster_labels)
    ++ map insert_member_of
           (filter nonneg_assignment (PyDict.items cluster_assignments)).

(** The number of rows of [embeddings] that belong to an article. *)
Definition embedding_count (aid : Z) (d : database) : nat :=
  List.length (filter (fun e => Z.eqb (e_article_id e) aid) (embeddings d)).

(** The articles a clustering run reads. *)
Definition corpus_size (d : database) : nat :=
  List.length (select_all_embeddings d).

Definition insert_embedding_of (p : Z * vec) : statement :=
  InsertEmbedding (fst p) (snd p) EMBEDDING_MODEL.

(** An insert into [cluster_members] with a cluster id that is not
    negative; any other statement passes. *)
Definition member_insert_ok (s : statement) : Prop :=
  match s with
  | InsertClusterMember cid _ => (0 <= cid)%Z
  | _ => True
  end.

Definition row_of (p : Z * vec) : embedding_row :=
  {| e_article_id := fst p; e_vector := snd p;
     e_model_name := EMBEDDING_MODEL |}.

(** For each pair of a batch, in order, whether its [insert_embedding]
    returned normally. *)
Fixpoint insert_outcomes (pairs : list (Z * vec)) (w : world) : list bool :=
  match pairs with
  | [] => []
  | (article_id, embedding) :: rest =>
      let x := insert_embedding article_id embedding EMBEDDING_MODEL w in
      is_ok (fst x) :: insert_outcomes rest (snd x)
  end.

(** The pairs of a batch whose insert returned normally. *)
Definition stored_pairs (pairs : list (Z * vec)) (w : world) : list (Z * vec) :=
  map fst (filter snd (combine pairs (insert_outcomes pairs w))).

(** The test of [generate_embeddings]: more than 50 characters. *)
Definition long_enough (a : article_dict) : bool :=
  (50 <? String.length (embedding_text a))%nat.

Definition included (articles : list article_dict) : list article_dict :=
  filter long_enough articles.

(** The members of cluster [c], in the order of [articles]. *)
Definition members_of {A} (articles : list A) (cluster_labels : list Z)
           (c : Z) : list A :=
  map fst (filter (fun p => Z.eqb (snd p) c) (combine articles cluster_labels)).

(** The articles with no embedding row, in table order. *)
Definition unembedded (d : database) : list article :=
  filter (without_embedding d) (articles d).

End Vocabulary.

(** ** A small backend for concrete runs

    Vectors are single integers, [encode] measures the text, the clusterer
    puts the rows with an even vector into cluster [0] and makes the others
    noise, and the term model knows the single term ["story"], weighted by
    the number of documents, but cannot fit fewer than two of them. *)

Module Toy.

Definition toy_encode (texts : list string) : result (list Z) :=
  Ok (map (fun t => Z.of_nat (String.length t)) texts).

Definition toy_cluster (rows : list Z) : result (list Z) :=
  Ok (map (fun v => if Z.even v then 0%Z else NOISE) rows).

Definition toy_tfidf (texts : list string) : result (list string * list Z) :=
  match texts with
  | _ :: _ :: _ => Ok (["story"], [Z.of_nat (List.length texts)])
  | _ => Raise BackendError
  end.

#[export] Instance backend : MLBackend := {|
  vec := Z;
  weight := Z;
  encode := toy_encode;
  scale_and_cluster := toy_cluster;
  tfidf_fit_transform := toy_tfidf;
  weight_pos := fun w => (0 <? w)%Z;
  argsort := fun ws => seq 0 (List.length ws)
|}.

Definition mk_article (id : Z) (title : string) : article :=
  {| a_id := id; a_outlet := "wire"; a_published_at := Some id;
     a_title := title; a_text := "" |}.

Definition mk_embedding (id v : Z) (model : string) : embedding_row :=
  {| e_article_id := id; e_vector := v; e_model_name := model |}.

Definition mk_world (d : database) (faults : list bool) : world :=
  {| w_db := d; w_faults := faults; w_log := [] |}.

(** A title of [n] letters. *)
Definition letters (n : nat) : string :=
  string_of_list_ascii (repeat "a"%char n).

(** What [create_demo_clusters] of [src/data/create_demo_data.py] leaves
    behind: one labelled cluster with its members and no embedding. *)
Definition demo_db : database :=
  {| articles := [mk_article 1 (letters 60); mk_article 2 (letters 60)];
     embeddings := [];
     clusters := [{| c_cluster_id := 1; c_label := "AI Regulation Policy" |}];
     cluster_members := [{| m_cluster_id := 1; m_article_id := 1 |};
                         {| m_cluster_id := 1; m_article_id := 2 |}] |}.

(** The demo state after its two articles were embedded. *)
Definition demo_embedded_db : database :=
  {| articles := articles demo_db;
     embeddings := [mk_embedding 1 61 EMBEDDING_MODEL;
                    mk_embedding 2 61 EMBEDDING_MODEL];
     clusters := clusters demo_db;
     cluster_members := cluster_members demo_db |}.

(** Four embedded articles and no cluster yet. *)
Definition four_db : database :=
  {| articles := [mk_article 1 "markets rally again"; mk_article 2 "markets rally";
                  mk_article 3 "storm warning"; mk_article 4 "markets fall"];
     embeddings := [mk_embedding 1 10 EMBEDDING_MODEL;
                    mk_embedding 2 12 EMBEDDING_MODEL;
                    mk_embedding 3 7 EMBEDDING_MODEL;
                    mk_embedding 4 8 EMBEDDING_MODEL];
     clusters := [];
     cluster_members := [] |}.

(** One article, embedded only under another model. *)
Definition other_model_db : database :=
  {| articles := [mk_article 1 (letters 60)];
     embeddings := [mk_embedding 1 61 "all-MiniLM-L6-v2"];
     clusters := [];
     cluster_members := [] |}.

(** Articles [1..n], each with a title of 60 letters, none embedded. *)
Definition fresh_db (n : nat) : database :=
  {| articles := map (fun i => mk_article (Z.of_nat i) (letters 60)) (seq 1 n);
     embeddings := [];
     clusters := [];
     cluster_members := [] |}.

End Toy.

(** ** Code around the clustering core *)

(** [NewsIngester.clean_article_text] of [src/ingest/fetch_news.py]: the
    first two substitutions of [preprocess_text] and the [strip]. *)
Definition clean_article_chars (text : PyStr.chars) : PyStr.chars :=
  match text with
  | [] => []
  | _ =>
      let text1 := Regex.remove_tags text in
      PyStr.strip (Regex.collapse_spaces text1)
  end.

Definition clean_article_text (text : string) : string :=
  string_of_list_ascii (clean_article_chars (list_ascii_of_string text)).

(** [BiasScorer._truncate_text] of [src/ml/score_bias.py].

    [rfind c s] is [s.rfind(c)]: the last position of [c], or [-1].  The
    test [end_pos > max_chars * 0.8] multiplies by the double nearest to
    0.8; that product is [4 * max_chars / 5] rounded to a double less than
    half a unit away, so for an integer [end_pos] and a text of fewer than
    2^50 characters the test is [4 * max_chars < 5 * end_pos]. *)
Fixpoint rfind_from (c : ascii) (s : PyStr.chars) (i found : Z) : Z :=
  match s with
  | [] => found
  | x :: r => rfind_from c r (i + 1) (if Ascii.eqb x c then i else found)
  end.

Definition rfind (c : ascii) (s : PyStr.chars) : Z := rfind_from c s 0 (-1).

Definition truncate_text (text : string) (max_tokens : nat) : string :=
  let max_chars := (max_tokens * 4)%nat in
  if (String.length text <=? max_chars)%nat then text
  else
    let truncated := firstn max_chars (list_ascii_of_string text) in
    let last_period := rfind "."%char truncated in
    let last_exclamation := rfind "!"%char truncated in
    let last_question := rfind "?"%char truncated in
    let end_pos := Z.max (Z.max last_period last_exclamation) last_question in
    if (4 * Z.of_nat max_chars <? 5 * end_pos)%Z
    then string_of_list_ascii (firstn (Z.to_nat (end_pos + 1)) truncated)
    else string_of_list_ascii (truncated ++ list_ascii_of_string "...").

Section AroundTheCore.
Context {B : MLBackend}.
Local Open Scope store_scope.

(** [create_demo_clusters] of [src/data/create_demo_data.py]: cluster [1]
    and one membership per article id, inside one [with] block. *)
Definition DEMO_CLUSTER_ID : Z := 1.
Definition DEMO_CLUSTER_LABEL : string := "AI Regulation Policy".

Definition create_demo_clusters (article_ids : list Z) : M unit :=
  with_connection
    (execute (InsertCluster DEMO_CLUSTER_ID DEMO_CLUSTER_LABEL) ;;
     for_each article_ids
              (fun article_id =>
                 execute (InsertClusterMember DEMO_CLUSTER_ID article_id))).

(** The statements [create_demo_clusters] sends when nothing fails. *)
Definition demo_statements (article_ids : list Z) : list statement :=
  InsertCluster DEMO_CLUSTER_ID DEMO_CLUSTER_LABEL
    :: map (InsertClusterMember DEMO_CLUSTER_ID) article_ids.

(** The world after [n] calls of [generate_embeddings_for_unprocessed],
    whatever each of them returns. *)
Fixpoint after_calls (n : nat) (w : world) : world :=
  match n with
  | O => w
  | S k => after_calls k (snd (generate_embeddings_for_unprocessed w))
  end.

(** A row of [get_all_embeddings] is not older than the next one. *)
Definition not_older (x y : embedding_dict) : Prop :=
  published_before (i_published_at x) (i_published_at y) = false.

(** The row the join makes of an embedding and its article. *)
Definition joined_row (e : embedding_row) (a : article) : embedding_dict :=
  {| i_article_id := e_article_id e; i_vector := e_vector e;
     i_title := a_title a; i_outlet := a_outlet a;
     i_published_at := a_published_at a |}.

(** Two stores that differ at most in the [text] of their articles. *)
Definition forget_text (a : article) : article :=
  {| a_id := a_id a; a_outlet := a_outlet a;
     a_published_at := a_published_at a; a_title := a_title a;
     a_text := "" |}.

Definition same_but_text (d d' : database) : Prop :=
  map forget_text (articles d) = map forget_text (articles d')
  /\ embeddings d = embeddings d'
  /\ clusters d = clusters d'
  /\ cluster_members d = cluster_members d'.

Definition agree (w w' : world) : Prop :=
  same_but_text (w_db w) (w_db w')
  /\ w_faults w = w_faults w'
  /\ w_log w = w_log w'.

(** A computation that cannot tell two agreeing worlds apart. *)
Definition blind {A} (m : M A) : Prop :=
  forall w w', agree w w' ->
    fst (m w) = fst (m w') /\ agree (snd (m w)) (snd (m w')).

End AroundTheCore.

(** [spaced_ok prev s]: no whitespace character of [s] follows another,
    nor the one before [s] when [prev] says there is one. *)
Fixpoint spaced_ok (prev : bool) (s : PyStr.chars) : bool :=
  match s with
  | [] => true
  | c :: r =>
      if PyStr.is_space c then negb prev && spaced_ok true r
      else spaced_ok false r
  end.

(** No two whitespace characters of [s] stand side by side. *)
Definition no_space_run (s : PyStr.chars) : Prop :=
  forall l1 c1 c2 l2,
    s = l1 ++ c1 :: c2 :: l2 ->
    PyStr.is_space c1 = true -> PyStr.is_space c2 = true -> False.

(** [Toy.four_db] with other article bodies. *)
Definition four_db_rewritten : database (B := Toy.backend) :=
  {| articles :=
       map (fun a => {| a_id := a_id a; a_outlet := a_outlet a;
                        a_published_at := a_published_at a;
                        a_title := a_title a;
                        a_text := "An entirely different body." |})
           (articles Toy.four_db);
     embeddings := embeddings Toy.four_db;
     clusters := clusters Toy.four_db;
     cluster_members := cluster_members Toy.four_db |}.

(** Fifty articles with a five-letter title, then one with sixty letters. *)
Definition starved_db : database (B := Toy.backend) :=
  {| articles :=
       map (fun i => Toy.mk_article (Z.of_nat i) (Toy.letters 5)) (seq 1 50)
       ++ [Toy.mk_article 51 (Toy.letters 60)];
     embeddings := [];
     clusters := [];
     cluster_members := [] |}.

(** * Properties *)

(** ** Sequences of statements inside one transaction *)

Section StoreFacts.
Context {B : MLBackend}.
Local Open Scope store_scope.

Lemma next_fault_db w : w_db (snd (next_fault w)) = w_db w.
Proof. unfold next_fault. destruct (w_faults w); reflexivity. Qed.

Lemma next_fault_log w : w_log (snd (next_fault w)) = w_log w.
Proof. unfold next_fault. destruct (w_faults w); reflexivity. Qed.

Lemma next_fault_nil w :
  w_faults w = [] -> next_fault w = (false, w).
Proof. unfold next_fault. intros ->. reflexivity. Qed.

Lemma execute_log s w : w_log (snd (execute s w)) = w_log w ++ [s].
Proof.
  unfold execute.
  destruct (next_fault (record s w)) as [f w1] eqn:E.
  assert (L : w_log w1 = w_log w ++ [s]).
  { change w1 with (snd (f, w1)). rewrite <- E, next_fault_log. reflexivity. }
  destruct f; [exact L|].
  destruct (apply_statement s (w_db w1)); exact L.
Qed.

Lemma execute_ok s w w' :
  execute s w = (Ok tt, w') ->
  apply_statement s (w_db w) = Ok (w_db w').
Proof.
  unfold execute.
  destruct (next_fault (record s w)) as [f w1] eqn:E.
  assert (D : w_db w1 = w_db w).
  { change w1 with (snd (f, w1)). rewrite <- E, next_fault_db. reflexivity. }
  destruct f; [discriminate|].
  rewrite D.
  destruct (apply_statement s (w_db w)); [|discriminate].
  intros H. inversion H. reflexivity.
Qed.

Lemma execute_raise s w e w' :
  execute s w = (Raise e, w') -> w_db w' = w_db w.
Proof.
  unfold execute.
  destruct (next_fault (record s w)) as [f w1] eqn:E.
  assert (D : w_db w1 = w_db w).
  { change w1 with (snd (f, w1)). rewrite <- E, next_fault_db. reflexivity. }
  destruct f.
  - intros H. inversion H. subst. exact D.
  - destruct (apply_statement s (w_db w1)); [discriminate|].
    intros H. inversion H. subst. exact D.
Qed.

(** Without faults a statement does what [apply_statement] says. *)
Lemma execute_no_fault s w :
  w_faults w = [] ->
  execute s w =
    match apply_statement s (w_db w) with
    | Ok d => (Ok tt, set_db d (record s w))
    | Raise e => (Raise e, record s w)
    end.
Proof.
  intros F. unfold execute.
  rewrite next_fault_nil by exact F. reflexivity.
Qed.

Lemma execute_all_ok stmts : forall w w',
  execute_all stmts w = (Ok tt, w') ->
  apply_all stmts (w_db w) = Ok (w_db w') /\ w_log w' = w_log w ++ stmts.
Proof.
  induction stmts as [|s r IH]; intros w w' H.
  - inversion H. subst. simpl. rewrite app_nil_r. auto.
  - unfold execute_all in H. simpl in H. unfold bind in H.
    destruct (execute s w) as [[[]|e] w1] eqn:E; [|discriminate].
    pose proof (execute_ok _ _ E) as A.
    pose proof (execute_log s w) as L. rewrite E in L. simpl in L.
    destruct (IH _ _ H) as [A' L'].
    simpl. rewrite A. simpl. split; [exact A'|].
    rewrite L', L, <- app_assoc. reflexivity.
Qed.

(** Whatever happens, what was executed is a prefix of [stmts]. *)
Lemma execute_all_log stmts : forall w,
  exists n, w_log (snd (execute_all stmts w)) = w_log w ++ firstn n stmts.
Proof.
  induction stmts as [|s r IH]; intros w.
  - exists 0%nat. simpl. rewrite app_nil_r. reflexivity.
  - unfold execute_all. simpl. unfold bind.
    pose proof (execute_log s w) as L.
    destruct (execute s w) as [[[]|e] w1] eqn:E; simpl in L.
    + destruct (IH w1) as [n Hn]. exists (S n).
      unfold execute_all in Hn. rewrite Hn, L, <- app_assoc. reflexivity.
    + exists 1%nat. simpl. exact L.
Qed.

(** Leaving a [with] block: either the body and the commit went through,
    or the tables are those of the start. *)
Lemma with_connection_cases {A} (body : M A) (w : world) :
  (exists a w1, body w = (Ok a, w1)
                /\ fst (with_connection body w) = Ok a
                /\ w_db (snd (with_connection body w)) = w_db w1)
  \/ (exists e, fst (with_connection body w) = Raise e
                /\ w_db (snd (with_connection body w)) = w_db w).
Proof.
  unfold with_connection.
  destruct (body w) as [[a|e] w1] eqn:E.
  - destruct (next_fault w1) as [f w2] eqn:F.
    assert (D : w_db w2 = w_db w1).
    { change w2 with (snd (f, w2)). rewrite <- F, next_fault_db. reflexivity. }
    destruct f.
    + right. exists OperationalError. simpl. auto.
    + left. exists a, w1. simpl. auto.
  - right. exists e. simpl. auto.
Qed.

Lemma with_connection_log {A} (body : M A) (w : world) :
  w_log (snd (with_connection body w)) = w_log (snd (body w)).
Proof.
  unfold with_connection.
  destruct (body w) as [[a|e] w1]; simpl; [|reflexivity].
  destruct (next_fault w1) as [f w2] eqn:F.
  assert (L : w_log w2 = w_log w1).
  { change w2 with (snd (f, w2)). rewrite <- F, next_fault_log. reflexivity. }
  destruct f; simpl; exact L.
Qed.

Lemma for_each_ext {A} (f g : A -> M unit) (xs : list A) :
  (forall x w, f x w = g x w) ->
  forall w, for_each xs f w = for_each xs g w.
Proof.
  intros E. induction xs as [|x r IH]; intros w; simpl; [reflexivity|].
  unfold bind. rewrite E.
  destruct (g x w) as [[[]|e] w1]; [apply IH|reflexivity].
Qed.

Lemma for_each_app {A} (f : A -> M unit) (xs ys : list A) : forall w,
  for_each (xs ++ ys) f w = (for_each xs f ;; for_each ys f) w.
Proof.
  induction xs as [|x r IH]; intros w; simpl; [reflexivity|].
  unfold bind in *.
  destruct (f x w) as [[[]|e] w1]; [|reflexivity].
  apply IH.
Qed.

Lemma for_each_map {A C} (g : A -> C) (f : C -> M unit) (xs : list A) :
  forall w, for_each (map g xs) f w = for_each xs (fun x => f (g x)) w.
Proof.
  induction xs as [|x r IH]; intros w; simpl; [reflexivity|].
  unfold bind. destruct (f (g x) w) as [[[]|e] w1]; [apply IH|reflexivity].
Qed.

Lemma for_each_filter {A} (c : A -> bool) (f : A -> M unit) (xs : list A) :
  forall w,
    for_each xs (fun x => if c x then f x else ret tt) w
    = for_each (filter c xs) f w.
Proof.
  induction xs as [|x r IH]; intros w; simpl; [reflexivity|].
  destruct (c x); simpl.
  - unfold bind. destruct (f x w) as [[[]|e] w1]; [apply IH|reflexivity].
  - unfold bind, ret. apply IH.
Qed.

End StoreFacts.

(** ** [update_clusters] *)

Section UpdateClusters.
Context {B : MLBackend}.
Local Open Scope store_scope.

Lemma update_clusters_body (ca : PyDict.t Z) (cl : PyDict.t string) w :
  update_clusters ca cl w
  = with_connection (execute_all (update_statements ca cl)) w.
Proof.
  unfold update_clusters, with_connection.
  match goal with
  | |- match ?b w with _ => _ end = match ?c w with _ => _ end =>
      assert (E : b w = c w)
  end.
  { unfold update_statements, execute_all. simpl. unfold bind.
    destruct (execute DeleteClusterMembers w) as [[[]|e] w1]; [|reflexivity].
    destruct (execute DeleteClusters w1) as [[[]|e] w2]; [|reflexivity].
    rewrite for_each_app. unfold bind.
    rewrite for_each_map.
    rewrite (for_each_ext
               (fun '(cluster_id, label) => execute (InsertCluster cluster_id label))
               (fun x => execute (insert_cluster_of x))) by (intros [] ?; reflexivity).
    destruct (for_each (PyDict.items cl) _ w2) as [[[]|e] w3]; [|reflexivity].
    rewrite for_each_map.
    rewrite <- (for_each_filter nonneg_assignment
                                (fun x => execute (insert_member_of x))).
    apply for_each_ext. intros [aid cid] w'. reflexivity. }
  rewrite E. reflexivity.
Qed.

Lemma apply_insert_clusters (l : list (Z * string)) : forall d d',
  apply_all (map insert_cluster_of l) d = Ok d' ->
  articles d' = articles d /\ embeddings d' = embeddings d
  /\ clusters d' = clusters d ++ map cluster_of l
  /\ cluster_members d' = cluster_members d.
Proof.
  induction l as [|[cid lab] r IH]; intros d d' H; simpl in H.
  - inversion H. subst. rewrite app_nil_r. auto.
  - destruct (has_cluster cid d); [discriminate|]. simpl in H.
    destruct (IH _ _ H) as (A & E & C & M'). simpl in *.
    rewrite A, E, C, M', <- app_assoc. auto.
Qed.

Lemma apply_insert_members (l : list (Z * Z)) : forall d d',
  apply_all (map insert_member_of l) d = Ok d' ->
  articles d' = articles d /\ embeddings d' = embeddings d
  /\ clusters d' = clusters d
  /\ cluster_members d' = cluster_members d ++ map member_of l.
Proof.
  induction l as [|[aid cid] r IH]; intros d d' H; simpl in H.
  - inversion H. subst. rewrite app_nil_r. auto.
  - destruct (has_member cid aid d); [discriminate|]. simpl in H.
    destruct (IH _ _ H) as (A & E & C & M'). simpl in *.
    rewrite A, E, C, M', <- app_assoc. auto.
Qed.

Lemma apply_all_app (xs ys : list statement) : forall d,
  apply_all (xs ++ ys) d = rbind (apply_all xs d) (apply_all ys).
Proof.
  induction xs as [|x r IH]; intros d; simpl; [reflexivity|].
  destruct (apply_statement x d); simpl; [apply IH|reflexivity].
Qed.

(** The tables after the statements of a replace that went through. *)
Lemma apply_update_statements ca cl d d' :
  apply_all (update_statements ca cl) d = Ok d' ->
  articles d' = articles d /\ embeddings d' = embeddings d
  /\ clusters d' = map cluster_of (PyDict.items cl)
  /\ cluster_members d'
     = map member_of (filter nonneg_assignment (PyDict.items ca)).
Proof.
  unfold update_statements. simpl. rewrite apply_all_app.
  intros H.
  destruct (apply_all (map insert_cluster_of (PyDict.items cl)) _) as [d1|e] eqn:E1;
    [|discriminate].
  simpl in H.
  destruct (apply_insert_clusters _ _ E1) as (A1 & B1 & C1 & D1).
  destruct (apply_insert_members _ _ H) as (A2 & B2 & C2 & D2).
  simpl in *. rewrite A2, B2, C2, D2, A1, B1, C1, D1. auto.
Qed.

(** What [update_clusters] leaves behind, in full. *)
Lemma update_clusters_outcome ca cl w :
  (fst (update_clusters ca cl w) = Ok tt
   /\ apply_all (update_statements ca cl) (w_db w)
      = Ok (w_db (snd (update_clusters ca cl w)))
   /\ w_log (snd (update_clusters ca cl w))
      = w_log w ++ update_statements ca cl)
  \/ (exists e, fst (update_clusters ca cl w) = Raise e
                /\ w_db (snd (update_clusters ca cl w)) = w_db w).
Proof.
  rewrite update_clusters_body.
  destruct (with_connection_cases (execute_all (update_statements ca cl)) w)
    as [([] & w1 & E & R & D)|H]; [left|right; exact H].
  destruct (execute_all_ok _ _ E) as [A L].
  split; [exact R|]. split; [rewrite D; exact A|].
  rewrite with_connection_log, E. exact L.
Qed.

Lemma in_update_statements_member ca cl cid aid :
  In (InsertClusterMember cid aid) (update_statements ca cl) -> (0 <= cid)%Z.
Proof.
  unfold update_statements. intros H.
  destruct H as [H|[H|H]]; [discriminate|discriminate|].
  simpl in H. apply in_app_or in H. destruct H as [H|H].
  - apply (proj1 (in_map_iff _ _ _)) in H. destruct H as (p & H & _).
    discriminate.
  - apply (proj1 (in_map_iff _ _ _)) in H. destruct H as ([a c] & H & F).
    apply filter_In in F. destruct F as [_ F].
    unfold insert_member_of in H. simpl in H. inversion H. subst.
    unfold nonneg_assignment in F. simpl in F. lia.
Qed.

(** C2: a replace is all or nothing.  Whatever the fault schedule and
    whatever constraint an insert may violate, [update_clusters] either
    returns normally, and then the tables are exactly the result of the
    two deletes and all the inserts, or it raises, and then all four
    tables are what they were before the call. *)
Theorem update_clusters_all_or_nothing
        (cluster_assignments : PyDict.t Z) (cluster_labels : PyDict.t string)
        (w : world) :
  let r := fst (update_clusters cluster_assignments cluster_labels w) in
  let d' := w_db (snd (update_clusters cluster_assignments cluster_labels w)) in
  (r = Ok tt
   /\ articles d' = articles (w_db w)
   /\ embeddings d' = embeddings (w_db w)
   /\ clusters d' = map cluster_of (PyDict.items cluster_labels)
   /\ cluster_members d'
      = map member_of
            (filter nonneg_assignment (PyDict.items cluster_assignments)))
  \/ (exists e, r = Raise e /\ d' = w_db w).
Proof.
  cbv zeta.
  destruct (update_clusters_outcome cluster_assignments cluster_labels w)
    as [(R & A & _)|H]; [left|right; exact H].
  split; [exact R|]. exact (apply_update_statements _ _ _ A).
Qed.

End UpdateClusters.

(** ** Noise never reaches [cluster_members] *)

Section NoNegativeMembers.
Context {B : MLBackend}.

Lemma Forall_firstn {A} (P : A -> Prop) (n : nat) (l : list A) :
  Forall P l -> Forall P (firstn n l).
Proof.
  intros H. rewrite <- (firstn_skipn n l) in H.
  apply Forall_app in H. tauto.
Qed.

Lemma update_statements_member_ok ca cl :
  Forall member_insert_ok (update_statements ca cl).
Proof.
  apply Forall_forall. intros s H.
  destruct s; simpl; auto.
  eapply in_update_statements_member; exact H.
Qed.

Lemma nonneg_members (ca : PyDict.t Z) :
  Forall (fun m => (0 <= m_cluster_id m)%Z)
         (map member_of (filter nonneg_assignment (PyDict.items ca))).
Proof.
  apply Forall_forall. intros m H.
  apply (proj1 (in_map_iff _ _ _)) in H. destruct H as (p & <- & F).
  apply filter_In in F. destruct F as [_ F].
  unfold nonneg_assignment in F. simpl. lia.
Qed.

Lemma set_values {V} (P : V -> Prop) k v (d : PyDict.t V) :
  P v -> Forall (fun p => P (snd p)) d ->
  Forall (fun p => P (snd p)) (PyDict.set k v d).
Proof.
  intros Pv. induction d as [|[k' v'] r IH]; intros F; simpl.
  - constructor; [exact Pv|constructor].
  - inversion F; subst. destruct (Z.eqb k k').
    + constructor; [exact Pv|assumption].
    + constructor; [assumption|apply IH; assumption].
Qed.

Lemma fold_assign_nonneg (ps : list (Z * Z)) : forall d : PyDict.t Z,
  Forall (fun p => (0 <= snd p)%Z) d ->
  Forall (fun p => (0 <= snd p)%Z) (fold_left assign_step ps d).
Proof.
  induction ps as [|[aid lab] r IH]; intros d F; simpl; [exact F|].
  apply IH. destruct (0 <=? lab)%Z eqn:E; [|exact F].
  apply (set_values (fun v => (0 <= v)%Z)); [lia|exact F].
Qed.

(** The dictionary [run_clustering] hands over holds no noise label. *)
Lemma build_assignments_nonneg (article_ids cluster_labels : list Z) :
  Forall (fun p => (0 <= snd p)%Z)
         (PyDict.items (build_assignments article_ids cluster_labels)).
Proof. apply fold_assign_nonneg. constructor. Qed.

(** C10: [update_clusters] itself keeps noise out of [cluster_members].
    For any dictionaries and any fault schedule, none of the statements
    the call executes inserts a membership with a negative cluster id;
    when the call returns normally the table holds exactly the entries of
    [cluster_assignments] whose cluster id is not negative, and when it
    raises the table is unchanged.  The caller filters too: the
    dictionary built by [run_clustering] has no negative value. *)
Theorem update_clusters_omits_negative
        (cluster_assignments : PyDict.t Z) (cluster_labels : PyDict.t string)
        (w : world) (article_ids labels : list Z) :
  let w' := snd (update_clusters cluster_assignments cluster_labels w) in
  (exists sent, w_log w' = w_log w ++ sent /\ Forall member_insert_ok sent)
  /\ match fst (update_clusters cluster_assignments cluster_labels w) with
     | Ok _ =>
         cluster_members (w_db w')
         = map member_of
               (filter nonneg_assignment (PyDict.items cluster_assignments))
         /\ Forall (fun m => (0 <= m_cluster_id m)%Z) (cluster_members (w_db w'))
     | Raise _ => cluster_members (w_db w') = cluster_members (w_db w)
     end
  /\ Forall (fun p => (0 <= snd p)%Z)
            (PyDict.items (build_assignments article_ids labels)).
Proof.
  cbv zeta. split; [|split].
  - rewrite update_clusters_body, with_connection_log.
    destruct (execute_all_log
                (update_statements cluster_assignments cluster_labels) w)
      as [n Hn].
    exists (firstn n (update_statements cluster_assignments cluster_labels)).
    split; [exact Hn|].
    apply Forall_firstn, update_statements_member_ok.
  - destruct (update_clusters_outcome cluster_assignments cluster_labels w)
      as [(R & A & _)|(e & R & D)]; rewrite R.
    + destruct (apply_update_statements _ _ _ A) as (_ & _ & _ & Mem).
      split; [exact Mem|]. rewrite Mem. apply nonneg_members.
    + rewrite D. reflexivity.
  - apply build_assignments_nonneg.
Qed.

End NoNegativeMembers.

(** ** [store_embeddings] *)

Section StoreEmbeddings.
Context {B : MLBackend}.
Local Open Scope store_scope.

Lemma insert_embedding_log aid v m w :
  w_log (snd (insert_embedding aid v m w))
  = w_log w ++ [InsertEmbedding aid v m].
Proof.
  unfold insert_embedding. rewrite with_connection_log. apply execute_log.
Qed.

Lemma insert_embedding_db aid v m w :
  w_db (snd (insert_embedding aid v m w))
  = if is_ok (fst (insert_embedding aid v m w))
    then {| articles := articles (w_db w);
            embeddings := embeddings (w_db w)
                          ++ [{| e_article_id := aid; e_vector := v;
                                 e_model_name := m |}];
            clusters := clusters (w_db w);
            cluster_members := cluster_members (w_db w) |}
    else w_db w.
Proof.
  unfold insert_embedding.
  destruct (with_connection_cases (execute (InsertEmbedding aid v m)) w)
    as [([] & w1 & E & R & D)|(e & R & D)]; rewrite R; simpl.
  - rewrite D. apply execute_ok in E. simpl in E. inversion E. reflexivity.
  - exact D.
Qed.

(** The whole batch, pair by pair. *)
Lemma store_pairs_spec (pairs : list (Z * vec)) : forall w,
  fst (store_pairs pairs w) = Ok tt
  /\ w_log (snd (store_pairs pairs w))
     = w_log w ++ map insert_embedding_of pairs
  /\ embeddings (w_db (snd (store_pairs pairs w)))
     = embeddings (w_db w) ++ map row_of (stored_pairs pairs w)
  /\ articles (w_db (snd (store_pairs pairs w))) = articles (w_db w)
  /\ clusters (w_db (snd (store_pairs pairs w))) = clusters (w_db w)
  /\ cluster_members (w_db (snd (store_pairs pairs w)))
     = cluster_members (w_db w).
Proof.
  induction pairs as [|[aid v] r IH]; intros w.
  - simpl. rewrite !app_nil_r. auto 6.
  - simpl store_pairs. unfold bind, try_except.
    set (w1 := snd (insert_embedding aid v EMBEDDING_MODEL w)).
    destruct (IH w1) as (R & L & E & A & C & M').
    split; [exact R|].
    pose proof (insert_embedding_log aid v EMBEDDING_MODEL w) as L1.
    pose proof (insert_embedding_db aid v EMBEDDING_MODEL w) as D1.
    fold w1 in L1, D1.
    split; [rewrite L, L1, <- app_assoc; reflexivity|].
    unfold stored_pairs in *. simpl insert_outcomes. fold w1. simpl combine.
    simpl filter.
    destruct (is_ok (fst (insert_embedding aid v EMBEDDING_MODEL w)));
      rewrite E, A, C, M', D1; simpl.
    + rewrite <- app_assoc. auto.
    + auto.
Qed.

Lemma has_embedding_app aid (d : database) (rows : list embedding_row) d' :
  embeddings d' = embeddings d ++ rows ->
  has_embedding aid d'
  = has_embedding aid d || existsb (fun e => Z.eqb (e_article_id e) aid) rows.
Proof. unfold has_embedding. intros ->. apply existsb_app. Qed.

Lemma firstn_In {A} (a : A) (l : list A) : forall n,
  In a (firstn n l) -> In a l.
Proof.
  induction l as [|x r IH]; intros n H.
  - rewrite firstn_nil in H. exact H.
  - destruct n; [destruct H|]. simpl in H.
    destruct H as [H|H]; [left; exact H|right; exact (IH _ H)].
Qed.

Lemma firstn_In_le {A} (a : A) (l : list A) : forall n m,
  (n <= m)%nat -> In a (firstn n l) -> In a (firstn m l).
Proof.
  induction l as [|x r IH]; intros n m Le H.
  - rewrite firstn_nil in H. destruct H.
  - destruct n; [destruct H|]. destruct m; [lia|].
    simpl in *. destruct H as [H|H]; [left; exact H|right].
    apply (IH n); [lia|exact H].
Qed.

(** Rows of a LIMIT query stay in it when other rows drop out. *)
Lemma firstn_filter_mono {A} (P Q : A -> bool) (a : A) (l : list A) :
  (forall y, Q y = true -> P y = true) ->
  forall n, In a (firstn n (filter P l)) -> Q a = true ->
            In a (firstn n (filter Q l)).
Proof.
  intros QP. induction l as [|y r IH]; intros n H Qa; simpl in *.
  - exact H.
  - destruct (P y) eqn:Py.
    + destruct n; [destruct H|]. simpl in H.
      destruct H as [H|H].
      * subst y. rewrite Qa. left. reflexivity.
      * destruct (Q y).
        -- right. apply IH; assumption.
        -- apply (firstn_In_le _ _ (n:=n)); [lia|]. apply IH; assumption.
    + destruct (Q y) eqn:Qy; [rewrite (QP _ Qy) in Py; discriminate|].
      apply IH; assumption.
Qed.

Lemma select_mono (d d' : database) limit x :
  articles d' = articles d ->
  (forall aid, has_embedding aid d = true -> has_embedding aid d' = true) ->
  In x (select_articles_without_embeddings limit d) ->
  has_embedding (d_id x) d' = false ->
  In x (select_articles_without_embeddings limit d').
Proof.
  unfold select_articles_without_embeddings. intros A Mono H Hx.
  rewrite firstn_map in *.
  apply (proj1 (in_map_iff _ _ _)) in H. destruct H as (a & <- & H).
  apply in_map. rewrite A.
  apply (firstn_filter_mono (without_embedding d)); [|exact H|].
  - unfold without_embedding. intros y Qy.
    destruct (has_embedding (a_id y) d) eqn:E; [|reflexivity].
    rewrite (Mono _ E) in Qy. discriminate.
  - unfold without_embedding. simpl in Hx. rewrite Hx. reflexivity.
Qed.


End StoreEmbeddings.

(** ** [preprocess_text] on the inputs where it leaves the whitelist *)

(** C8: the comment in [preprocess_text] promises alphanumerics, spaces
    and basic punctuation, and single spaces.  The class [\w] also keeps
    the underscore, and the characters removed last leave the spaces
    around them side by side: the text ["a_b"] comes back unchanged, and
    ["a @ b"] comes back with two spaces in a row. *)
Theorem preprocess_text_leaves_whitelist :
  preprocess_text "a_b" = "a_b"
  /\ PyStr.is_alnum "_"%char = false
  /\ PyStr.is_space "_"%char = false
  /\ Regex.is_basic_punct "_"%char = false
  /\ preprocess_text "a @ b" = "a  b".
Proof. repeat split; reflexivity. Qed.

(** ** The length threshold of [generate_embeddings] *)

Section Threshold.
Context {B : MLBackend}.

Lemma fold_select_step (articles : list article_dict) : forall ids texts,
  fold_left select_step articles (ids, texts)
  = (ids ++ map d_id (included articles),
     texts ++ map embedding_text (included articles)).
Proof.
  induction articles as [|a r IH]; intros ids texts.
  - simpl. rewrite !app_nil_r. reflexivity.
  - change (fold_left select_step (a :: r) (ids, texts))
      with (fold_left select_step r (select_step (ids, texts) a)).
    assert (S : select_step (ids, texts) a
                = if long_enough a
                  then (ids ++ [d_id a], texts ++ [embedding_text a])
                  else (ids, texts)) by reflexivity.
    assert (F : included (a :: r)
                = if long_enough a then a :: included r else included r)
      by reflexivity.
    rewrite S, F. destruct (long_enough a).
    + rewrite IH. simpl. rewrite <- !app_assoc. reflexivity.
    + apply IH.
Qed.

Lemma select_texts_spec (articles : list article_dict) :
  select_texts articles
  = (map d_id (included articles), map embedding_text (included articles)).
Proof. unfold select_texts. rewrite fold_select_step. reflexivity. Qed.

Lemma generate_embeddings_spec (articles : list article_dict) :
  generate_embeddings articles
  = match map embedding_text (included articles) with
    | [] => Ok ([], [])
    | texts =>
        rbind (encode texts)
              (fun embeddings => Ok (map d_id (included articles), embeddings))
    end.
Proof.
  unfold generate_embeddings. rewrite select_texts_spec.
  destruct (map embedding_text (included articles)); reflexivity.
Qed.

(** C7, as the code has it: an article is among the texts given to the
    embedding model exactly when its normalized string has more than 50
    characters, that is at least 51.  The ids and the texts selected are
    those of the articles that pass this test, in order, and these texts
    are what [encode] receives. *)
Theorem embedding_threshold_is_strict (articles : list article_dict) :
  select_texts articles
  = (map d_id (included articles), map embedding_text (included articles))
  /\ generate_embeddings articles
     = match map embedding_text (included articles) with
       | [] => Ok ([], [])
       | texts =>
           rbind (encode texts)
                 (fun embeddings =>
                    Ok (map d_id (included articles), embeddings))
       end
  /\ forall a, In a (included articles)
               <-> In a articles
                   /\ (51 <= String.length (embedding_text a))%nat.
Proof.
  split; [apply select_texts_spec|]. split; [apply generate_embeddings_spec|].
  intros a. unfold included. rewrite filter_In. unfold long_enough.
  rewrite Nat.ltb_lt. reflexivity.
Qed.

End Threshold.

(** The claim C7 as stated, with "at least 50", fails at length 50: the
    title of 49 letters gives the normalized string of 49 letters and a
    full stop, and the article is left out. *)
Lemma threshold_fifty_is_excluded :
  ~ (forall (B : MLBackend) (articles : list article_dict) (a : article_dict),
        In a articles ->
        (50 <= String.length (embedding_text a))%nat ->
        In (embedding_text a) (snd (select_texts articles))).
Proof.
  intros H.
  pose (a := {| d_id := 1; d_title := Toy.letters 49; d_text := "" |}).
  specialize (H Toy.backend [a] a (or_introl eq_refl)).
  assert (L : (50 <= String.length (embedding_text a))%nat)
    by (vm_compute; apply le_n).
  specialize (H L). vm_compute in H. exact H.
Qed.

(** ** Queries *)

Section Queries.
Context {B : MLBackend}.
Local Open Scope store_scope.

(** A [with] block around one SELECT: the tables stay, the statement is
    logged, and the rows come back unless the store fails. *)
Lemma select_in_connection {A} (s : statement) (rows : database -> A) (w : world) :
  (forall d, apply_statement s d = Ok d) ->
  let x := with_connection (query s rows) w in
  w_db (snd x) = w_db w
  /\ w_log (snd x) = w_log w ++ [s]
  /\ (fst x = Ok (rows (w_db w)) \/ exists e, fst x = Raise e)
  /\ (w_faults w = [] -> x = (Ok (rows (w_db w)), record s w)).
Proof.
  intros RO. cbv zeta.
  assert (L : w_log (snd (with_connection (query s rows) w)) = w_log w ++ [s]).
  { rewrite with_connection_log. unfold query, bind.
    pose proof (execute_log s w) as L.
    destruct (execute s w) as [[[]|e] w1]; exact L. }
  assert (Q : forall a w1, query s rows w = (Ok a, w1) ->
                           a = rows (w_db w) /\ w_db w1 = w_db w).
  { unfold query, bind. intros a w1.
    destruct (execute s w) as [[[]|e] w2] eqn:E; [|discriminate].
    apply execute_ok in E. rewrite RO in E. inversion E as [D].
    intros H. inversion H. subst. rewrite <- D. auto. }
  split; [|split; [exact L|split]].
  - destruct (with_connection_cases (query s rows) w)
      as [(a & w1 & E & R & D)|(e & R & D)]; [|exact D].
    rewrite D. exact (proj2 (Q _ _ E)).
  - destruct (with_connection_cases (query s rows) w)
      as [(a & w1 & E & R & D)|(e & R & D)].
    + left. rewrite R. f_equal. exact (proj1 (Q _ _ E)).
    + right. exists e. exact R.
  - intros F. unfold with_connection, query, bind.
    rewrite execute_no_fault by exact F. rewrite RO.
    rewrite next_fault_nil by exact F.
    destruct w as [d fs lg]. simpl in *. subst fs. reflexivity.
Qed.

Lemma get_all_embeddings_spec (w : world) :
  let x := get_all_embeddings w in
  w_db (snd x) = w_db w
  /\ w_log (snd x) = w_log w ++ [SelectAllEmbeddings]
  /\ (fst x = Ok (select_all_embeddings (w_db w)) \/ exists e, fst x = Raise e)
  /\ (w_faults w = []
      -> x = (Ok (select_all_embeddings (w_db w)), record SelectAllEmbeddings w)).
Proof. apply select_in_connection. reflexivity. Qed.

Lemma get_articles_without_embeddings_spec (limit : nat) (w : world) :
  let x := get_articles_without_embeddings limit w in
  w_db (snd x) = w_db w
  /\ w_log (snd x) = w_log w ++ [SelectArticlesWithoutEmbeddings limit]
  /\ (fst x = Ok (select_articles_without_embeddings limit (w_db w))
      \/ exists e, fst x = Raise e)
  /\ (w_faults w = []
      -> x = (Ok (select_articles_without_embeddings limit (w_db w)),
              record (SelectArticlesWithoutEmbeddings limit) w)).
Proof. apply select_in_connection. reflexivity. Qed.

End Queries.

(** ** A corpus below the minimum cluster size *)

Section SmallCorpus.
Context {B : MLBackend}.
Local Open Scope store_scope.

Lemma cluster_articles_small (embeddings_ : list vec) :
  (List.length embeddings_ < MIN_CLUSTER_SIZE)%nat ->
  cluster_articles embeddings_ = Ok (repeat NOISE (List.length embeddings_)).
Proof.
  intros H. unfold cluster_articles.
  apply Nat.ltb_lt in H. rewrite H. reflexivity.
Qed.

(** C1, as the code has it: with fewer rows than [MIN_CLUSTER_SIZE],
    [cluster_articles] labels every row as noise, and [run_clustering]
    stops before clustering: it executes the SELECT and nothing else, it
    leaves every table, [clusters] and [cluster_members] included, as it
    found them, and it returns 0 unless the store fails on the SELECT. *)
Theorem run_clustering_small_corpus (w : world) :
  (corpus_size (w_db w) < MIN_CLUSTER_SIZE)%nat ->
  let x := run_clustering w in
  cluster_articles (map i_vector (select_all_embeddings (w_db w)))
  = Ok (repeat NOISE (corpus_size (w_db w)))
  /\ w_db (snd x) = w_db w
  /\ w_log (snd x) = w_log w ++ [SelectAllEmbeddings]
  /\ (fst x = Ok 0%nat \/ exists e, fst x = Raise e)
  /\ (w_faults w = [] -> fst x = Ok 0%nat).
Proof.
  intros Small. cbv zeta. split.
  { rewrite cluster_articles_small; rewrite length_map; [reflexivity|exact Small]. }
  unfold run_clustering, bind.
  destruct (get_all_embeddings_spec w) as (D & L & R & NF).
  destruct (get_all_embeddings w) as [[data|e] w1] eqn:G; simpl in D, L, R.
  - assert (E : data = select_all_embeddings (w_db w)).
    { destruct R as [R|[e R]]; [inversion R; reflexivity|discriminate]. }
    assert (Done : forall k : M nat,
               (match data with
                | [] => ret 0%nat
                | _ :: _ =>
                    if (List.length (map i_vector data) <? MIN_CLUSTER_SIZE)%nat
                    then ret 0%nat else k
                end) w1 = (Ok 0%nat, w1)).
    { intros k. destruct data as [|i r]; [reflexivity|].
      assert (T : (List.length (map i_vector (i :: r)) <? MIN_CLUSTER_SIZE)%nat
                  = true).
      { apply Nat.ltb_lt. rewrite length_map, E. exact Small. }
      rewrite T. reflexivity. }
    rewrite Done. simpl.
    split; [exact D|]. split; [exact L|]. split; [left; reflexivity|].
    intros _. reflexivity.
  - simpl.
    split; [exact D|]. split; [exact L|].
    split; [right; exists e; reflexivity|].
    intros F. specialize (NF F). discriminate NF.
Qed.

End SmallCorpus.

(** The claim C1 as stated fails on the stored state: the demo cluster
    with two embedded articles is still there after the run. *)
Lemma small_corpus_keeps_old_clusters :
  ~ (forall (B : MLBackend) (w : world),
        (corpus_size (w_db w) < MIN_CLUSTER_SIZE)%nat ->
        clusters (w_db (snd (run_clustering w))) = []).
Proof.
  intros H.
  specialize (H Toy.backend (Toy.mk_world Toy.demo_embedded_db [])).
  assert (S : (corpus_size Toy.demo_embedded_db < MIN_CLUSTER_SIZE)%nat)
    by (vm_compute; repeat constructor).
  specialize (H S). vm_compute in H. discriminate H.
Qed.

Lemma run_clustering_small_corpus_witness :
  (corpus_size Toy.demo_embedded_db < MIN_CLUSTER_SIZE)%nat
  /\ w_db (snd (run_clustering (Toy.mk_world Toy.demo_embedded_db [])))
     = Toy.demo_embedded_db
  /\ fst (run_clustering (Toy.mk_world Toy.demo_embedded_db [])) = Ok 0%nat.
Proof.
  assert (S : (corpus_size Toy.demo_embedded_db < MIN_CLUSTER_SIZE)%nat)
    by (vm_compute; repeat constructor).
  split; [exact S|].
  pose proof (run_clustering_small_corpus
                (Toy.mk_world Toy.demo_embedded_db []) S) as H.
  cbv zeta in H. destruct H as (_ & D & _ & _ & R).
  split; [exact D|]. apply R. reflexivity.
Defined.

(** ** [generate_embeddings_for_unprocessed] *)

Section Unprocessed.
Context {B : MLBackend}.
Local Open Scope store_scope.

Lemma filter_none {A} (f : A -> bool) (l : list A) :
  (forall x, In x l -> f x = false) -> filter f l = [].
Proof.
  induction l as [|y r IH]; intros H; simpl; [reflexivity|].
  rewrite (H y (or_introl eq_refl)). apply IH.
  intros x Hx. apply H. right. exact Hx.
Qed.

Lemma stored_pairs_incl (pairs : list (Z * vec)) (w : world) (p : Z * vec) :
  In p (stored_pairs pairs w) -> In p pairs.
Proof.
  unfold stored_pairs. intros H.
  apply (proj1 (in_map_iff _ _ _)) in H. destruct H as ([q b] & <- & H).
  apply filter_In in H. destruct H as [H _].
  apply in_combine_l in H. exact H.
Qed.

Lemma select_without_embedding (limit : nat) (d : database) (x : article_dict) :
  In x (select_articles_without_embeddings limit d) ->
  has_embedding (d_id x) d = false
  /\ exists a, In a (articles d) /\ x = to_article_dict a.
Proof.
  unfold select_articles_without_embeddings. intros H.
  apply firstn_In in H.
  apply (proj1 (in_map_iff _ _ _)) in H. destruct H as (a & <- & H).
  apply filter_In in H. destruct H as [Ha H].
  unfold without_embedding in H. simpl. split; [|exists a; auto].
  destruct (has_embedding (a_id a) d); [discriminate|reflexivity].
Qed.

Ltac unchanged Same D :=
  first [ exact (Same (Ok 0%nat) _ D)
        | match goal with e : exn |- _ => exact (Same (Raise e) _ D) end ].

(** Whatever fails, a call only appends rows, and only rows of articles
    that the query returned and that passed the length test. *)
Lemma generate_for_unprocessed_appends (w : world) :
  let x := generate_embeddings_for_unprocessed w in
  exists pairs : list (Z * vec),
    embeddings (w_db (snd x)) = embeddings (w_db w) ++ map row_of pairs
    /\ articles (w_db (snd x)) = articles (w_db w)
    /\ clusters (w_db (snd x)) = clusters (w_db w)
    /\ cluster_members (w_db (snd x)) = cluster_members (w_db w)
    /\ forall p, In p pairs ->
         exists a, In a (select_articles_without_embeddings 50 (w_db w))
                   /\ d_id a = fst p /\ long_enough a = true.
Proof.
  cbv zeta. unfold generate_embeddings_for_unprocessed, bind.
  destruct (get_articles_without_embeddings_spec 50 w) as (D & _ & R & _).
  assert (Same : forall (r : result nat) (w1 : world), w_db w1 = w_db w ->
    exists pairs : list (Z * vec),
      embeddings (w_db (snd (r, w1))) = embeddings (w_db w) ++ map row_of pairs
      /\ articles (w_db (snd (r, w1))) = articles (w_db w)
      /\ clusters (w_db (snd (r, w1))) = clusters (w_db w)
      /\ cluster_members (w_db (snd (r, w1))) = cluster_members (w_db w)
      /\ forall p, In p pairs ->
           exists a, In a (select_articles_without_embeddings 50 (w_db w))
                     /\ d_id a = fst p /\ long_enough a = true).
  { intros r w1 E. exists []. simpl. rewrite E, app_nil_r.
    repeat split; auto. intros p []. }
  destruct (get_articles_without_embeddings 50 w) as [[cands|e] w1] eqn:G;
    simpl in D, R; [|unchanged Same D].
  assert (C : cands = select_articles_without_embeddings 50 (w_db w)).
  { destruct R as [R|[e R]]; [inversion R; reflexivity|discriminate]. }
  destruct cands as [|c0 cs]; [unchanged Same D|].
  unfold lift. rewrite generate_embeddings_spec.
  remember (included (c0 :: cs)) as inc eqn:Inc.
  destruct (map embedding_text inc) as [|t ts] eqn:T; [unchanged Same D|].
  destruct (encode (t :: ts)) as [vs|e]; simpl rbind; [|unchanged Same D].
  destruct (map d_id inc) as [|i0 ids] eqn:I; [unchanged Same D|].
  unfold ret.
  destruct (store_pairs_spec (combine (i0 :: ids) vs) w1)
    as (R1 & _ & E1 & A1 & C1 & M1).
  unfold store_embeddings.
  destruct (store_pairs (combine (i0 :: ids) vs) w1) as [[[]|e] w2];
    simpl in R1, E1, A1, C1, M1; [|discriminate].
  exists (stored_pairs (combine (i0 :: ids) vs) w1). simpl snd.
  rewrite E1, A1, C1, M1, D. repeat split; auto.
  intros p Hp. apply stored_pairs_incl in Hp.
  destruct p as [aid v]. apply in_combine_l in Hp. rewrite <- I in Hp.
  apply (proj1 (in_map_iff _ _ _)) in Hp. destruct Hp as (a & Ha & Hin).
  rewrite Inc in Hin.
  unfold included in Hin. apply filter_In in Hin. destruct Hin as [Hin Long].
  exists a. rewrite <- C. auto.
Qed.

(** C5, as the code has it: the query joins on [article_id] alone, so an
    article with an embedding row under any model name is never returned by
    it, and a call of [generate_embeddings_for_unprocessed] leaves the rows
    of that article as they are; it adds none for the active model.  The
    articles the query returns are those with no embedding row at all. *)
Theorem embedded_under_any_model_is_skipped (w : world) (row : embedding_row) :
  In row (embeddings (w_db w)) ->
  let aid := e_article_id row in
  let d' := w_db (snd (generate_embeddings_for_unprocessed w)) in
  filter (fun e => Z.eqb (e_article_id e) aid) (embeddings d')
  = filter (fun e => Z.eqb (e_article_id e) aid) (embeddings (w_db w))
  /\ (forall limit x,
        In x (select_articles_without_embeddings limit (w_db w)) ->
        d_id x <> aid)
  /\ (forall limit x,
        In x (select_articles_without_embeddings limit (w_db w)) ->
        forall e, In e (embeddings (w_db w)) -> e_article_id e <> d_id x)
  /\ (forall a,
        In a (articles (w_db w)) ->
        (forall e, In e (embeddings (w_db w)) -> e_article_id e <> a_id a) ->
        In (to_article_dict a)
           (select_articles_without_embeddings
              (List.length (articles (w_db w))) (w_db w))).
Proof.
  intros Hrow. cbv zeta.
  assert (Emb : has_embedding (e_article_id row) (w_db w) = true).
  { unfold has_embedding. apply existsb_exists. exists row.
    split; [exact Hrow|apply Z.eqb_refl]. }
  assert (NotSel : forall limit x,
             In x (select_articles_without_embeddings limit (w_db w)) ->
             forall e, In e (embeddings (w_db w)) -> e_article_id e <> d_id x).
  { intros limit x Hx e He Eq.
    destruct (select_without_embedding _ _ _ Hx) as [N _].
    assert (T : has_embedding (d_id x) (w_db w) = true).
    { unfold has_embedding. apply existsb_exists. exists e.
      split; [exact He|apply Z.eqb_eq; exact Eq]. }
    rewrite T in N. discriminate. }
  split; [|split; [|split; [exact NotSel|]]].
  - destruct (generate_for_unprocessed_appends w) as (pairs & E & _ & _ & _ & P).
    rewrite E, filter_app.
    assert (Z0 : filter (fun e => Z.eqb (e_article_id e) (e_article_id row))
                        (map row_of pairs) = []).
    { apply filter_none. intros x Hx.
      apply (proj1 (in_map_iff _ _ _)) in Hx. destruct Hx as (p & <- & Hp).
      destruct (P _ Hp) as (a & Ha & Id & _). simpl.
      apply Z.eqb_neq. intros Eq.
      apply (NotSel _ _ Ha row Hrow). congruence. }
    rewrite Z0, app_nil_r. reflexivity.
  - intros limit x Hx Eq. apply (NotSel _ _ Hx row Hrow). congruence.
  - intros a Ha None. unfold select_articles_without_embeddings.
    rewrite firstn_all2.
    + apply in_map. apply filter_In. split; [exact Ha|].
      unfold without_embedding.
      destruct (has_embedding (a_id a) (w_db w)) eqn:H; [|reflexivity].
      unfold has_embedding in H. apply existsb_exists in H.
      destruct H as (e & He & Eq). apply Z.eqb_eq in Eq.
      exfalso. exact (None e He Eq).
    + rewrite length_map. apply filter_length_le.
Qed.

End Unprocessed.

(** The claim C5 as stated fails: an article embedded only under another
    model name, long enough to be embedded, gets no row under the active
    model from a run without faults. *)
Lemma other_model_gets_no_new_row :
  ~ (forall (B : MLBackend) (w : world) (a : article),
        w_faults w = [] ->
        In a (articles (w_db w)) ->
        long_enough (to_article_dict a) = true ->
        (exists e, In e (embeddings (w_db w))
                   /\ e_article_id e = a_id a
                   /\ e_model_name e <> EMBEDDING_MODEL) ->
        (forall e, In e (embeddings (w_db w)) ->
                   e_article_id e = a_id a ->
                   e_model_name e <> EMBEDDING_MODEL) ->
        exists e, In e (embeddings
                          (w_db (snd (generate_embeddings_for_unprocessed w))))
                  /\ e_article_id e = a_id a
                  /\ e_model_name e = EMBEDDING_MODEL).
Proof.
  intros H.
  specialize (H Toy.backend (Toy.mk_world Toy.other_model_db [])
                (Toy.mk_article 1 (Toy.letters 60)) eq_refl
                (or_introl eq_refl) eq_refl).
  assert (Other : "all-MiniLM-L6-v2" <> EMBEDDING_MODEL) by discriminate.
  destruct H as (e & He & _ & Model).
  - exists (Toy.mk_embedding 1 61 "all-MiniLM-L6-v2").
    split; [left; reflexivity|]. split; [reflexivity|exact Other].
  - intros e [<-|[]] _. exact Other.
  - vm_compute in He. destruct He as [<-|[]]. discriminate Model.
Qed.

Lemma embedded_under_any_model_is_skipped_witness :
  In (Toy.mk_embedding 1 61 "all-MiniLM-L6-v2")
     (embeddings (w_db (Toy.mk_world Toy.other_model_db [])))
  /\ filter (fun e => Z.eqb (e_article_id e) 1)
            (embeddings
               (w_db (snd (generate_embeddings_for_unprocessed
                             (Toy.mk_world Toy.other_model_db [])))))
     = [Toy.mk_embedding 1 61 "all-MiniLM-L6-v2"].
Proof.
  assert (I : In (Toy.mk_embedding 1 61 "all-MiniLM-L6-v2")
                 (embeddings (w_db (Toy.mk_world Toy.other_model_db []))))
    by (left; reflexivity).
  split; [exact I|].
  exact (proj1 (embedded_under_any_model_is_skipped
                  (Toy.mk_world Toy.other_model_db []) _ I)).
Defined.

(** The claim C4 as stated fails beyond one batch: with 51 articles to
    embed, the first call takes 50 and the second call embeds the last. *)
Lemma second_call_embeds_the_rest :
  ~ (forall (B : MLBackend) (w : world),
        w_faults w = [] ->
        NoDup (map a_id (articles (w_db w))) ->
        (forall texts, exists vs,
            encode texts = Ok vs /\ List.length vs = List.length texts) ->
        fst (generate_embeddings_for_unprocessed
               (snd (generate_embeddings_for_unprocessed w))) = Ok 0%nat).
Proof.
  intros H.
  specialize (H Toy.backend (Toy.mk_world (Toy.fresh_db 51) []) eq_refl).
  assert (N : NoDup (map a_id (articles (w_db (Toy.mk_world (Toy.fresh_db 51) []))))).
  { apply (NoDup_map_inv (fun z => Z.to_nat z)).
    vm_compute. apply (seq_NoDup 51 1). }
  specialize (H N).
  assert (E : forall texts, exists vs,
             @encode Toy.backend texts = Ok vs
             /\ List.length vs = List.length texts).
  { intros texts. eexists. split; [reflexivity|]. apply length_map. }
  specialize (H E). vm_compute in H. discriminate H.
Qed.

(** ** Calling [generate_embeddings_for_unprocessed] twice *)

Section Idempotence.
Context {B : MLBackend}.
Local Open Scope store_scope.

Lemma database_ext (d d' : database) :
  articles d = articles d' -> embeddings d = embeddings d' ->
  clusters d = clusters d' -> cluster_members d = cluster_members d' ->
  d = d'.
Proof. destruct d, d'. simpl. intros -> -> -> ->. reflexivity. Qed.

Lemma insert_embedding_no_fault aid v m (w : world) :
  w_faults w = [] ->
  fst (insert_embedding aid v m w) = Ok tt
  /\ w_faults (snd (insert_embedding aid v m w)) = [].
Proof.
  intros F. unfold insert_embedding, with_connection.
  rewrite execute_no_fault by exact F. simpl apply_statement. cbv iota.
  rewrite next_fault_nil by exact F. simpl. auto.
Qed.

Lemma store_pairs_no_fault (pairs : list (Z * vec)) : forall w,
  w_faults w = [] ->
  w_faults (snd (store_pairs pairs w)) = []
  /\ stored_pairs pairs w = pairs.
Proof.
  induction pairs as [|[aid v] r IH]; intros w F.
  - simpl. auto.
  - destruct (insert_embedding_no_fault aid v EMBEDDING_MODEL w F) as [R F1].
    destruct (IH _ F1) as [F2 S].
    split.
    + simpl store_pairs. unfold bind, try_except. exact F2.
    + unfold stored_pairs in *. simpl insert_outcomes. rewrite R.
      simpl. rewrite S. reflexivity.
Qed.

Lemma map_fst_combine {X Y} (xs : list X) : forall ys : list Y,
  List.length xs = List.length ys -> map fst (combine xs ys) = xs.
Proof.
  induction xs as [|x r IH]; intros [|y s] L; simpl in *;
    try reflexivity; try discriminate.
  rewrite IH; [reflexivity|lia].
Qed.

Lemma article_ids_of_rows (ps : list (Z * vec)) :
  map e_article_id (map row_of ps) = map fst ps.
Proof. rewrite map_map. reflexivity. Qed.

Lemma filter_length_map {X Y} (g : X -> Y) (h : Y -> bool) (l : list X) :
  List.length (filter (fun x => h (g x)) l) = List.length (filter h (map g l)).
Proof.
  induction l as [|x r IH]; simpl; [reflexivity|].
  destruct (h (g x)); simpl; rewrite IH; reflexivity.
Qed.

Lemma existsb_map {X Y} (g : X -> Y) (h : Y -> bool) (l : list X) :
  existsb (fun x => h (g x)) l = existsb h (map g l).
Proof.
  induction l as [|x r IH]; simpl; [reflexivity|]. rewrite IH. reflexivity.
Qed.

(** A call that meets no fault, with a model that answers every text. *)
Lemma generate_for_unprocessed_no_fault (w : world) :
  w_faults w = [] ->
  (forall texts, exists vs,
      encode texts = Ok vs /\ List.length vs = List.length texts) ->
  let sel := included (select_articles_without_embeddings 50 (w_db w)) in
  let x := generate_embeddings_for_unprocessed w in
  exists vs : list vec,
    List.length vs = List.length sel
    /\ fst x = Ok (List.length sel)
    /\ w_faults (snd x) = []
    /\ articles (w_db (snd x)) = articles (w_db w)
    /\ embeddings (w_db (snd x))
       = embeddings (w_db w) ++ map row_of (combine (map d_id sel) vs)
    /\ clusters (w_db (snd x)) = clusters (w_db w)
    /\ cluster_members (w_db (snd x)) = cluster_members (w_db w)
    /\ w_log (snd x)
       = w_log w ++ [SelectArticlesWithoutEmbeddings 50]
               ++ map insert_embedding_of (combine (map d_id sel) vs).
Proof.
  intros F Enc. cbv zeta.
  unfold generate_embeddings_for_unprocessed, bind.
  destruct (get_articles_without_embeddings_spec 50 w) as (_ & _ & _ & NF).
  rewrite (NF F). clear NF.
  set (w0 := record (SelectArticlesWithoutEmbeddings 50) w).
  remember (select_articles_without_embeddings 50 (w_db w)) as cands eqn:C.
  assert (Stop : included cands = [] ->
    exists vs : list vec,
      List.length vs = List.length (included cands)
      /\ fst (Ok 0%nat, w0) = Ok (List.length (included cands))
      /\ w_faults (snd (Ok 0%nat, w0)) = []
      /\ articles (w_db (snd (Ok 0%nat, w0))) = articles (w_db w)
      /\ embeddings (w_db (snd (Ok 0%nat, w0)))
         = embeddings (w_db w)
           ++ map row_of (combine (map d_id (included cands)) vs)
      /\ clusters (w_db (snd (Ok 0%nat, w0))) = clusters (w_db w)
      /\ cluster_members (w_db (snd (Ok 0%nat, w0))) = cluster_members (w_db w)
      /\ w_log (snd (Ok 0%nat, w0))
         = w_log w ++ [SelectArticlesWithoutEmbeddings 50]
             ++ map insert_embedding_of
                    (combine (map d_id (included cands)) vs)).
  { intros ->. exists []. simpl. rewrite !app_nil_r. auto 10. }
  destruct cands as [|c0 cs]; [apply Stop; reflexivity|].
  unfold lift. rewrite generate_embeddings_spec.
  remember (included (c0 :: cs)) as inc eqn:Inc.
  destruct (map embedding_text inc) as [|t ts] eqn:T.
  { apply Stop. apply map_eq_nil in T. exact T. }
  destruct (Enc (t :: ts)) as (vs & EncOk & Len). rewrite EncOk. simpl rbind.
  assert (LenInc : List.length vs = List.length inc).
  { rewrite Len, <- T, length_map. reflexivity. }
  destruct (map d_id inc) as [|i0 ids] eqn:I.
  { apply map_eq_nil in I. rewrite I in T. discriminate T. }
  unfold ret, store_embeddings.
  assert (F0 : w_faults w0 = []) by exact F.
  destruct (store_pairs_spec (combine (i0 :: ids) vs) w0)
    as (R1 & L1 & E1 & A1 & C1 & M1).
  destruct (store_pairs_no_fault (combine (i0 :: ids) vs) w0 F0) as [F1 S1].
  rewrite S1 in E1.
  destruct (store_pairs (combine (i0 :: ids) vs) w0) as [[[]|e] w2];
    simpl in R1, L1, E1, A1, C1, M1, F1; [|discriminate].
  exists vs. simpl fst. simpl snd.
  split; [exact LenInc|].
  split; [f_equal; rewrite <- (length_map d_id inc), I; reflexivity|].
  split; [exact F1|].
  split; [exact A1|]. split; [exact E1|]. split; [exact C1|].
  split; [exact M1|].
  rewrite L1. unfold w0. simpl. rewrite <- app_assoc. reflexivity.
Qed.

Lemma count_absent (ids : list Z) (aid : Z) :
  ~ In aid ids -> List.length (filter (fun i => Z.eqb i aid) ids) = 0%nat.
Proof.
  intros N. rewrite filter_none; [reflexivity|].
  intros x Hx. apply Z.eqb_neq. intros ->. exact (N Hx).
Qed.

(** With distinct ids, an article counts once among the selected ids. *)
Lemma count_selected (Q : article -> bool) (l : list article) :
  NoDup (map a_id l) ->
  forall a, In a l ->
    List.length (filter (fun i => Z.eqb i (a_id a)) (map a_id (filter Q l)))
    = if Q a then 1%nat else 0%nat.
Proof.
  induction l as [|y r IH]; intros N a Ha; [destruct Ha|].
  simpl in N. inversion N as [|? ? Ny Nr]; subst.
  assert (Sub : forall z, In z (map a_id (filter Q r)) -> In z (map a_id r)).
  { intros z Hz. apply (proj1 (in_map_iff _ _ _)) in Hz.
    destruct Hz as (b & <- & Hb). apply filter_In in Hb.
    apply in_map. tauto. }
  destruct Ha as [->|Ha].
  - simpl filter. destruct (Q a); simpl.
    + rewrite Z.eqb_refl. simpl. rewrite count_absent; [reflexivity|].
      intros H. exact (Ny (Sub _ H)).
    + apply count_absent. intros H. exact (Ny (Sub _ H)).
  - assert (Ne : a_id y <> a_id a).
    { intros E. apply Ny. rewrite E. apply in_map. exact Ha. }
    simpl filter. destruct (Q y); simpl.
    + apply Z.eqb_neq in Ne. rewrite Ne. apply IH; assumption.
    + apply IH; assumption.
Qed.

Lemma selected_ids (P : article -> bool) (l : list article) :
  map d_id (included (map to_article_dict (filter P l)))
  = map a_id (filter (fun a => P a && long_enough (to_article_dict a)) l).
Proof.
  unfold included. induction l as [|y r IH]; simpl; [reflexivity|].
  destruct (P y); simpl; [|exact IH].
  destruct (long_enough (to_article_dict y)); simpl; rewrite IH; reflexivity.
Qed.

Lemma count_without_embedding (aid : Z) (d : database) :
  has_embedding aid d = false -> embedding_count aid d = 0%nat.
Proof.
  intros H. unfold embedding_count. rewrite filter_none; [reflexivity|].
  intros e He. destruct (Z.eqb (e_article_id e) aid) eqn:E; [|reflexivity].
  assert (T : has_embedding aid d = true).
  { unfold has_embedding. apply existsb_exists. exists e. auto. }
  rewrite T in H. discriminate.
Qed.

(** C4, as the code has it: a call takes at most 50 articles.  When at
    most 50 articles lack an embedding row, the ids of [articles] are
    distinct, the store does not fail and the model returns one vector
    per text, then after a first call the second call embeds nothing: it
    returns 0, executes only its SELECT and leaves every table as the
    first call left it.  Every article that had no embedding row and whose
    normalized text has more than 50 characters then has exactly one row,
    a shorter one has none, and an article that had rows keeps just
    those. *)
Theorem reembedding_within_one_batch_is_idempotent (w : world) :
  w_faults w = [] ->
  NoDup (map a_id (articles (w_db w))) ->
  (List.length (unembedded (w_db w)) <= 50)%nat ->
  (forall texts, exists vs,
      encode texts = Ok vs /\ List.length vs = List.length texts) ->
  let w1 := snd (generate_embeddings_for_unprocessed w) in
  let x2 := generate_embeddings_for_unprocessed w1 in
  fst x2 = Ok 0%nat
  /\ w_db (snd x2) = w_db w1
  /\ w_log (snd x2) = w_log w1 ++ [SelectArticlesWithoutEmbeddings 50]
  /\ forall a, In a (articles (w_db w)) ->
       embedding_count (a_id a) (w_db (snd x2))
       = if has_embedding (a_id a) (w_db w)
         then embedding_count (a_id a) (w_db w)
         else if long_enough (to_article_dict a) then 1%nat else 0%nat.
Proof.
  intros F N Lim Enc. cbv zeta.
  destruct (generate_for_unprocessed_no_fault w F Enc)
    as (vs & Len & _ & F1 & A1 & E1 & C1 & M1 & _).
  cbv zeta in Len, F1, A1, E1, C1, M1.
  remember (snd (generate_embeddings_for_unprocessed w)) as w1 eqn:W1.
  remember (included (select_articles_without_embeddings 50 (w_db w)))
    as sel eqn:Sel.
  assert (Cands : select_articles_without_embeddings 50 (w_db w)
                  = map to_article_dict (unembedded (w_db w))).
  { unfold select_articles_without_embeddings. apply firstn_all2.
    rewrite length_map. exact Lim. }
  assert (Ids : map e_article_id (map row_of (combine (map d_id sel) vs))
                = map d_id sel).
  { rewrite article_ids_of_rows, map_fst_combine; [reflexivity|].
    rewrite length_map. symmetry. exact Len. }
  assert (HasA : forall aid,
             has_embedding aid (w_db w1)
             = has_embedding aid (w_db w)
               || existsb (fun i => Z.eqb i aid) (map d_id sel)).
  { intros aid. rewrite (has_embedding_app aid _ _ _ E1). f_equal.
    etransitivity;
      [exact (existsb_map e_article_id (fun i => Z.eqb i aid) _)|].
    rewrite Ids. reflexivity. }
  assert (Sel1 : included (select_articles_without_embeddings 50 (w_db w1)) = []).
  { unfold included. apply filter_none. intros x Hx.
    destruct (select_without_embedding _ _ _ Hx) as (No & a & Ha & ->).
    rewrite A1 in Ha. rewrite HasA in No.
    apply orb_false_iff in No. destruct No as [No0 NoIds].
    destruct (long_enough (to_article_dict a)) eqn:Long; [|reflexivity].
    exfalso.
    assert (InSel : In (to_article_dict a) sel).
    { rewrite Sel. unfold included. apply filter_In. split; [|exact Long].
      rewrite Cands. apply in_map. unfold unembedded. apply filter_In.
      split; [exact Ha|]. unfold without_embedding.
      simpl in No0. rewrite No0. reflexivity. }
    assert (T : existsb (fun i => Z.eqb i (d_id (to_article_dict a)))
                        (map d_id sel) = true).
    { apply existsb_exists. exists (d_id (to_article_dict a)).
      split; [apply in_map; exact InSel|apply Z.eqb_refl]. }
    rewrite T in NoIds. discriminate. }
  destruct (generate_for_unprocessed_no_fault w1 F1 Enc)
    as (vs2 & _ & R2 & _ & A2 & E2 & C2 & M2 & L2).
  cbv zeta in R2, A2, E2, C2, M2, L2. rewrite Sel1 in R2, E2, L2.
  simpl in R2, E2, L2. rewrite app_nil_r in E2.
  split; [exact R2|].
  split; [apply database_ext; assumption|].
  split; [exact L2|].
  intros a Ha. unfold embedding_count at 1.
  rewrite E2, E1, filter_app, length_app.
  rewrite (filter_length_map e_article_id (fun i => Z.eqb i (a_id a))
                             (map row_of (combine (map d_id sel) vs))).
  rewrite Ids, Sel, Cands. unfold unembedded. rewrite selected_ids.
  rewrite count_selected; [|exact N|exact Ha].
  fold (embedding_count (a_id a) (w_db w)).
  unfold without_embedding.
  destruct (has_embedding (a_id a) (w_db w)) eqn:H; simpl.
  - rewrite Nat.add_0_r. reflexivity.
  - rewrite (count_without_embedding _ _ H). reflexivity.
Qed.

End Idempotence.

Lemma reembedding_within_one_batch_is_idempotent_witness :
  let w := Toy.mk_world (Toy.fresh_db 3) [] in
  let w1 := snd (generate_embeddings_for_unprocessed w) in
  fst (generate_embeddings_for_unprocessed w) = Ok 3%nat
  /\ fst (generate_embeddings_for_unprocessed w1) = Ok 0%nat
  /\ embedding_count 2 (w_db (snd (generate_embeddings_for_unprocessed w1)))
     = 1%nat.
Proof.
  cbv zeta.
  assert (F : w_faults (Toy.mk_world (Toy.fresh_db 3) []) = []) by reflexivity.
  assert (N : NoDup (map a_id (articles (w_db (Toy.mk_world (Toy.fresh_db 3) []))))).
  { apply (NoDup_map_inv (fun z => Z.to_nat z)).
    vm_compute. apply (seq_NoDup 3 1). }
  assert (Lim : (List.length (unembedded (w_db (Toy.mk_world (Toy.fresh_db 3) [])))
                 <= 50)%nat) by (vm_compute; lia).
  assert (E : forall texts, exists vs,
             @encode Toy.backend texts = Ok vs
             /\ List.length vs = List.length texts).
  { intros texts. eexists. split; [reflexivity|]. apply length_map. }
  pose proof (reembedding_within_one_batch_is_idempotent
                (Toy.mk_world (Toy.fresh_db 3) []) F N Lim E) as H.
  cbv zeta in H. destruct H as (R & _ & _ & Count).
  split; [vm_compute; reflexivity|]. split; [exact R|].
  exact (Count (Toy.mk_article 2 (Toy.letters 60))
               (or_intror (or_introl eq_refl))).
Defined.

(** ** Dictionaries *)

Section DictFacts.
Variable V : Type.
Implicit Types (d : PyDict.t V) (k : Z) (v : V).

Lemma get_set_eq k v d : PyDict.get k (PyDict.set k v d) = Some v.
Proof.
  induction d as [|[k' v'] r IH]; simpl.
  - rewrite Z.eqb_refl. reflexivity.
  - destruct (Z.eqb k k') eqn:E; simpl.
    + rewrite Z.eqb_refl. reflexivity.
    + rewrite E. exact IH.
Qed.

Lemma get_set_neq k k' v d :
  k <> k' -> PyDict.get k' (PyDict.set k v d) = PyDict.get k' d.
Proof.
  intros Ne. induction d as [|[k0 v0] r IH]; simpl.
  - apply not_eq_sym in Ne. apply Z.eqb_neq in Ne. rewrite Ne. reflexivity.
  - destruct (Z.eqb k k0) eqn:E; simpl.
    + apply Z.eqb_eq in E. subst k0.
      apply not_eq_sym in Ne. apply Z.eqb_neq in Ne. rewrite Ne. reflexivity.
    + rewrite IH. reflexivity.
Qed.

Lemma get_In k v d : PyDict.get k d = Some v -> In (k, v) (PyDict.items d).
Proof.
  induction d as [|[k' v'] r IH]; simpl; [discriminate|].
  destruct (Z.eqb k k') eqn:E.
  - apply Z.eqb_eq in E. intros H. inversion H. subst. left. reflexivity.
  - intros H. right. exact (IH H).
Qed.

Lemma get_None_keys k d : PyDict.get k d = None -> ~ In k (PyDict.keys d).
Proof.
  induction d as [|[k' v'] r IH]; simpl; [tauto|].
  destruct (Z.eqb k k') eqn:E; [discriminate|].
  apply Z.eqb_neq in E. intros H [K|K]; [congruence|exact (IH H K)].
Qed.

Lemma keys_get k d : ~ In k (PyDict.keys d) -> PyDict.get k d = None.
Proof.
  induction d as [|[k' v'] r IH]; simpl; [reflexivity|].
  intros H. destruct (Z.eqb k k') eqn:E.
  - apply Z.eqb_eq in E. exfalso. apply H. left. congruence.
  - apply IH. tauto.
Qed.

Lemma keys_set k v d k' :
  In k' (PyDict.keys (PyDict.set k v d)) <-> k' = k \/ In k' (PyDict.keys d).
Proof.
  induction d as [|[k0 v0] r IH]; simpl.
  - intuition.
  - destruct (Z.eqb k k0) eqn:E; simpl.
    + apply Z.eqb_eq in E. subst k0. intuition.
    + rewrite IH. intuition.
Qed.

Lemma NoDup_keys_set k v d :
  NoDup (PyDict.keys d) -> NoDup (PyDict.keys (PyDict.set k v d)).
Proof.
  induction d as [|[k0 v0] r IH]; simpl; intros N.
  - constructor; [simpl; tauto|constructor].
  - inversion N as [|? ? N0 Nr]; subst.
    destruct (Z.eqb k k0) eqn:E; simpl.
    + apply Z.eqb_eq in E. subst k0. constructor; assumption.
    + constructor; [|apply IH; exact Nr].
      intros H. apply keys_set in H. destruct H as [H|H].
      * apply Z.eqb_neq in E. congruence.
      * exact (N0 H).
Qed.

End DictFacts.

Lemma NoDup_map_filter {X Y} (f : X -> Y) (P : X -> bool) (l : list X) :
  NoDup (map f l) -> NoDup (map f (filter P l)).
Proof.
  induction l as [|x r IH]; simpl; intros N; [constructor|].
  inversion N as [|? ? N0 Nr]; subst.
  destruct (P x); simpl; [|exact (IH Nr)].
  constructor; [|exact (IH Nr)].
  intros H. apply N0.
  apply (proj1 (in_map_iff _ _ _)) in H. destruct H as (y & E & Hy).
  apply filter_In in Hy. rewrite <- E. apply in_map. tauto.
Qed.

(** ** Grouping the articles by label *)

Section Grouping.
Context {B : MLBackend}.
Variable A : Type.

Lemma skipn_step (l : list A) : forall i,
  (skipn i l = [] /\ skipn (S i) l = [] /\ nth_error l i = None)
  \/ exists a, nth_error l i = Some a /\ skipn i l = a :: skipn (S i) l.
Proof.
  induction l as [|x r IH]; intros i.
  - left. destruct i; auto.
  - destruct i as [|i].
    + right. exists x. auto.
    + destruct (IH i) as [(E1 & E2 & E3)|(a & E1 & E2)].
      * left. auto.
      * right. exists a. auto.
Qed.

Lemma members_of_cons (a : A) (rest : list A) label labels c :
  members_of (a :: rest) (label :: labels) c
  = if Z.eqb label c then a :: members_of rest labels c
    else members_of rest labels c.
Proof.
  unfold members_of. simpl. destruct (Z.eqb label c); reflexivity.
Qed.

Lemma members_of_nil labels c : members_of (@nil A) labels c = [].
Proof. reflexivity. Qed.

(** The members a cluster has once the labels from position [i] on have
    been read: those it had, then its articles in order. *)
Lemma group_by_label_get (articles : list A) (cluster_labels : list Z) :
  forall i clusters clusters',
    group_by_label articles i cluster_labels clusters = Ok clusters' ->
    forall c, (0 <= c)%Z ->
      PyDict.get c clusters'
      = match PyDict.get c clusters with
        | Some ms => Some (ms ++ members_of (skipn i articles) cluster_labels c)
        | None =>
            if existsb (Z.eqb c) cluster_labels
            then Some (members_of (skipn i articles) cluster_labels c)
            else None
        end.
Proof.
  induction cluster_labels as [|label rest IH]; intros i cl cl' H c Hc.
  - simpl in H. inversion H. subst.
    destruct (skipn i articles); simpl;
      destruct (PyDict.get c cl'); try rewrite app_nil_r; reflexivity.
  - simpl in H. destruct (0 <=? label)%Z eqn:Pos.
    + set (cl1 := if PyDict.mem label cl then cl else PyDict.set label [] cl) in H.
      destruct (nth_error articles i) as [a|] eqn:Nth; [|discriminate].
      destruct (skipn_step articles i) as [(_ & _ & E)|(a' & E1 & E2)];
        [congruence|].
      assert (a' = a) by congruence. subst a'.
      assert (G1 : forall k, PyDict.get k cl1
                   = if Z.eqb label k
                     then match PyDict.get label cl with
                          | Some ms => Some ms
                          | None => Some []
                          end
                     else PyDict.get k cl).
      { intros k. unfold cl1, PyDict.mem.
        destruct (PyDict.get label cl) as [ms|] eqn:G;
          destruct (Z.eqb label k) eqn:E; try reflexivity.
        - apply Z.eqb_eq in E. subst k. exact G.
        - apply Z.eqb_eq in E. subst k. apply get_set_eq.
        - apply get_set_neq. apply Z.eqb_neq. exact E. }
      destruct (PyDict.get label cl1) as [members|] eqn:Gl; [|discriminate].
      rewrite (IH _ _ _ H c Hc). rewrite E2, members_of_cons. simpl existsb.
      rewrite (Z.eqb_sym c label).
      destruct (Z.eqb label c) eqn:E.
      * apply Z.eqb_eq in E. subst c. rewrite get_set_eq.
        rewrite G1, Z.eqb_refl in Gl.
        destruct (PyDict.get label cl) as [ms|]; inversion Gl; subst; simpl;
          rewrite <- ?app_assoc; reflexivity.
      * apply Z.eqb_neq in E. rewrite (get_set_neq _ _ E).
        rewrite G1. apply Z.eqb_neq in E. rewrite E. simpl. reflexivity.
    + rewrite (IH _ _ _ H c Hc).
      assert (E : Z.eqb label c = false).
      { apply Z.eqb_neq. apply Z.leb_gt in Pos. lia. }
      simpl existsb. rewrite (Z.eqb_sym c label), E. cbn [orb].
      destruct (skipn_step articles i) as [(E1 & E2 & _)|(a & _ & E2)].
      * rewrite E1, E2. reflexivity.
      * rewrite E2, members_of_cons, E. reflexivity.
Qed.

Lemma group_by_label_NoDup (articles : list A) (cluster_labels : list Z) :
  forall i clusters clusters',
    group_by_label articles i cluster_labels clusters = Ok clusters' ->
    NoDup (PyDict.keys clusters) -> NoDup (PyDict.keys clusters').
Proof.
  induction cluster_labels as [|label rest IH]; intros i cl cl' H N.
  - simpl in H. inversion H. subst. exact N.
  - simpl in H. destruct (0 <=? label)%Z.
    + destruct (nth_error articles i) as [a|]; [|discriminate].
      destruct (PyDict.get label _) as [members|]; [|discriminate].
      apply (IH _ _ _ H). apply NoDup_keys_set.
      destruct (PyDict.mem label cl); [exact N|apply NoDup_keys_set; exact N].
    + exact (IH _ _ _ H N).
Qed.

(** With an article for every label the first loop does not raise. *)
Lemma group_by_label_total (articles : list A) (cluster_labels : list Z) :
  forall i clusters,
    (i + List.length cluster_labels <= List.length articles)%nat ->
    exists clusters',
      group_by_label articles i cluster_labels clusters = Ok clusters'.
Proof.
  induction cluster_labels as [|label rest IH]; intros i cl Len.
  - exists cl. reflexivity.
  - simpl in Len. simpl. destruct (0 <=? label)%Z.
    + destruct (nth_error articles i) as [a|] eqn:Nth.
      * assert (G : exists members,
                  PyDict.get label
                    (if PyDict.mem label cl then cl else PyDict.set label [] cl)
                  = Some members).
        { unfold PyDict.mem. destruct (PyDict.get label cl) as [ms|] eqn:G.
          - exists ms. exact G.
          - exists []. apply get_set_eq. }
        destruct G as [members G]. rewrite G. apply IH. lia.
      * apply nth_error_None in Nth. lia.
    + apply IH. lia.
Qed.

End Grouping.

(** ** Labels *)

Section Labels.
Context {B : MLBackend}.
Context {A : Type} `{TitleText A}.

Lemma fold_label_step_other (l : list (Z * list A)) : forall d c,
  ~ In c (PyDict.keys l) ->
  PyDict.get c (fold_left label_step l d) = PyDict.get c d.
Proof.
  induction l as [|[k arts] r IH]; intros d c N; simpl; [reflexivity|].
  rewrite IH; [|intros K; apply N; right; exact K].
  apply get_set_neq. intros E. apply N. left. exact E.
Qed.

(** The second loop gives every cluster the label of its own members. *)
Lemma fold_label_step_get (l : list (Z * list A)) : forall d c arts,
  NoDup (PyDict.keys l) -> In (c, arts) l ->
  PyDict.get c (fold_left label_step l d)
  = Some (cluster_label c (map label_text arts)).
Proof.
  induction l as [|[k ar] r IH]; intros d c arts N I; [destruct I|].
  simpl in N. inversion N as [|? ? N0 Nr]; subst.
  destruct I as [E|I].
  - inversion E. subst. simpl.
    rewrite fold_label_step_other by exact N0. apply get_set_eq.
  - simpl. apply IH; assumption.
Qed.

Lemma pick_terms_no_positive (names : list string) (sums : list weight) :
  Forall (fun w => weight_pos w = false) sums ->
  forall indices,
    pick_terms names sums indices = Ok []
    \/ exists e, pick_terms names sums indices = Raise e.
Proof.
  intros F. induction indices as [|i r IH]; simpl; [left; reflexivity|].
  destruct (nth_error sums i) as [w|] eqn:N; [|right; eexists; reflexivity].
  apply nth_error_In in N.
  rewrite (proj1 (Forall_forall _ _) F w N). exact IH.
Qed.

Lemma cluster_label_when_fit_raises (c : Z) (texts : list string) (e : exn) :
  tfidf_fit_transform texts = Raise e ->
  cluster_label c texts = placeholder_label c.
Proof.
  intros E. unfold cluster_label, tfidf_label. rewrite E. simpl.
  destruct texts; reflexivity.
Qed.

Lemma cluster_label_when_no_weight (c : Z) (texts : list string)
      (names : list string) (sums : list weight) :
  tfidf_fit_transform texts = Ok (names, sums) ->
  Forall (fun w => weight_pos w = false) sums ->
  cluster_label c texts = placeholder_label c.
Proof.
  intros E F. unfold cluster_label, tfidf_label. rewrite E. simpl rbind.
  destruct (pick_terms_no_positive names F (rev (last_n 5 (argsort sums))))
    as [P|[e P]]; rewrite P; simpl; destruct texts; reflexivity.
Qed.


End Labels.


(** ** The tables after a full run *)

Section FullRun.
Context {B : MLBackend}.
Local Open Scope store_scope.

Lemma generate_cluster_labels_entry {A} `{TitleText A}
      (articles : list A) (cluster_labels : list Z) (d : PyDict.t string) :
  generate_cluster_labels articles cluster_labels = Ok d ->
  forall c, (0 <= c)%Z -> In c cluster_labels ->
    PyDict.get c d
    = Some (cluster_label
              c (map label_text (members_of articles cluster_labels c))).
Proof.
  unfold generate_cluster_labels. intros G c Pos In_c.
  destruct (group_by_label articles 0 cluster_labels PyDict.empty)
    as [clusters|e] eqn:GB; [|discriminate].
  simpl in G. inversion G. subst d. clear G.
  pose proof (group_by_label_get _ _ _ _ GB Pos) as Get. simpl in Get.
  assert (Ex : existsb (Z.eqb c) cluster_labels = true).
  { apply existsb_exists. exists c. split; [exact In_c|apply Z.eqb_refl]. }
  rewrite Ex in Get.
  apply fold_label_step_get.
  - apply (group_by_label_NoDup _ _ _ _ GB). constructor.
  - apply get_In. exact Get.
Qed.

Lemma fold_assign_values (P : Z -> Prop) (ps : list (Z * Z)) :
  (forall p, In p ps -> (0 <= snd p)%Z -> P (snd p)) ->
  forall d : PyDict.t Z,
    Forall (fun p => P (snd p)) d ->
    Forall (fun p => P (snd p)) (fold_left assign_step ps d).
Proof.
  induction ps as [|[aid lab] r IH]; intros Hp d F; simpl; [exact F|].
  apply IH; [intros p Hin; apply Hp; right; exact Hin|].
  destruct (0 <=? lab)%Z eqn:E; [|exact F].
  apply set_values; [|exact F].
  apply (Hp (aid, lab)); [left; reflexivity|simpl; lia].
Qed.

Lemma build_assignments_labels (article_ids cluster_labels : list Z) :
  Forall (fun p => In (snd p) cluster_labels)
         (PyDict.items (build_assignments article_ids cluster_labels)).
Proof.
  apply (fold_assign_values (fun v => In v cluster_labels)); [|constructor].
  intros [aid lab] Hin _. apply in_combine_r in Hin. exact Hin.
Qed.

Lemma fold_assign_NoDup (ps : list (Z * Z)) : forall d : PyDict.t Z,
  NoDup (PyDict.keys d) -> NoDup (PyDict.keys (fold_left assign_step ps d)).
Proof.
  induction ps as [|[aid lab] r IH]; intros d N; simpl; [exact N|].
  apply IH. destruct (0 <=? lab)%Z; [apply NoDup_keys_set|]; exact N.
Qed.


End FullRun.


(** ** Further facts about [preprocess_text] *)

Section TextFacts.
Import PyStr Regex.

(** The scan drops a whole tag: a ["<"], one or more characters other than
    [">"], and the [">"] that follows. *)
Lemma tag_body_covers (body rest : chars) :
  Forall (fun c => Ascii.eqb c gt_sign = false) body ->
  tag_body (body ++ gt_sign :: rest) = Some (S (List.length body)).
Proof.
  induction body as [|c r IH]; intros F; simpl.
  - reflexivity.
  - inversion F as [|? ? Hc Hr]; subst. rewrite Hc, (IH Hr). reflexivity.
Qed.

Lemma sub_tags_skips (dropped : chars) (last : ascii) (rest : chars) :
  sub_tags (S (List.length dropped)) (dropped ++ last :: rest)
  = sub_tags 0 rest.
Proof. induction dropped as [|c r IH]; simpl; [reflexivity|exact IH]. Qed.

Lemma remove_tags_drops_a_tag (c : ascii) (body rest : chars) :
  Forall (fun c => Ascii.eqb c gt_sign = false) (c :: body) ->
  remove_tags (lt_sign :: c :: body ++ gt_sign :: rest) = remove_tags rest.
Proof.
  intros F. unfold remove_tags.
  pose proof (tag_body_covers rest F) as T.
  inversion F as [|? ? Hc Hr]; subst.
  assert (L : tag_length (c :: body ++ gt_sign :: rest)
              = Some (S (List.length (c :: body)))).
  { unfold tag_length. rewrite Hc. exact T. }
  assert (U : sub_tags 0 (lt_sign :: c :: body ++ gt_sign :: rest)
              = match tag_length (c :: body ++ gt_sign :: rest) with
                | Some n => sub_tags n (c :: body ++ gt_sign :: rest)
                | None => lt_sign :: sub_tags 0 (c :: body ++ gt_sign :: rest)
                end) by reflexivity.
  rewrite U, L.
  exact (sub_tags_skips (c :: body) gt_sign rest).
Qed.

Lemma kept_lower_in_alphabet (c : ascii) :
  kept c = true -> in_output_alphabet (lower_char c) = true.
Proof.
  destruct c as [[] [] [] [] [] [] [] []]; vm_compute; intros H;
    first [reflexivity | discriminate H].
Qed.

Lemma preprocess_chars_alphabet (text : chars) :
  Forall (fun c => in_output_alphabet c = true) (preprocess_chars text).
Proof.
  unfold preprocess_chars. destruct text as [|c r]; [constructor|].
  unfold lower, remove_other. apply Forall_forall. intros x Hx.
  apply (proj1 (in_map_iff _ _ _)) in Hx. destruct Hx as (y & <- & Hy).
  apply filter_In in Hy. apply kept_lower_in_alphabet. tauto.
Qed.

End TextFacts.

(** ** Concrete runs *)

(** A replace whose third statement fails leaves the demo cluster in
    place; the same replace without a fault installs the new cluster. *)
Example update_clusters_rolls_back :
  let w := Toy.mk_world Toy.demo_db [false; false; true] in
  let x := update_clusters [(1, 0); (2, 0)]%Z [(0%Z, "Markets")] w in
  fst x = Raise OperationalError
  /\ w_db (snd x) = Toy.demo_db
  /\ w_log (snd x)
     = [DeleteClusterMembers; DeleteClusters; InsertCluster 0 "Markets"].
Proof. vm_compute. repeat split; reflexivity. Qed.

Example update_clusters_replaces :
  let w := Toy.mk_world Toy.demo_db [] in
  let x := update_clusters [(1, 0); (2, -1)]%Z [(0%Z, "Markets")] w in
  fst x = Ok tt
  /\ clusters (w_db (snd x)) = [{| c_cluster_id := 0; c_label := "Markets" |}]
  /\ cluster_members (w_db (snd x))
     = [{| m_cluster_id := 0; m_article_id := 1 |}].
Proof. vm_compute. repeat split; reflexivity. Qed.

(** The first insert of a batch of three fails; the two others go
    through, and article [1] is still returned by the query. *)
Example store_embeddings_after_a_failure :
  let w := Toy.mk_world (Toy.fresh_db 3) [true] in
  let x := store_embeddings (B := Toy.backend) [1; 2; 3]%Z [61; 61; 61]%Z w in
  fst x = Ok tt
  /\ map e_article_id (embeddings (w_db (snd x))) = [2; 3]%Z
  /\ map d_id (select_articles_without_embeddings 50 (w_db (snd x))) = [1%Z]
  /\ List.length (w_log (snd x)) = 3%nat.
Proof. vm_compute. repeat split; reflexivity. Qed.

(** * More of the code *)

(** ** Normalized texts: alphabet and length *)

Section NormalizedTexts.
Import PyStr Regex.

Lemma chars_of_string_of_chars (l : chars) :
  list_ascii_of_string (string_of_list_ascii l) = l.
Proof. apply list_ascii_of_string_of_list_ascii. Qed.

Lemma string_length_chars (s : string) :
  String.length s = List.length (list_ascii_of_string s).
Proof. induction s as [|c r IH]; simpl; [reflexivity|rewrite IH; reflexivity]. Qed.

Lemma string_length_append (a b : string) :
  String.length (a ++ b)%string = (String.length a + String.length b)%nat.
Proof. induction a as [|c r IH]; simpl; [reflexivity|rewrite IH; reflexivity]. Qed.

Lemma sub_tags_length (s : chars) : forall skip,
  (List.length (sub_tags skip s) <= List.length s)%nat.
Proof.
  induction s as [|c r IH]; intros skip; simpl; [lia|].
  destruct skip as [|k]; [|specialize (IH k); lia].
  destruct (Ascii.eqb c lt_sign).
  - destruct (tag_length r) as [n|]; [specialize (IH n); lia|].
    simpl. specialize (IH 0%nat). lia.
  - simpl. specialize (IH 0%nat). lia.
Qed.

Lemma sub_spaces_length (s : chars) : forall in_run,
  (List.length (sub_spaces in_run s) <= List.length s)%nat.
Proof.
  induction s as [|c r IH]; intros in_run; simpl; [lia|].
  destruct (is_space c).
  - destruct in_run; simpl; specialize (IH true); lia.
  - simpl. specialize (IH false). lia.
Qed.

Lemma lstrip_length (s : chars) :
  (List.length (lstrip s) <= List.length s)%nat.
Proof.
  induction s as [|c r IH]; simpl; [lia|].
  destruct (is_space c); simpl; lia.
Qed.

Lemma strip_length (s : chars) :
  (List.length (strip s) <= List.length s)%nat.
Proof.
  unfold strip, rstrip. rewrite length_rev.
  pose proof (lstrip_length (rev (lstrip s))) as H1.
  rewrite length_rev in H1. pose proof (lstrip_length s). lia.
Qed.

Lemma preprocess_chars_length (text : chars) :
  (List.length (preprocess_chars text) <= List.length text)%nat.
Proof.
  unfold preprocess_chars. destruct text as [|c r]; [simpl; lia|].
  unfold lower, remove_other, collapse_spaces, remove_tags.
  rewrite length_map.
  pose proof (filter_length_le kept (strip (sub_spaces false (sub_tags 0 (c :: r))))).
  pose proof (strip_length (sub_spaces false (sub_tags 0 (c :: r)))).
  pose proof (sub_spaces_length (sub_tags 0 (c :: r)) false).
  pose proof (sub_tags_length (c :: r) 0). lia.
Qed.

Lemma preprocess_text_length (text : string) :
  (String.length (preprocess_text text) <= String.length text)%nat.
Proof.
  unfold preprocess_text.
  rewrite !string_length_chars, chars_of_string_of_chars.
  apply preprocess_chars_length.
Qed.

Lemma prefix_length (n : nat) (s : string) :
  (String.length (prefix n s) <= n)%nat.
Proof.
  unfold prefix. rewrite string_length_chars, chars_of_string_of_chars.
  apply firstn_le_length.
Qed.


End NormalizedTexts.

Section TextBudget.
Context {B : MLBackend}.


End TextBudget.

(** ** [clean_article_text] *)

Section CleanArticleText.
Import PyStr Regex.

Lemma spaced_ok_weaken (s : chars) :
  spaced_ok true s = true -> spaced_ok false s = true.
Proof.
  destruct s as [|c r]; simpl; [reflexivity|].
  destruct (is_space c); [discriminate|auto].
Qed.

Lemma spaced_ok_prefix (a b : chars) : forall prev,
  spaced_ok prev (a ++ b) = true -> spaced_ok prev a = true.
Proof.
  induction a as [|c r IH]; intros prev H; simpl in *; [reflexivity|].
  destruct (is_space c).
  - apply andb_true_iff in H. destruct H as [H1 H2].
    rewrite H1. simpl. exact (IH _ H2).
  - exact (IH _ H).
Qed.

Lemma spaced_ok_suffix (a b : chars) : forall prev,
  spaced_ok prev (a ++ b) = true -> exists prev', spaced_ok prev' b = true.
Proof.
  induction a as [|c r IH]; intros prev H; simpl in *; [exists prev; exact H|].
  destruct (is_space c).
  - apply andb_true_iff in H. destruct H as [_ H2]. exact (IH _ H2).
  - exact (IH _ H).
Qed.

Lemma spaced_ok_no_run (s : chars) (prev : bool) :
  spaced_ok prev s = true -> no_space_run s.
Proof.
  intros H l1 c1 c2 l2 E S1 S2. subst s.
  apply spaced_ok_suffix in H. destruct H as [p H].
  simpl in H. rewrite S1, S2 in H.
  rewrite andb_false_r in H. simpl in H. discriminate H.
Qed.

Lemma sub_spaces_ok (s : chars) : forall in_run,
  spaced_ok in_run (sub_spaces in_run s) = true
  /\ Forall (fun c => is_space c = true -> c = blank) (sub_spaces in_run s).
Proof.
  induction s as [|c r IH]; intros in_run; simpl; [split; [reflexivity|constructor]|].
  destruct (is_space c) eqn:Sc.
  - destruct (IH true) as [O F]. destruct in_run.
    + split; assumption.
    + simpl. split; [exact O|]. constructor; [reflexivity|exact F].
  - destruct (IH false) as [O F]. simpl. rewrite Sc.
    split; [exact O|]. constructor; [|exact F].
    intros H. rewrite H in Sc. discriminate.
Qed.

(** [lstrip] cuts off a run of whitespace at the front. *)
Lemma lstrip_cut (s : chars) :
  exists front, s = front ++ lstrip s
                /\ forall c r, lstrip s = c :: r -> is_space c = false.
Proof.
  induction s as [|c r IH].
  - exists []. split; [reflexivity|]. intros c r H. discriminate H.
  - simpl. destruct (is_space c) eqn:Sc.
    + destruct IH as (front & E & H). exists (c :: front).
      split; [simpl; rewrite <- E; reflexivity|exact H].
    + exists []. split; [reflexivity|].
      intros c' r' H. inversion H. subst. exact Sc.
Qed.

(** [rstrip] cuts off a run of whitespace at the back. *)
Lemma rstrip_cut (s : chars) :
  exists back, s = rstrip s ++ back
               /\ forall l c, rstrip s = l ++ [c] -> is_space c = false.
Proof.
  unfold rstrip. destruct (lstrip_cut (rev s)) as (front & E & H).
  exists (rev front). split.
  - rewrite <- rev_app_distr, <- E, rev_involutive. reflexivity.
  - intros l c R. apply (f_equal (@rev ascii)) in R.
    rewrite rev_involutive, rev_app_distr in R. simpl in R.
    exact (H _ _ R).
Qed.

(** X3: what [clean_article_text] returns has no whitespace at either
    end, its only whitespace character is the plain space, no two spaces
    stand side by side, and it is not longer than the input. *)
Theorem clean_article_text_is_single_spaced (text : string) :
  let out := list_ascii_of_string (clean_article_text text) in
  Forall (fun c => is_space c = true -> c = blank) out
  /\ no_space_run out
  /\ (forall c r, out = c :: r -> is_space c = false)
  /\ (forall l c, out = l ++ [c] -> is_space c = false)
  /\ (List.length out <= String.length text)%nat.
Proof.
  cbv zeta. unfold clean_article_text.
  rewrite list_ascii_of_string_of_list_ascii, string_length_chars.
  generalize (list_ascii_of_string text). clear text. intros text.
  unfold clean_article_chars. destruct text as [|c0 r0].
  { repeat split; try constructor.
    - intros l1 c1 c2 l2 E. destruct l1; discriminate E.
    - intros c r E. discriminate E.
    - intros l c E. destruct l; discriminate E. }
  remember (collapse_spaces (remove_tags (c0 :: r0))) as x eqn:X.
  assert (Len : (List.length (strip x) <= List.length (c0 :: r0))%nat).
  { pose proof (strip_length x). rewrite X in *.
    unfold collapse_spaces, remove_tags in *.
    pose proof (sub_spaces_length (sub_tags 0 (c0 :: r0)) false).
    pose proof (sub_tags_length (c0 :: r0) 0). lia. }
  destruct (sub_spaces_ok (remove_tags (c0 :: r0)) false) as [O F].
  fold (collapse_spaces (remove_tags (c0 :: r0))) in O, F. rewrite <- X in O, F.
  unfold strip in *.
  destruct (lstrip_cut x) as (front & Ex & Hd).
  destruct (rstrip_cut (lstrip x)) as (back & Ey & Lt).
  set (y := lstrip x) in *. set (z := rstrip y) in *.
  assert (Exz : x = front ++ z ++ back) by (rewrite Ex at 1; rewrite Ey at 1; reflexivity).
  split; [|split; [|split; [|split; [exact Lt|exact Len]]]].
  - apply Forall_forall. intros c Hc.
    apply (proj1 (Forall_forall _ _) F). rewrite Exz.
    apply in_or_app. right. apply in_or_app. left. exact Hc.
  - rewrite Exz in O. apply spaced_ok_suffix in O. destruct O as [p O].
    apply spaced_ok_prefix in O. eapply spaced_ok_no_run. exact O.
  - intros c r Hz. apply (Hd c (r ++ back)). rewrite Ey, Hz. reflexivity.
Qed.

End CleanArticleText.

(** ** [generate_embeddings] without a usable text *)

Section NoUsableText.
Context {B : MLBackend}.

(** X4: when no article has a normalized text of more than 50
    characters, [generate_embeddings] returns two empty lists without
    calling the embedding model, so a model that would raise is
    harmless. *)
Theorem generate_embeddings_without_texts (articles : list article_dict) :
  (forall a, In a articles -> (String.length (embedding_text a) <= 50)%nat) ->
  generate_embeddings articles = Ok ([], [])
  /\ select_texts articles = ([], []).
Proof.
  intros Short.
  assert (E : included articles = []).
  { unfold included. apply filter_none. intros a Ha.
    unfold long_enough. apply Nat.ltb_ge. exact (Short a Ha). }
  rewrite generate_embeddings_spec, select_texts_spec, E. auto.
Qed.

End NoUsableText.

Lemma generate_embeddings_without_texts_witness :
  let articles := [ {| d_id := 7; d_title := "too short"; d_text := "" |} ] in
  (forall a, In a articles -> (String.length (embedding_text a) <= 50)%nat)
  /\ generate_embeddings (B := Toy.backend) articles = Ok ([], []).
Proof.
  cbv zeta.
  assert (S : forall a,
             In a [ {| d_id := 7; d_title := "too short"; d_text := "" |} ] ->
             (String.length (embedding_text a) <= 50)%nat).
  { intros a [<-|[]]. vm_compute. repeat constructor. }
  split; [exact S|].
  exact (proj1 (generate_embeddings_without_texts (B := Toy.backend) _ S)).
Defined.

(** ** The keys of the label dictionary *)

Section LabelKeys.
Context {B : MLBackend}.
Context {A : Type} `{TitleText A}.

Lemma group_by_label_keys (articles : list A) (cluster_labels : list Z) :
  forall i clusters clusters',
    group_by_label articles i cluster_labels clusters = Ok clusters' ->
    forall c, In c (PyDict.keys clusters')
              <-> In c (PyDict.keys clusters)
                  \/ ((0 <= c)%Z /\ In c cluster_labels).
Proof.
  induction cluster_labels as [|label rest IH]; intros i cl cl' G c.
  - simpl in G. inversion G. subst. simpl. tauto.
  - simpl in G. destruct (0 <=? label)%Z eqn:Pos.
    + destruct (nth_error articles i) as [a|]; [|discriminate].
      destruct (PyDict.get label _) as [members|]; [|discriminate].
      rewrite (IH _ _ _ G c). rewrite keys_set.
      apply Z.leb_le in Pos.
      assert (K : In c (PyDict.keys
                          (if PyDict.mem label cl then cl
                           else PyDict.set label [] cl))
                  <-> In c (PyDict.keys cl) \/ (c = label /\ PyDict.mem label cl = false)).
      { destruct (PyDict.mem label cl); [intuition congruence|].
        rewrite keys_set. intuition. }
      rewrite K. simpl. intuition (subst; auto).
    + rewrite (IH _ _ _ G c). apply Z.leb_gt in Pos. simpl.
      intuition (subst; lia).
Qed.

Lemma fold_label_step_keys (l : list (Z * list A)) : forall d c,
  In c (PyDict.keys (fold_left label_step l d))
  <-> In c (PyDict.keys d) \/ In c (PyDict.keys l).
Proof.
  induction l as [|[k arts] r IH]; intros d c; simpl; [tauto|].
  rewrite IH, keys_set. intuition.
Qed.

Lemma fold_label_step_NoDup (l : list (Z * list A)) : forall d,
  NoDup (PyDict.keys d) -> NoDup (PyDict.keys (fold_left label_step l d)).
Proof.
  induction l as [|[k arts] r IH]; intros d N; simpl; [exact N|].
  apply IH. apply NoDup_keys_set. exact N.
Qed.

(** X5: the dictionary [generate_cluster_labels] returns has one entry
    for every label that occurs and is not negative, and no other: noise
    gets no label, and no cluster id is listed twice. *)
Theorem label_dictionary_keys (articles : list A) (cluster_labels : list Z)
        (d : PyDict.t string) :
  generate_cluster_labels articles cluster_labels = Ok d ->
  NoDup (PyDict.keys d)
  /\ (forall c, In c (PyDict.keys d) <-> (0 <= c)%Z /\ In c cluster_labels)
  /\ (forall c, (c < 0)%Z -> PyDict.get c d = None)
  /\ (PyDict.len d <= List.length cluster_labels)%nat.
Proof.
  unfold generate_cluster_labels. intros G.
  destruct (group_by_label articles 0 cluster_labels PyDict.empty)
    as [clusters|e] eqn:GB; [|discriminate].
  simpl in G. inversion G. subst d. clear G.
  assert (N : NoDup (PyDict.keys (fold_left label_step (PyDict.items clusters)
                                            PyDict.empty))).
  { apply fold_label_step_NoDup. constructor. }
  assert (K : forall c,
             In c (PyDict.keys (fold_left label_step (PyDict.items clusters)
                                          PyDict.empty))
             <-> (0 <= c)%Z /\ In c cluster_labels).
  { intros c. rewrite fold_label_step_keys.
    unfold PyDict.items. rewrite (group_by_label_keys _ _ _ _ GB c).
    simpl. tauto. }
  split; [exact N|]. split; [exact K|]. split.
  - intros c Neg. apply keys_get. rewrite K. lia.
  - unfold PyDict.len. rewrite <- (length_map fst).
    apply NoDup_incl_length; [exact N|].
    intros c Hc. apply K in Hc. tauto.
Qed.

Lemma group_by_label_out_of_range (articles : list A) (cluster_labels : list Z) :
  forall i clusters j l,
    nth_error cluster_labels j = Some l -> (0 <= l)%Z ->
    (List.length articles <= i + j)%nat ->
    group_by_label articles i cluster_labels clusters = Raise IndexError.
Proof.
  induction cluster_labels as [|label rest IH]; intros i cl j l Nth Pos Len.
  - destruct j; discriminate Nth.
  - simpl. destruct j as [|j].
    + simpl in Nth. inversion Nth. subst label.
      apply Z.leb_le in Pos. rewrite Pos.
      assert (E : nth_error articles i = None).
      { apply nth_error_None. lia. }
      rewrite E. reflexivity.
    + simpl in Nth.
      assert (Next : forall cl', group_by_label articles (S i) rest cl'
                                 = Raise IndexError).
      { intros cl'. apply (IH (S i) cl' j l Nth Pos). lia. }
      destruct (0 <=? label)%Z; [|apply Next].
      destruct (nth_error articles i); [|reflexivity].
      destruct (PyDict.get label _); [apply Next|reflexivity].
Qed.

(** X6: a label that is not negative and stands at a position for which
    there is no article makes [generate_cluster_labels] raise
    [IndexError]: the first loop is outside the [try]. *)
Theorem label_without_article_raises (articles : list A)
        (cluster_labels : list Z) (j : nat) (l : Z) :
  nth_error cluster_labels j = Some l ->
  (0 <= l)%Z ->
  (List.length articles <= j)%nat ->
  generate_cluster_labels articles cluster_labels = Raise IndexError.
Proof.
  intros Nth Pos Len. unfold generate_cluster_labels.
  rewrite (group_by_label_out_of_range articles cluster_labels 0 PyDict.empty
                                       j Nth Pos Len).
  reflexivity.
Qed.

End LabelKeys.

Lemma label_dictionary_keys_witness :
  let articles :=
    [ {| d_id := 1; d_title := "markets rally"; d_text := "" |};
      {| d_id := 2; d_title := "markets fall"; d_text := "" |};
      {| d_id := 3; d_title := "storm warning"; d_text := "" |} ] in
  generate_cluster_labels (B := Toy.backend) articles [0; -1; 0]%Z
  = Ok [(0%Z, "Story")]
  /\ PyDict.get (-1) [(0%Z, "Story")] = None.
Proof.
  cbv zeta.
  assert (G : generate_cluster_labels (B := Toy.backend)
                [ {| d_id := 1; d_title := "markets rally"; d_text := "" |};
                  {| d_id := 2; d_title := "markets fall"; d_text := "" |};
                  {| d_id := 3; d_title := "storm warning"; d_text := "" |} ]
                [0; -1; 0]%Z
              = Ok [(0%Z, "Story")]) by (vm_compute; reflexivity).
  split; [exact G|].
  destruct (label_dictionary_keys _ _ G) as (_ & _ & Neg & _).
  apply Neg. lia.
Defined.

Lemma label_without_article_raises_witness :
  nth_error [-1; 0]%Z 1 = Some 0%Z
  /\ generate_cluster_labels
       (B := Toy.backend)
       [ {| d_id := 1; d_title := "markets rally"; d_text := "" |} ]
       [-1; 0]%Z
     = Raise IndexError.
Proof.
  assert (N : nth_error [-1; 0]%Z 1 = Some 0%Z) by reflexivity.
  split; [exact N|].
  eapply label_without_article_raises; [exact N|lia|simpl; lia].
Defined.

(** ** What a clustering run touches *)

Section RunTables.
Context {B : MLBackend}.
Local Open Scope store_scope.

(** A run that gets as far as the replace, step by step. *)
Lemma run_clustering_steps (w : world) (n : nat) :
  (MIN_CLUSTER_SIZE <= corpus_size (w_db w))%nat ->
  fst (run_clustering w) = Ok n ->
  let data := select_all_embeddings (w_db w) in
  let d' := w_db (snd (run_clustering w)) in
  exists labels dict,
    cluster_articles (map i_vector data) = Ok labels
    /\ generate_cluster_labels data labels = Ok dict
    /\ n = PyDict.len dict
    /\ clusters d' = map cluster_of (PyDict.items dict)
    /\ cluster_members d'
       = map member_of
             (filter nonneg_assignment
                     (PyDict.items
                        (build_assignments (map i_article_id data) labels))).
Proof.
  intros Big Run. cbv zeta. revert Run.
  unfold run_clustering, bind.
  destruct (get_all_embeddings_spec w) as (D & L & R & _).
  destruct (get_all_embeddings w) as [[data|e] w1] eqn:G; simpl in D, L, R;
    [|discriminate].
  assert (E : data = select_all_embeddings (w_db w)).
  { destruct R as [R|[e R]]; [inversion R; reflexivity|discriminate]. }
  unfold corpus_size in Big. rewrite <- E in *.
  destruct data as [|i0 r]; [simpl in Big; unfold MIN_CLUSTER_SIZE in Big; lia|].
  assert (T : (List.length (map i_vector (i0 :: r)) <? MIN_CLUSTER_SIZE)%nat
              = false).
  { apply Nat.ltb_ge. rewrite length_map. exact Big. }
  rewrite T. unfold lift.
  destruct (cluster_articles (map i_vector (i0 :: r))) as [labels|e];
    [|discriminate].
  destruct (generate_cluster_labels (i0 :: r) labels) as [dict|e] eqn:GL;
    [|discriminate].
  remember (build_assignments (map i_article_id (i0 :: r)) labels) as ca eqn:CA.
  destruct (update_clusters_outcome ca dict w1) as [(R1 & A1 & L1)|(e & R1 & _)];
    destruct (update_clusters ca dict w1) as [[[]|e'] w2];
    simpl in R1; try discriminate.
  simpl in A1. unfold ret. simpl. intros Run.
  destruct (apply_update_statements _ _ _ A1) as (_ & _ & Cl & Mem).
  exists labels, dict. inversion Run.
  split; [reflexivity|]. split; [exact GL|]. split; [reflexivity|].
  split; [exact Cl|]. rewrite Mem, CA. reflexivity.
Qed.

Lemma run_clustering_tables (w : world) :
  let x := run_clustering w in
  articles (w_db (snd x)) = articles (w_db w)
  /\ embeddings (w_db (snd x)) = embeddings (w_db w)
  /\ match fst x with
     | Ok _ => True
     | Raise _ => w_db (snd x) = w_db w
     end.
Proof.
  cbv zeta. unfold run_clustering, bind.
  destruct (get_all_embeddings_spec w) as (D & _ & _ & _).
  destruct (get_all_embeddings w) as [[data|e] w1]; simpl in D;
    [|simpl; rewrite D; auto].
  destruct data as [|i0 r]; [simpl; rewrite D; auto|].
  destruct (List.length (map i_vector (i0 :: r)) <? MIN_CLUSTER_SIZE)%nat;
    [simpl; rewrite D; auto|].
  unfold lift.
  destruct (cluster_articles (map i_vector (i0 :: r))) as [labels|e];
    [|simpl; rewrite D; auto].
  destruct (generate_cluster_labels (i0 :: r) labels) as [dict|e];
    [|simpl; rewrite D; auto].
  remember (build_assignments (map i_article_id (i0 :: r)) labels) as ca eqn:CA.
  destruct (update_clusters_outcome ca dict w1) as [(R1 & A1 & _)|(e & R1 & D1)];
    destruct (update_clusters ca dict w1) as [[[]|e'] w2];
    simpl in R1; try discriminate.
  - simpl in A1. unfold ret. simpl.
    destruct (apply_update_statements _ _ _ A1) as (Ar & Em & _ & _).
    rewrite Ar, Em, D. auto.
  - simpl in D1. simpl. rewrite D1, D. auto.
Qed.

(** X7: [run_clustering] never changes [articles] or [embeddings],
    whatever the models return and whichever store operation fails, and a
    run that raises leaves all four tables as they were. *)
Theorem run_clustering_keeps_the_corpus (w : world) :
  let x := run_clustering w in
  articles (w_db (snd x)) = articles (w_db w)
  /\ embeddings (w_db (snd x)) = embeddings (w_db w)
  /\ match fst x with
     | Ok _ => True
     | Raise _ => w_db (snd x) = w_db w
     end.
Proof. exact (run_clustering_tables w). Qed.

Lemma get_set_present {V} (k k' : Z) (v : V) (d : PyDict.t V) :
  PyDict.get k' d <> None -> PyDict.get k' (PyDict.set k v d) <> None.
Proof.
  intros P. destruct (Z.eq_dec k k') as [->|Ne].
  - rewrite get_set_eq. discriminate.
  - rewrite (get_set_neq _ _ Ne). exact P.
Qed.

Lemma fold_assign_present (ps : list (Z * Z)) : forall (d : PyDict.t Z) aid,
  PyDict.get aid d <> None ->
  PyDict.get aid (fold_left assign_step ps d) <> None.
Proof.
  induction ps as [|[a l] r IH]; intros d aid P; simpl; [exact P|].
  apply IH. destruct (0 <=? l)%Z; [apply get_set_present|]; exact P.
Qed.

Lemma fold_assign_sound (ps : list (Z * Z)) : forall (d : PyDict.t Z) aid cid,
  PyDict.get aid (fold_left assign_step ps d) = Some cid ->
  PyDict.get aid d = Some cid \/ (In (aid, cid) ps /\ (0 <= cid)%Z).
Proof.
  induction ps as [|[a l] r IH]; intros d aid cid G; simpl in *; [left; exact G|].
  destruct (IH _ _ _ G) as [G1|[I P]]; [|right; auto].
  destruct (0 <=? l)%Z eqn:Pos; [|left; exact G1].
  destruct (Z.eq_dec a aid) as [->|Ne].
  - rewrite get_set_eq in G1. inversion G1. subst.
    right. split; [left; reflexivity|apply Z.leb_le; exact Pos].
  - rewrite (get_set_neq _ _ Ne) in G1. left. exact G1.
Qed.

Lemma fold_assign_complete (ps : list (Z * Z)) : forall (d : PyDict.t Z) aid l,
  In (aid, l) ps -> (0 <= l)%Z ->
  PyDict.get aid (fold_left assign_step ps d) <> None.
Proof.
  induction ps as [|[a l0] r IH]; intros d aid l I P; [destruct I|].
  simpl. destruct I as [E|I].
  - inversion E. subst. apply Z.leb_le in P. rewrite P.
    apply fold_assign_present. rewrite get_set_eq. discriminate.
  - exact (IH _ _ _ I P).
Qed.

Lemma In_get {V} (d : PyDict.t V) (k : Z) (v : V) :
  NoDup (PyDict.keys d) -> In (k, v) (PyDict.items d) -> PyDict.get k d = Some v.
Proof.
  induction d as [|[k0 v0] r IH]; intros N I; [destruct I|].
  simpl in N. inversion N as [|? ? N0 Nr]; subst. simpl.
  destruct I as [E|I].
  - inversion E. subst. rewrite Z.eqb_refl. reflexivity.
  - destruct (Z.eqb k k0) eqn:E; [|exact (IH Nr I)].
    apply Z.eqb_eq in E. subst k0. exfalso. apply N0.
    apply (in_map fst) in I. exact I.
Qed.


End RunTables.


(** ** One call of [generate_embeddings_for_unprocessed], in general *)

Section OneBatch.
Context {B : MLBackend}.
Local Open Scope store_scope.

Lemma stored_pairs_length (pairs : list (Z * vec)) (w : world) :
  (List.length (stored_pairs pairs w) <= List.length pairs)%nat.
Proof.
  unfold stored_pairs. rewrite length_map.
  pose proof (filter_length_le snd (combine pairs (insert_outcomes pairs w))) as H.
  rewrite length_combine in H. lia.
Qed.

(** The size of a batch, and what a call that raises has done. *)
Lemma generate_for_unprocessed_bounds (w : world) :
  let x := generate_embeddings_for_unprocessed w in
  exists pairs : list (Z * vec),
    embeddings (w_db (snd x)) = embeddings (w_db w) ++ map row_of pairs
    /\ (List.length pairs <= 50)%nat
    /\ match fst x with
       | Ok n => (n <= 50)%nat
       | Raise _ => pairs = []
       end.
Proof.
  cbv zeta. unfold generate_embeddings_for_unprocessed, bind.
  destruct (get_articles_without_embeddings_spec 50 w) as (D & _ & R & _).
  assert (Same : forall (r : result nat) (w1 : world), w_db w1 = w_db w ->
    match r with Ok n => (n <= 50)%nat | Raise _ => True end ->
    exists pairs : list (Z * vec),
      embeddings (w_db (snd (r, w1))) = embeddings (w_db w) ++ map row_of pairs
      /\ (List.length pairs <= 50)%nat
      /\ match fst (r, w1) with
         | Ok n => (n <= 50)%nat
         | Raise _ => pairs = []
         end).
  { intros r w1 E Hr. exists []. simpl. rewrite E, app_nil_r.
    split; [reflexivity|]. split; [lia|]. destruct r; auto. }
  destruct (get_articles_without_embeddings 50 w) as [[cands|e] w1] eqn:G;
    simpl in D, R; [|apply (Same (Raise e) w1 D I)].
  assert (C : cands = select_articles_without_embeddings 50 (w_db w)).
  { destruct R as [R|[e R]]; [inversion R; reflexivity|discriminate]. }
  assert (LenC : (List.length cands <= 50)%nat).
  { rewrite C. unfold select_articles_without_embeddings.
    apply firstn_le_length. }
  destruct cands as [|c0 cs]; [apply (Same (Ok 0%nat) w1 D); simpl; lia|].
  unfold lift. rewrite generate_embeddings_spec.
  remember (included (c0 :: cs)) as inc eqn:Inc.
  assert (LenI : (List.length inc <= 50)%nat).
  { rewrite Inc. unfold included.
    pose proof (filter_length_le long_enough (c0 :: cs)). lia. }
  destruct (map embedding_text inc) as [|t ts] eqn:T;
    [apply (Same (Ok 0%nat) w1 D); simpl; lia|].
  destruct (encode (t :: ts)) as [vs|e]; simpl rbind;
    [|apply (Same (Raise e) w1 D I)].
  destruct (map d_id inc) as [|i0 ids] eqn:I0;
    [apply (Same (Ok 0%nat) w1 D); simpl; lia|].
  assert (LenIds : (List.length (i0 :: ids) <= 50)%nat).
  { rewrite <- I0, length_map. exact LenI. }
  unfold ret, store_embeddings.
  destruct (store_pairs_spec (combine (i0 :: ids) vs) w1)
    as (R1 & _ & E1 & _).
  pose proof (stored_pairs_length (combine (i0 :: ids) vs) w1) as LenS.
  rewrite length_combine in LenS.
  destruct (store_pairs (combine (i0 :: ids) vs) w1) as [[[]|e] w2];
    simpl in R1, E1; [|discriminate].
  exists (stored_pairs (combine (i0 :: ids) vs) w1). simpl fst. simpl snd.
  rewrite E1, D. split; [reflexivity|].
  pose proof (Nat.le_min_l (List.length (i0 :: ids)) (List.length vs)) as Min.
  split; [|exact LenIds].
  eapply Nat.le_trans; [exact LenS|]. eapply Nat.le_trans; [exact Min|exact LenIds].
Qed.

(** X9: one call of [generate_embeddings_for_unprocessed], whatever
    fails, only appends rows to [embeddings], at most 50 of them; every new
    row carries [EMBEDDING_MODEL] and the id of an article of the table
    that had no embedding row and whose normalized text has more than 50
    characters; the other tables stay as they are, the number returned is
    at most 50, and a call that raises has stored nothing. *)
Theorem one_batch_only_appends (w : world) :
  let x := generate_embeddings_for_unprocessed w in
  exists rows : list embedding_row,
    embeddings (w_db (snd x)) = embeddings (w_db w) ++ rows
    /\ (List.length rows <= 50)%nat
    /\ Forall (fun row =>
                 e_model_name row = EMBEDDING_MODEL
                 /\ has_embedding (e_article_id row) (w_db w) = false
                 /\ exists a, In a (articles (w_db w))
                              /\ a_id a = e_article_id row
                              /\ long_enough (to_article_dict a) = true)
              rows
    /\ articles (w_db (snd x)) = articles (w_db w)
    /\ clusters (w_db (snd x)) = clusters (w_db w)
    /\ cluster_members (w_db (snd x)) = cluster_members (w_db w)
    /\ match fst x with
       | Ok n => (n <= 50)%nat
       | Raise _ => rows = []
       end.
Proof.
  cbv zeta.
  destruct (generate_for_unprocessed_appends w) as (p1 & E1 & A & C & M' & P).
  destruct (generate_for_unprocessed_bounds w) as (p2 & E2 & L & R).
  cbv zeta in E1, A, C, M', E2, R.
  assert (Eq : map row_of p1 = map row_of p2).
  { rewrite E1 in E2. apply app_inv_head in E2. exact E2. }
  exists (map row_of p2).
  split; [exact E2|]. split; [rewrite length_map; exact L|].
  split; [|split; [exact A|split; [exact C|split; [exact M'|]]]].
  - rewrite <- Eq. apply Forall_forall. intros row Hrow.
    apply (proj1 (in_map_iff _ _ _)) in Hrow. destruct Hrow as (p & <- & Hp).
    destruct (P p Hp) as (x & Hx & Id & Long).
    destruct (select_without_embedding _ _ _ Hx) as (No & a & Ha & ->).
    simpl. split; [reflexivity|]. split; [rewrite <- Id; exact No|].
    exists a. auto.
  - destruct (fst (generate_embeddings_for_unprocessed w)); [exact R|].
    rewrite R. reflexivity.
Qed.

Lemma unprocessed_stuck (w : world) :
  (forall x, In x (select_articles_without_embeddings 50 (w_db w)) ->
             long_enough x = false) ->
  w_db (snd (generate_embeddings_for_unprocessed w)) = w_db w.
Proof.
  intros Short.
  destruct (generate_for_unprocessed_appends w) as (pairs & E & A & C & M' & P).
  cbv zeta in E, A, C, M'.
  assert (N : pairs = []).
  { destruct pairs as [|p r]; [reflexivity|].
    destruct (P p (or_introl eq_refl)) as (x & Hx & _ & Long).
    rewrite (Short x Hx) in Long. discriminate. }
  subst pairs. simpl in E. rewrite app_nil_r in E.
  apply database_ext; assumption.
Qed.

(** X10: the batch is always taken from the front of the table.  When the
    first 50 articles without an embedding all have a normalized text of
    at most 50 characters, no number of calls changes any table, whatever
    fails: an article further down is never embedded. *)
Theorem short_articles_block_the_queue (w : world) (n : nat) :
  (forall x, In x (select_articles_without_embeddings 50 (w_db w)) ->
             long_enough x = false) ->
  w_db (after_calls n w) = w_db w.
Proof.
  revert w. induction n as [|k IH]; intros w Short; [reflexivity|].
  simpl. pose proof (unprocessed_stuck w Short) as D.
  rewrite IH; [exact D|]. rewrite D. exact Short.
Qed.

End OneBatch.

Lemma short_articles_block_the_queue_witness :
  let w := Toy.mk_world starved_db [] in
  (forall x, In x (select_articles_without_embeddings 50 (w_db w)) ->
             long_enough x = false)
  /\ long_enough (to_article_dict (Toy.mk_article 51 (Toy.letters 60))) = true
  /\ In (Toy.mk_article 51 (Toy.letters 60)) (articles (w_db w))
  /\ embeddings (w_db (after_calls 3 w)) = [].
Proof.
  cbv zeta.
  assert (S : forall x,
             In x (select_articles_without_embeddings
                     50 (w_db (Toy.mk_world starved_db []))) ->
             long_enough x = false).
  { intros x Hx.
    assert (F : forallb (fun x => negb (long_enough x))
                        (select_articles_without_embeddings
                           50 (w_db (Toy.mk_world starved_db []))) = true)
      by (vm_compute; reflexivity).
    apply (proj1 (forallb_forall _ _) F) in Hx.
    destruct (long_enough x); [discriminate Hx|reflexivity]. }
  split; [exact S|]. split; [vm_compute; reflexivity|].
  split; [apply in_or_app; right; left; reflexivity|].
  rewrite (short_articles_block_the_queue (Toy.mk_world starved_db []) 3 S).
  reflexivity.
Defined.

(** ** Writes that cannot be refused *)

Section Writes.
Context {B : MLBackend}.
Local Open Scope store_scope.

(** X11: [embeddings] has no UNIQUE constraint.  With a store that does
    not fail, [insert_embedding] adds one row for the article whether or
    not it already has rows, under whatever model name, and changes the
    count of no other article; when it raises, nothing has changed. *)
Theorem insert_embedding_never_deduplicates
        (article_id : Z) (vector : vec) (model_name : string) (w : world) :
  let x := insert_embedding article_id vector model_name w in
  (w_faults w = [] ->
   fst x = Ok tt
   /\ embedding_count article_id (w_db (snd x))
      = S (embedding_count article_id (w_db w))
   /\ forall other, other <> article_id ->
        embedding_count other (w_db (snd x)) = embedding_count other (w_db w))
  /\ match fst x with
     | Ok _ =>
         embeddings (w_db (snd x))
         = embeddings (w_db w)
           ++ [{| e_article_id := article_id; e_vector := vector;
                  e_model_name := model_name |}]
     | Raise _ => w_db (snd x) = w_db w
     end.
Proof.
  cbv zeta. pose proof (insert_embedding_db article_id vector model_name w) as D.
  split.
  - intros F.
    destruct (insert_embedding_no_fault article_id vector model_name w F) as [R _].
    rewrite R in D. simpl in D. split; [exact R|].
    unfold embedding_count. rewrite D. simpl. rewrite !filter_app. simpl.
    rewrite Z.eqb_refl. split.
    + rewrite length_app. simpl. lia.
    + intros other Ne. rewrite !filter_app. simpl.
      apply not_eq_sym in Ne. apply Z.eqb_neq in Ne. rewrite Ne, app_nil_r.
      reflexivity.
  - destruct (fst (insert_embedding article_id vector model_name w));
      simpl in D; rewrite D; reflexivity.
Qed.

Lemma execute_all_no_fault (stmts : list statement) : forall w d,
  w_faults w = [] ->
  apply_all stmts (w_db w) = Ok d ->
  exists w', execute_all stmts w = (Ok tt, w')
             /\ w_db w' = d /\ w_faults w' = [].
Proof.
  induction stmts as [|s r IH]; intros w d F A.
  - simpl in A. inversion A. subst. exists w. auto.
  - simpl in A. unfold execute_all. simpl. unfold bind.
    rewrite (execute_no_fault s w F).
    destruct (apply_statement s (w_db w)) as [d1|e]; [|discriminate].
    simpl in A.
    destruct (IH (set_db d1 (record s w)) d F A) as (w' & E & D & F').
    exists w'. auto.
Qed.

Lemma has_cluster_after_insert (k k' : Z) (label : string) (d : database) :
  has_cluster k'
    {| articles := articles d; embeddings := embeddings d;
       clusters := clusters d ++ [{| c_cluster_id := k; c_label := label |}];
       cluster_members := cluster_members d |}
  = has_cluster k' d || Z.eqb k k'.
Proof.
  unfold has_cluster. simpl. rewrite existsb_app. simpl.
  rewrite orb_false_r. reflexivity.
Qed.

Lemma insert_clusters_succeed (l : list (Z * string)) : forall d,
  NoDup (map fst l) ->
  (forall k, In k (map fst l) -> has_cluster k d = false) ->
  exists d', apply_all (map insert_cluster_of l) d = Ok d'.
Proof.
  induction l as [|[k v] r IH]; intros d N Fresh; [exists d; reflexivity|].
  simpl in N. inversion N as [|? ? N0 Nr]; subst. simpl.
  rewrite (Fresh k (or_introl eq_refl)). simpl. apply IH; [exact Nr|].
  intros k' Hk'. rewrite has_cluster_after_insert.
  rewrite (Fresh k' (or_intror Hk')). simpl.
  apply Z.eqb_neq. intros ->. exact (N0 Hk').
Qed.

Lemma has_member_after_insert (c a c' a' : Z) (d : database) :
  has_member c' a'
    {| articles := articles d; embeddings := embeddings d;
       clusters := clusters d;
       cluster_members :=
         cluster_members d ++ [{| m_cluster_id := c; m_article_id := a |}] |}
  = has_member c' a' d || (Z.eqb c c' && Z.eqb a a').
Proof.
  unfold has_member. simpl. rewrite existsb_app. simpl.
  rewrite orb_false_r. reflexivity.
Qed.

Lemma insert_members_succeed (l : list (Z * Z)) : forall d,
  NoDup (map fst l) ->
  (forall p, In p l -> has_member (snd p) (fst p) d = false) ->
  exists d', apply_all (map insert_member_of l) d = Ok d'.
Proof.
  induction l as [|[a c] r IH]; intros d N Fresh; [exists d; reflexivity|].
  simpl in N. inversion N as [|? ? N0 Nr]; subst. simpl.
  pose proof (Fresh (a, c) (or_introl eq_refl)) as F0. simpl in F0.
  rewrite F0. simpl. apply IH; [exact Nr|].
  intros [a' c'] Hp. simpl. rewrite has_member_after_insert.
  pose proof (Fresh (a', c') (or_intror Hp)) as F1. simpl in F1.
  rewrite F1. simpl.
  assert (Ne : Z.eqb a a' = false).
  { apply Z.eqb_neq. intros ->. apply N0.
    apply (in_map fst) in Hp. exact Hp. }
  rewrite Ne. apply andb_false_r.
Qed.

Lemma update_clusters_no_fault
      (cluster_assignments : PyDict.t Z) (cluster_labels : PyDict.t string)
      (w : world) :
  w_faults w = [] ->
  NoDup (PyDict.keys cluster_assignments) ->
  NoDup (PyDict.keys cluster_labels) ->
  let x := update_clusters cluster_assignments cluster_labels w in
  fst x = Ok tt
  /\ w_faults (snd x) = []
  /\ articles (w_db (snd x)) = articles (w_db w)
  /\ embeddings (w_db (snd x)) = embeddings (w_db w)
  /\ clusters (w_db (snd x)) = map cluster_of (PyDict.items cluster_labels)
  /\ cluster_members (w_db (snd x))
     = map member_of
           (filter nonneg_assignment (PyDict.items cluster_assignments)).
Proof.
  intros F Na Nl. cbv zeta.
  set (d0 := {| articles := articles (w_db w); embeddings := embeddings (w_db w);
                clusters := []; cluster_members := [] |}).
  destruct (insert_clusters_succeed (PyDict.items cluster_labels) d0 Nl)
    as [d1 A1]; [reflexivity|].
  destruct (apply_insert_clusters _ _ A1) as (_ & _ & _ & M1).
  destruct (insert_members_succeed
              (filter nonneg_assignment (PyDict.items cluster_assignments)) d1)
    as [d2 A2].
  { apply (NoDup_map_filter fst). exact Na. }
  { intros p _. unfold has_member. rewrite M1. reflexivity. }
  assert (A : apply_all (update_statements cluster_assignments cluster_labels)
                        (w_db w) = Ok d2).
  { unfold update_statements. simpl. fold d0.
    rewrite apply_all_app, A1. simpl. exact A2. }
  destruct (execute_all_no_fault _ w F A) as (w1 & E & D & F1).
  assert (R : update_clusters cluster_assignments cluster_labels w = (Ok tt, w1)).
  { rewrite update_clusters_body. unfold with_connection.
    rewrite E, (next_fault_nil w1 F1). reflexivity. }
  rewrite R. simpl. rewrite D.
  destruct (apply_update_statements _ _ _ A) as (Ar & Em & Cl & Mem).
  auto 7.
Qed.


Lemma create_demo_clusters_body (article_ids : list Z) (w : world) :
  create_demo_clusters article_ids w
  = with_connection (execute_all (demo_statements article_ids)) w.
Proof.
  unfold create_demo_clusters, with_connection.
  match goal with
  | |- match ?b w with _ => _ end = match ?c w with _ => _ end =>
      assert (E : b w = c w)
  end.
  { unfold demo_statements, execute_all. simpl. unfold bind.
    destruct (execute (InsertCluster DEMO_CLUSTER_ID DEMO_CLUSTER_LABEL) w)
      as [[[]|e] w1]; [|reflexivity].
    rewrite for_each_map. reflexivity. }
  rewrite E. reflexivity.
Qed.

(** X13: [create_demo_clusters] is all or nothing and cannot be run
    twice.  When it returns normally the demo cluster and one membership
    per article id were added after the rows already there; when it
    raises, no table has changed; and it raises whenever a cluster with
    id 1 is already stored. *)
Theorem create_demo_clusters_runs_once (article_ids : list Z) (w : world) :
  let x := create_demo_clusters article_ids w in
  match fst x with
  | Ok _ =>
      has_cluster DEMO_CLUSTER_ID (w_db w) = false
      /\ articles (w_db (snd x)) = articles (w_db w)
      /\ embeddings (w_db (snd x)) = embeddings (w_db w)
      /\ clusters (w_db (snd x))
         = clusters (w_db w)
           ++ [{| c_cluster_id := DEMO_CLUSTER_ID;
                  c_label := DEMO_CLUSTER_LABEL |}]
      /\ cluster_members (w_db (snd x))
         = cluster_members (w_db w)
           ++ map (fun article_id =>
                     {| m_cluster_id := DEMO_CLUSTER_ID;
                        m_article_id := article_id |})
                  article_ids
  | Raise _ => w_db (snd x) = w_db w
  end.
Proof.
  cbv zeta. rewrite create_demo_clusters_body.
  destruct (with_connection_cases (execute_all (demo_statements article_ids)) w)
    as [([] & w1 & E & R & D)|(e & R & D)]; rewrite R; [|exact D].
  destruct (execute_all_ok _ _ E) as [A _]. rewrite D.
  unfold demo_statements in A. simpl in A.
  destruct (has_cluster DEMO_CLUSTER_ID (w_db w)); [discriminate A|].
  simpl in A. split; [reflexivity|].
  assert (M : map (InsertClusterMember DEMO_CLUSTER_ID) article_ids
              = map insert_member_of
                    (map (fun article_id => (article_id, DEMO_CLUSTER_ID))
                         article_ids)).
  { rewrite map_map. reflexivity. }
  rewrite M in A.
  destruct (apply_insert_members _ _ A) as (Ar & Em & Cl & Me).
  simpl in Ar, Em, Cl, Me. rewrite Ar, Em, Cl, Me, map_map. auto.
Qed.

End Writes.

Lemma insert_embedding_never_deduplicates_witness :
  let w := Toy.mk_world Toy.other_model_db [] in
  w_faults w = []
  /\ embedding_count 1 (w_db w) = 1%nat
  /\ embedding_count
       1 (w_db (snd (insert_embedding (B := Toy.backend)
                                      1 61%Z EMBEDDING_MODEL w)))
     = 2%nat.
Proof.
  cbv zeta.
  assert (F : w_faults (Toy.mk_world Toy.other_model_db []) = []) by reflexivity.
  split; [exact F|]. split; [reflexivity|].
  destruct (insert_embedding_never_deduplicates
              (B := Toy.backend) 1 61%Z EMBEDDING_MODEL
              (Toy.mk_world Toy.other_model_db [])) as [H _].
  destruct (H F) as (_ & C & _). exact C.
Defined.


(** ** The rows a clustering run reads *)

Section CorpusRows.
Context {B : MLBackend}.

Lemma published_before_asym (x y : option Z) :
  published_before x y = true -> published_before y x = false.
Proof.
  destruct x as [p|], y as [q|]; simpl; try reflexivity; try discriminate.
  intros H. apply Z.ltb_lt in H. apply Z.ltb_ge. lia.
Qed.

Lemma insert_desc_perm (x : embedding_dict) (l : list embedding_dict) :
  Permutation (insert_desc x l) (x :: l).
Proof.
  induction l as [|y r IH]; simpl; [apply Permutation_refl|].
  destruct (published_before (i_published_at x) (i_published_at y)).
  - apply perm_trans with (y :: x :: r); [|apply perm_swap].
    apply perm_skip. exact IH.
  - apply Permutation_refl.
Qed.

Lemma order_by_published_desc_perm (l : list embedding_dict) :
  Permutation (order_by_published_desc l) l.
Proof.
  unfold order_by_published_desc. induction l as [|x r IH]; simpl.
  - apply Permutation_refl.
  - apply perm_trans with (x :: fold_right insert_desc [] r).
    + apply insert_desc_perm.
    + apply perm_skip. exact IH.
Qed.

Lemma insert_desc_head (x y : embedding_dict) (l : list embedding_dict) :
  not_older y x -> HdRel not_older y l -> HdRel not_older y (insert_desc x l).
Proof.
  intros Yx H. destruct l as [|z r]; simpl; [constructor; exact Yx|].
  destruct (published_before (i_published_at x) (i_published_at z)).
  - inversion H. subst. constructor. assumption.
  - constructor. exact Yx.
Qed.

Lemma insert_desc_sorted (x : embedding_dict) (l : list embedding_dict) :
  Sorted not_older l -> Sorted not_older (insert_desc x l).
Proof.
  induction l as [|y r IH]; intros S; simpl.
  - constructor; constructor.
  - inversion S as [|? ? Sr Hr]; subst.
    destruct (published_before (i_published_at x) (i_published_at y)) eqn:E.
    + constructor; [exact (IH Sr)|].
      apply insert_desc_head; [|exact Hr].
      unfold not_older. apply published_before_asym. exact E.
    + constructor; [exact S|]. constructor. exact E.
Qed.

Lemma order_by_published_desc_sorted (l : list embedding_dict) :
  Sorted not_older (order_by_published_desc l).
Proof.
  unfold order_by_published_desc. induction l as [|x r IH]; simpl.
  - constructor.
  - apply insert_desc_sorted. exact IH.
Qed.

(** X14: [get_all_embeddings] reads an inner join in publication order.
    Its rows are the pairs of an embedding row and an article with the
    same id, each pair once: an embedding whose article is missing gives no
    row, an article without embedding gives none, and an article with two
    embedding rows gives two.  No row is older than the row after it, rows
    without a publication time coming last. *)
Theorem corpus_rows_are_the_ordered_join (d : database) :
  Permutation (select_all_embeddings d)
              (flat_map (fun e =>
                           map (joined_row e)
                               (filter (fun a => Z.eqb (e_article_id e) (a_id a))
                                       (articles d)))
                        (embeddings d))
  /\ Sorted not_older (select_all_embeddings d)
  /\ (forall item,
        In item (select_all_embeddings d)
        <-> exists e a, In e (embeddings d) /\ In a (articles d)
                        /\ e_article_id e = a_id a /\ item = joined_row e a)
  /\ (NoDup (map a_id (articles d)) ->
      (corpus_size d <= List.length (embeddings d))%nat).
Proof.
  assert (P : Permutation (select_all_embeddings d)
                          (flat_map (join_articles d) (embeddings d))).
  { unfold select_all_embeddings. apply order_by_published_desc_perm. }
  split; [exact P|].
  split; [unfold select_all_embeddings; apply order_by_published_desc_sorted|].
  split.
  - intros item. split.
    + intros H. apply (Permutation_in _ P) in H.
      apply in_flat_map in H. destruct H as (e & He & Hj).
      unfold join_articles in Hj.
      apply (proj1 (in_map_iff _ _ _)) in Hj. destruct Hj as (a & <- & Ha).
      apply filter_In in Ha. destruct Ha as [Ha Eq]. apply Z.eqb_eq in Eq.
      exists e, a. auto.
    + intros (e & a & He & Ha & Eq & ->).
      apply (Permutation_in _ (Permutation_sym P)).
      apply in_flat_map. exists e. split; [exact He|].
      unfold join_articles.
      apply (in_map (joined_row e)). apply filter_In.
      split; [exact Ha|apply Z.eqb_eq; exact Eq].
  - intros N. unfold corpus_size. rewrite (Permutation_length P).
    clear P. induction (embeddings d) as [|e r IH]; simpl; [lia|].
    rewrite length_app. unfold join_articles at 1. rewrite length_map.
    assert (One : (List.length (filter (fun a => Z.eqb (e_article_id e) (a_id a))
                                       (articles d)) <= 1)%nat).
    { clear IH. induction (articles d) as [|a l IHl]; simpl; [lia|].
      simpl in N. inversion N as [|? ? N0 Nl]; subst.
      destruct (Z.eqb (e_article_id e) (a_id a)) eqn:E; [|exact (IHl Nl)].
      simpl. apply Z.eqb_eq in E.
      rewrite filter_none; [simpl; lia|].
      intros b Hb. apply Z.eqb_neq. intros Eb. apply N0.
      rewrite <- E, Eb. apply in_map. exact Hb. }
    lia.
Qed.

End CorpusRows.

Lemma corpus_rows_are_the_ordered_join_witness :
  NoDup (map a_id (articles Toy.four_db))
  /\ map i_article_id (select_all_embeddings Toy.four_db) = [4; 3; 2; 1]%Z
  /\ (corpus_size Toy.four_db <= 4)%nat.
Proof.
  assert (N : NoDup (map a_id (articles Toy.four_db))).
  { apply (NoDup_map_inv (fun z => Z.to_nat z)).
    vm_compute. apply (seq_NoDup 4 1). }
  split; [exact N|]. split; [vm_compute; reflexivity|].
  destruct (corpus_rows_are_the_ordered_join Toy.four_db) as (_ & _ & _ & L).
  exact (L N).
Defined.

(** ** [main]: embed, then cluster *)

Section Main.
Context {B : MLBackend}.
Local Open Scope store_scope.

(** X15: [main] embeds and then clusters.  Whatever fails, it leaves
    [articles] as it is and keeps every embedding row, adding at most 50
    behind them; when the embedding step raises, [main] raises the same
    exception, no table has changed and the clustering step has executed
    no statement. *)
Theorem main_embeds_then_clusters (w : world) :
  let x := main w in
  let first := generate_embeddings_for_unprocessed w in
  articles (w_db (snd x)) = articles (w_db w)
  /\ (exists rows, embeddings (w_db (snd x)) = embeddings (w_db w) ++ rows
                   /\ (List.length rows <= 50)%nat)
  /\ match fst first with
     | Ok _ => True
     | Raise e =>
         fst x = Raise e /\ w_db (snd x) = w_db w
         /\ w_log (snd x) = w_log (snd first)
     end.
Proof.
  cbv zeta. unfold main, bind.
  destruct (generate_for_unprocessed_appends w) as (p1 & E1 & A & C & M' & _).
  destruct (generate_for_unprocessed_bounds w) as (p2 & E2 & L & R).
  cbv zeta in E1, A, C, M', E2, R.
  destruct (generate_embeddings_for_unprocessed w) as [[n|e] w1];
    simpl in E1, A, C, M', E2, R; simpl fst.
  - destruct (run_clustering_tables w1) as (Ar & Em & _).
    destruct (run_clustering w1) as [[k|e] w2]; simpl in Ar, Em; simpl;
      (split; [rewrite Ar; exact A|]);
      (split; [|exact I]);
      exists (map row_of p2); rewrite Em, length_map; auto.
  - subst p2. simpl in E2. rewrite app_nil_r in E2. simpl.
    split; [exact A|].
    split; [exists []; rewrite app_nil_r; split; [exact E2|simpl; lia]|].
    split; [reflexivity|]. split; [|reflexivity].
    apply database_ext; assumption.
Qed.

End Main.

(** ** Article bodies do not reach the clustering run *)

Section Bodies.
Context {B : MLBackend}.
Local Open Scope store_scope.

Lemma blind_ret {A} (a : A) : blind (ret a).
Proof. intros w w' Ag. simpl. auto. Qed.

Lemma blind_lift {A} (r : result A) : blind (lift r).
Proof. intros w w' Ag. simpl. auto. Qed.

Lemma blind_bind {A C} (m : M A) (f : A -> M C) :
  blind m -> (forall a, blind (f a)) -> blind (bind m f).
Proof.
  intros Hm Hf w w' Ag. unfold bind.
  destruct (Hm w w' Ag) as [R Ag1].
  destruct (m w) as [[a|e] w1], (m w') as [[a'|e'] w1']; simpl in R, Ag1;
    try discriminate.
  - inversion R. subst. exact (Hf a' w1 w1' Ag1).
  - inversion R. subst. simpl. auto.
Qed.

Lemma blind_for_each {A} (xs : list A) (body : A -> M unit) :
  (forall x, blind (body x)) -> blind (for_each xs body).
Proof.
  intros Hb. induction xs as [|x r IH]; simpl.
  - apply blind_ret.
  - apply blind_bind; [apply Hb|intros _; exact IH].
Qed.

Lemma agree_next_fault (w w' : world) :
  agree w w' ->
  fst (next_fault w) = fst (next_fault w')
  /\ agree (snd (next_fault w)) (snd (next_fault w')).
Proof.
  intros (D & F & L). unfold next_fault.
  destruct w as [d fs lg], w' as [d' fs' lg']. simpl in D, F, L. subst fs' lg'.
  destruct fs as [|f fs]; simpl; unfold agree; simpl; auto.
Qed.

Lemma apply_statement_same (s : statement) (d d' : database) :
  same_but_text d d' ->
  match apply_statement s d, apply_statement s d' with
  | Ok a, Ok a' => same_but_text a a'
  | Raise e, Raise e' => e = e'
  | _, _ => False
  end.
Proof.
  intros (A & E & C & M'). unfold same_but_text.
  destruct s; simpl; unfold has_cluster, has_member;
    rewrite ?C, ?M', ?E;
    try match goal with
        | |- context [existsb ?f ?l] => destruct (existsb f l)
        end;
    simpl; rewrite ?C, ?M', ?E; auto.
Qed.

Lemma blind_execute (s : statement) : blind (execute s).
Proof.
  intros w w' Ag. unfold execute.
  assert (Ag0 : agree (record s w) (record s w')).
  { destruct Ag as (D & F & L). unfold agree, record. simpl.
    rewrite L. auto. }
  destruct (agree_next_fault Ag0) as [Ff Ag1].
  destruct (next_fault (record s w)) as [f w1],
           (next_fault (record s w')) as [f' w1']; simpl in Ff, Ag1. subst f'.
  destruct f; [simpl; auto|].
  pose proof (apply_statement_same s (proj1 Ag1)) as H.
  destruct (apply_statement s (w_db w1)) as [a|e],
           (apply_statement s (w_db w1')) as [a'|e']; try contradiction.
  - simpl. split; [reflexivity|].
    destruct Ag1 as (_ & F & L). unfold agree, set_db. simpl. auto.
  - subst e'. simpl. auto.
Qed.

Lemma blind_with_connection {A} (body : M A) :
  blind body -> blind (with_connection body).
Proof.
  intros Hb w w' Ag. unfold with_connection.
  destruct (Hb w w' Ag) as [R Ag1].
  assert (Back : forall v v', agree v v' ->
                              agree (set_db (w_db w) v) (set_db (w_db w') v')).
  { intros v v' (_ & F & L). destruct Ag as (D & _ & _).
    unfold agree, set_db. simpl. auto. }
  destruct (body w) as [[a|e] w1], (body w') as [[a'|e'] w1'];
    simpl in R, Ag1; try discriminate.
  - inversion R. subst a'.
    destruct (agree_next_fault Ag1) as [Ff Ag2].
    destruct (next_fault w1) as [f w2], (next_fault w1') as [f' w2'];
      simpl in Ff, Ag2. subst f'.
    destruct f; simpl; auto.
  - inversion R. subst e'. simpl. auto.
Qed.

Lemma joined_rows_same (e : embedding_row) (l : list article) :
  forall l', map forget_text l = map forget_text l' ->
    map (joined_row e) (filter (fun a => Z.eqb (e_article_id e) (a_id a)) l)
    = map (joined_row e) (filter (fun a => Z.eqb (e_article_id e) (a_id a)) l').
Proof.
  induction l as [|a r IH]; intros [|a' r'] H; simpl in H; try discriminate;
    [reflexivity|].
  inversion H as [[Hid Hout Hpub Htitle Hrest]].
  simpl. rewrite Hid.
  destruct (Z.eqb (e_article_id e) (a_id a')); simpl; rewrite (IH _ Hrest);
    [|reflexivity].
  unfold joined_row. rewrite Hout, Hpub, Htitle. reflexivity.
Qed.

Lemma select_all_embeddings_same (d d' : database) :
  same_but_text d d' -> select_all_embeddings d = select_all_embeddings d'.
Proof.
  intros (A & E & _ & _). unfold select_all_embeddings. f_equal.
  rewrite <- E. clear E.
  induction (embeddings d) as [|e r IH]; simpl; [reflexivity|].
  assert (J : join_articles d e = join_articles d' e)
    by exact (joined_rows_same e _ _ A).
  rewrite IH, J. reflexivity.
Qed.

Lemma blind_get_all_embeddings : blind get_all_embeddings.
Proof.
  unfold get_all_embeddings. apply blind_with_connection.
  unfold query. apply blind_bind; [apply blind_execute|].
  intros _ w w' Ag. simpl.
  rewrite (select_all_embeddings_same (proj1 Ag)). auto.
Qed.

Lemma blind_update_clusters (ca : PyDict.t Z) (cl : PyDict.t string) :
  blind (update_clusters ca cl).
Proof.
  unfold update_clusters. apply blind_with_connection.
  apply blind_bind; [apply blind_execute|intros _].
  apply blind_bind; [apply blind_execute|intros _].
  apply blind_bind.
  - apply blind_for_each. intros [k v]. apply blind_execute.
  - intros _. apply blind_for_each. intros [a c].
    destruct (0 <=? c)%Z; [apply blind_execute|apply blind_ret].
Qed.

Lemma blind_run_clustering : blind run_clustering.
Proof.
  unfold run_clustering. apply blind_bind; [apply blind_get_all_embeddings|].
  intros data. destruct data as [|i0 r]; [apply blind_ret|].
  destruct (List.length (map i_vector (i0 :: r)) <? MIN_CLUSTER_SIZE)%nat;
    [apply blind_ret|].
  apply blind_bind; [apply blind_lift|intros labels].
  apply blind_bind; [apply blind_lift|intros dict].
  apply blind_bind; [apply blind_update_clusters|intros _].
  apply blind_ret.
Qed.

(** X16: a clustering run never reads the body of an article: the rows
    of [get_all_embeddings] have no ['text'], so a label is made of titles
    alone.  Two stores that differ only in the [text] of their articles,
    run with the same models and the same faults, return the same value,
    execute the same statements and end with the same [clusters] and
    [cluster_members]. *)
Theorem run_clustering_ignores_article_bodies (w w' : world) :
  agree w w' ->
  fst (run_clustering w) = fst (run_clustering w')
  /\ clusters (w_db (snd (run_clustering w)))
     = clusters (w_db (snd (run_clustering w')))
  /\ cluster_members (w_db (snd (run_clustering w)))
     = cluster_members (w_db (snd (run_clustering w')))
  /\ w_log (snd (run_clustering w)) = w_log (snd (run_clustering w'))
  /\ forall item : embedding_dict,
       label_text item = preprocess_text (i_title item ++ " ")%string.
Proof.
  intros Ag. destruct (blind_run_clustering Ag) as [R ((_ & _ & C & M') & _ & L)].
  split; [exact R|]. split; [exact C|]. split; [exact M'|]. split; [exact L|].
  intros item. reflexivity.
Qed.

End Bodies.

Lemma run_clustering_ignores_article_bodies_witness :
  agree (Toy.mk_world Toy.four_db []) (Toy.mk_world four_db_rewritten [])
  /\ clusters (w_db (snd (run_clustering (Toy.mk_world four_db_rewritten []))))
     = [{| c_cluster_id := 0; c_label := "Story" |}].
Proof.
  assert (Ag : agree (Toy.mk_world Toy.four_db [])
                     (Toy.mk_world four_db_rewritten [])).
  { unfold agree, same_but_text. simpl. repeat split; reflexivity. }
  split; [exact Ag|].
  destruct (run_clustering_ignores_article_bodies Ag) as (_ & C & _).
  rewrite <- C. vm_compute. reflexivity.
Defined.

(** ** Ids without a vector, and what the count returned counts *)

Section Counts.
Context {B : MLBackend}.
Local Open Scope store_scope.

Lemma map_fst_combine_firstn {X Y} (xs : list X) : forall ys : list Y,
  map fst (combine xs ys) = firstn (List.length ys) xs.
Proof.
  induction xs as [|x r IH]; intros [|y s]; simpl; try reflexivity.
  rewrite IH. reflexivity.
Qed.

(** X17: [store_embeddings] pairs ids with vectors by position and stops
    at the shorter list.  With a store that does not fail, the rows added
    are those of the first ids, as many as there are vectors; an id beyond
    the last vector gets no row and no error is raised for it. *)
Theorem store_embeddings_stops_at_the_shorter_list
        (article_ids : list Z) (embeddings_ : list vec) (w : world) :
  w_faults w = [] ->
  let w' := snd (store_embeddings article_ids embeddings_ w) in
  fst (store_embeddings article_ids embeddings_ w) = Ok tt
  /\ embeddings (w_db w')
     = embeddings (w_db w) ++ map row_of (combine article_ids embeddings_)
  /\ map e_article_id (map row_of (combine article_ids embeddings_))
     = firstn (List.length embeddings_) article_ids
  /\ forall aid,
       ~ In aid (firstn (List.length embeddings_) article_ids) ->
       embedding_count aid (w_db w') = embedding_count aid (w_db w).
Proof.
  intros F. cbv zeta. unfold store_embeddings.
  destruct (store_pairs_spec (combine article_ids embeddings_) w)
    as (R & _ & E & _).
  destruct (store_pairs_no_fault (combine article_ids embeddings_) w F) as [_ S].
  rewrite S in E.
  assert (Ids : map e_article_id (map row_of (combine article_ids embeddings_))
                = firstn (List.length embeddings_) article_ids).
  { rewrite article_ids_of_rows. apply map_fst_combine_firstn. }
  split; [exact R|]. split; [exact E|]. split; [exact Ids|].
  intros aid N. unfold embedding_count. rewrite E, filter_app, length_app.
  rewrite (filter_length_map e_article_id (fun i => Z.eqb i aid)
                             (map row_of (combine article_ids embeddings_))).
  rewrite Ids, count_absent by exact N. lia.
Qed.

Lemma generate_for_unprocessed_count (w : world) :
  match fst (generate_embeddings_for_unprocessed w) with
  | Ok n =>
      n = List.length
            (included (select_articles_without_embeddings 50 (w_db w)))
  | Raise _ => True
  end.
Proof.
  unfold generate_embeddings_for_unprocessed, bind.
  destruct (get_articles_without_embeddings_spec 50 w) as (_ & _ & R & _).
  destruct (get_articles_without_embeddings 50 w) as [[cands|e] w1] eqn:G;
    simpl in R; [|exact I].
  assert (C : cands = select_articles_without_embeddings 50 (w_db w)).
  { destruct R as [R|[e R]]; [inversion R; reflexivity|discriminate]. }
  rewrite <- C. clear C R G.
  destruct cands as [|c0 cs]; [reflexivity|].
  unfold lift. rewrite generate_embeddings_spec.
  remember (included (c0 :: cs)) as inc eqn:Inc.
  destruct (map embedding_text inc) as [|t ts] eqn:T.
  { apply map_eq_nil in T. rewrite T. reflexivity. }
  destruct (encode (t :: ts)) as [vs|e]; simpl rbind; [|exact I].
  destruct (map d_id inc) as [|i0 ids] eqn:I0.
  { apply map_eq_nil in I0. rewrite I0. reflexivity. }
  unfold ret, store_embeddings.
  destruct (store_pairs_spec (combine (i0 :: ids) vs) w1) as (R1 & _).
  destruct (store_pairs (combine (i0 :: ids) vs) w1) as [[[]|e] w2];
    simpl in R1; [|discriminate].
  simpl fst. rewrite <- (length_map d_id inc), I0. reflexivity.
Qed.

Lemma generate_for_unprocessed_stored (w : world) :
  let x := generate_embeddings_for_unprocessed w in
  exists pairs : list (Z * vec),
    embeddings (w_db (snd x)) = embeddings (w_db w) ++ map row_of pairs
    /\ match fst x with
       | Ok n => (List.length pairs <= n)%nat
       | Raise _ => pairs = []
       end.
Proof.
  cbv zeta. unfold generate_embeddings_for_unprocessed, bind.
  destruct (get_articles_without_embeddings_spec 50 w) as (D & _ & _ & _).
  assert (Same : forall (r : result nat) (w1 : world), w_db w1 = w_db w ->
    exists pairs : list (Z * vec),
      embeddings (w_db (snd (r, w1))) = embeddings (w_db w) ++ map row_of pairs
      /\ match fst (r, w1) with
         | Ok n => (List.length pairs <= n)%nat
         | Raise _ => pairs = []
         end).
  { intros r w1 E. exists []. simpl. rewrite E, app_nil_r.
    split; [reflexivity|]. destruct r; [lia|reflexivity]. }
  destruct (get_articles_without_embeddings 50 w) as [[cands|e] w1];
    simpl in D; [|apply (Same (Raise e) w1 D)].
  destruct cands as [|c0 cs]; [apply (Same (Ok 0%nat) w1 D)|].
  unfold lift. rewrite generate_embeddings_spec.
  remember (included (c0 :: cs)) as inc eqn:Inc.
  destruct (map embedding_text inc) as [|t ts] eqn:T;
    [apply (Same (Ok 0%nat) w1 D)|].
  destruct (encode (t :: ts)) as [vs|e]; simpl rbind;
    [|apply (Same (Raise e) w1 D)].
  destruct (map d_id inc) as [|i0 ids] eqn:I0;
    [apply (Same (Ok 0%nat) w1 D)|].
  unfold ret, store_embeddings.
  destruct (store_pairs_spec (combine (i0 :: ids) vs) w1)
    as (R1 & _ & E1 & _).
  pose proof (stored_pairs_length (combine (i0 :: ids) vs) w1) as LenS.
  rewrite length_combine in LenS.
  pose proof (Nat.le_min_l (List.length (i0 :: ids)) (List.length vs)) as Min.
  destruct (store_pairs (combine (i0 :: ids) vs) w1) as [[[]|e] w2];
    simpl in R1, E1; [|discriminate].
  exists (stored_pairs (combine (i0 :: ids) vs) w1). simpl fst. simpl snd.
  rewrite E1, D. split; [reflexivity|].
  eapply Nat.le_trans; [exact LenS|exact Min].
Qed.

(** X18: the number [generate_embeddings_for_unprocessed] returns is the
    number of articles it selected, not the number it stored: it is the
    count of the queried articles whose normalized text has more than 50
    characters, whatever happened to the inserts, while the rows added can
    be fewer. *)
Theorem returned_count_is_the_selection (w : world) :
  let x := generate_embeddings_for_unprocessed w in
  match fst x with
  | Ok n =>
      n = List.length
            (included (select_articles_without_embeddings 50 (w_db w)))
      /\ (List.length (embeddings (w_db (snd x)))
          <= List.length (embeddings (w_db w)) + n)%nat
  | Raise _ => embeddings (w_db (snd x)) = embeddings (w_db w)
  end.
Proof.
  cbv zeta.
  pose proof (generate_for_unprocessed_count w) as Cn.
  destruct (generate_for_unprocessed_stored w) as (pairs & E & R).
  cbv zeta in E, R.
  destruct (fst (generate_embeddings_for_unprocessed w)) as [n|e].
  - split; [exact Cn|]. rewrite E, length_app, length_map. lia.
  - subst pairs. simpl in E. rewrite app_nil_r in E. exact E.
Qed.

End Counts.

Lemma store_embeddings_stops_at_the_shorter_list_witness :
  let w := Toy.mk_world (Toy.fresh_db 3) [] in
  let w' := snd (store_embeddings (B := Toy.backend) [1; 2; 3]%Z [61; 61]%Z w) in
  w_faults w = []
  /\ map e_article_id (embeddings (w_db w')) = [1; 2]%Z
  /\ embedding_count 3 (w_db w') = 0%nat.
Proof.
  cbv zeta.
  assert (F : w_faults (Toy.mk_world (Toy.fresh_db 3) []) = []) by reflexivity.
  destruct (store_embeddings_stops_at_the_shorter_list
              (B := Toy.backend) [1; 2; 3]%Z [61; 61]%Z
              (Toy.mk_world (Toy.fresh_db 3) []) F) as (_ & E & _ & N).
  split; [exact F|]. split.
  - rewrite E. reflexivity.
  - rewrite N; [reflexivity|].
    simpl. intros [H|[H|[]]]; discriminate H.
Defined.

(** Every insert fails, and the call still reports two articles. *)
Example count_returned_after_failed_inserts :
  let w := Toy.mk_world Toy.demo_db [false; false; true; true] in
  let x := generate_embeddings_for_unprocessed w in
  fst x = Ok 2%nat /\ embeddings (w_db (snd x)) = [].
Proof. vm_compute. split; reflexivity. Qed.

(** ** Running the clustering again *)

Section Rerun.
Context {B : MLBackend}.
Local Open Scope store_scope.

Lemma generate_cluster_labels_NoDup {A} `{TitleText A}
      (articles : list A) (cluster_labels : list Z) (d : PyDict.t string) :
  generate_cluster_labels articles cluster_labels = Ok d ->
  NoDup (PyDict.keys d).
Proof.
  unfold generate_cluster_labels.
  destruct (group_by_label articles 0 cluster_labels PyDict.empty)
    as [clusters|e]; [|discriminate].
  simpl. intros G. inversion G. apply fold_label_step_NoDup. constructor.
Qed.

Lemma select_all_embeddings_tables (d d' : database) :
  articles d = articles d' -> embeddings d = embeddings d' ->
  select_all_embeddings d = select_all_embeddings d'.
Proof.
  intros A E. unfold select_all_embeddings, join_articles.
  rewrite A, E. reflexivity.
Qed.

(** A run that meets no fault. *)
Lemma run_clustering_no_fault (w : world) :
  w_faults w = [] ->
  let data := select_all_embeddings (w_db w) in
  ((List.length data < MIN_CLUSTER_SIZE)%nat ->
   run_clustering w = (Ok 0%nat, record SelectAllEmbeddings w))
  /\ ((MIN_CLUSTER_SIZE <= List.length data)%nat ->
      forall labels dict,
        cluster_articles (map i_vector data) = Ok labels ->
        generate_cluster_labels data labels = Ok dict ->
        let x := run_clustering w in
        fst x = Ok (PyDict.len dict)
        /\ w_faults (snd x) = []
        /\ articles (w_db (snd x)) = articles (w_db w)
        /\ embeddings (w_db (snd x)) = embeddings (w_db w)
        /\ clusters (w_db (snd x)) = map cluster_of (PyDict.items dict)
        /\ cluster_members (w_db (snd x))
           = map member_of
                 (filter nonneg_assignment
                         (PyDict.items
                            (build_assignments (map i_article_id data) labels)))).
Proof.
  intros F. cbv zeta.
  destruct (get_all_embeddings_spec w) as (_ & _ & _ & NF). specialize (NF F).
  set (w0 := record SelectAllEmbeddings w) in *.
  remember (select_all_embeddings (w_db w)) as data eqn:D.
  split.
  - intros Small. unfold run_clustering, bind. rewrite NF.
    destruct data as [|i0 r]; [reflexivity|].
    assert (T : (List.length (map i_vector (i0 :: r)) <? MIN_CLUSTER_SIZE)%nat
                = true).
    { apply Nat.ltb_lt. rewrite length_map. exact Small. }
    rewrite T. reflexivity.
  - intros Big labels dict CA GL. unfold run_clustering, bind. rewrite NF.
    destruct data as [|i0 r];
      [simpl in Big; unfold MIN_CLUSTER_SIZE in Big; lia|].
    assert (T : (List.length (map i_vector (i0 :: r)) <? MIN_CLUSTER_SIZE)%nat
                = false).
    { apply Nat.ltb_ge. rewrite length_map. exact Big. }
    rewrite T. unfold lift. rewrite CA, GL.
    remember (build_assignments (map i_article_id (i0 :: r)) labels) as ca eqn:Ca.
    assert (F0 : w_faults w0 = []) by exact F.
    assert (Na : NoDup (PyDict.keys ca)).
    { rewrite Ca. apply fold_assign_NoDup. constructor. }
    pose proof (generate_cluster_labels_NoDup _ _ GL) as Nl.
    destruct (update_clusters_no_fault ca dict w0 F0 Na Nl)
      as (R & F1 & Ar & Em & Cl & Me).
    cbv zeta in R, F1, Ar, Em, Cl, Me.
    destruct (update_clusters ca dict w0) as [[[]|e] w2];
      simpl in R, F1, Ar, Em, Cl, Me; [|discriminate].
    unfold ret. simpl. auto 7.
Qed.


End Rerun.


(** ** [_truncate_text] *)

Section TruncateText.

Lemma rfind_from_spec (c : ascii) (s : PyStr.chars) : forall (i : nat) (found : Z),
  rfind_from c s (Z.of_nat i) found = found
  \/ exists k, rfind_from c s (Z.of_nat i) found = Z.of_nat (i + k)
               /\ nth_error s k = Some c.
Proof.
  induction s as [|x r IH]; intros i found; simpl; [left; reflexivity|].
  replace (Z.of_nat i + 1)%Z with (Z.of_nat (S i)) by lia.
  destruct (IH (S i) (if Ascii.eqb x c then Z.of_nat i else found))
    as [E|(k & E & N)].
  - rewrite E. destruct (Ascii.eqb x c) eqn:X; [|left; reflexivity].
    right. exists 0%nat. apply Ascii.eqb_eq in X. subst x.
    split; [f_equal; lia|reflexivity].
  - right. exists (S k). rewrite E. split; [f_equal; lia|exact N].
Qed.

Lemma rfind_spec (c : ascii) (s : PyStr.chars) :
  rfind c s = (-1)%Z
  \/ exists k, rfind c s = Z.of_nat k /\ nth_error s k = Some c.
Proof.
  unfold rfind. destruct (rfind_from_spec c s 0 (-1)) as [E|(k & E & N)].
  - left. exact E.
  - right. exists k. auto.
Qed.

Lemma nth_error_firstn_some {X} (l : list X) : forall n k x,
  nth_error (firstn n l) k = Some x -> (k < n)%nat /\ nth_error l k = Some x.
Proof.
  induction l as [|y r IH]; intros n k x H.
  - rewrite firstn_nil in H. destruct k; discriminate H.
  - destruct n; [destruct k; discriminate H|].
    destruct k; simpl in *; [split; [lia|exact H]|].
    destruct (IH _ _ _ H). split; [lia|assumption].
Qed.


End TruncateText.


(** ** Draining the backlog *)

Section Backlog.
Context {B : MLBackend}.
Local Open Scope store_scope.

Lemma filter_all {X} (p : X -> bool) (l : list X) :
  (forall x, In x l -> p x = true) -> filter p l = l.
Proof.
  induction l as [|y r IH]; intros H; simpl; [reflexivity|].
  rewrite (H y (or_introl eq_refl)). f_equal. apply IH.
  intros x Hx. apply H. right. exact Hx.
Qed.

Lemma filter_filter {X} (p q : X -> bool) (l : list X) :
  filter (fun x => p x && q x) l = filter q (filter p l).
Proof.
  induction l as [|y r IH]; simpl; [reflexivity|].
  destruct (p y); simpl; [|exact IH].
  destruct (q y); rewrite IH; reflexivity.
Qed.

(** Taking the ids of the first [n] out of a list with distinct ids
    leaves the rest of the list. *)
Lemma filter_not_among_first (l : list article) : forall n,
  NoDup (map a_id l) ->
  filter (fun a => negb (existsb (fun i => Z.eqb i (a_id a))
                                 (map a_id (firstn n l)))) l
  = skipn n l.
Proof.
  induction l as [|y r IH]; intros n N; [destruct n; reflexivity|].
  simpl in N. inversion N as [|? ? N0 Nr]; subst.
  destruct n as [|m].
  - simpl firstn. simpl skipn. apply filter_all. intros x _. reflexivity.
  - simpl. rewrite Z.eqb_refl. simpl. rewrite <- (IH m Nr).
    apply filter_ext_in. intros a Ha.
    assert (Ne : Z.eqb (a_id y) (a_id a) = false).
    { apply Z.eqb_neq. intros E. apply N0. rewrite E. apply in_map. exact Ha. }
    rewrite Ne. reflexivity.
Qed.

(** One call that meets no fault takes the first 50 articles off the
    backlog when each of them is long enough. *)
Lemma one_call_takes_fifty (w : world) :
  w_faults w = [] ->
  NoDup (map a_id (articles (w_db w))) ->
  (forall texts, exists vs,
      encode texts = Ok vs /\ List.length vs = List.length texts) ->
  (forall a, In a (unembedded (w_db w)) ->
             long_enough (to_article_dict a) = true) ->
  let w1 := snd (generate_embeddings_for_unprocessed w) in
  w_faults w1 = []
  /\ articles (w_db w1) = articles (w_db w)
  /\ unembedded (w_db w1) = skipn 50 (unembedded (w_db w)).
Proof.
  intros F N Enc Long. cbv zeta.
  destruct (generate_for_unprocessed_no_fault w F Enc)
    as (vs & Len & _ & F1 & A1 & E1 & _).
  cbv zeta in Len, F1, A1, E1.
  remember (snd (generate_embeddings_for_unprocessed w)) as w1 eqn:W1.
  set (U := unembedded (w_db w)) in *.
  assert (Sel : included (select_articles_without_embeddings 50 (w_db w))
                = map to_article_dict (firstn 50 U)).
  { unfold select_articles_without_embeddings. fold (unembedded (w_db w)).
    fold U. rewrite firstn_map. unfold included. apply filter_all.
    intros x Hx. apply (proj1 (in_map_iff _ _ _)) in Hx.
    destruct Hx as (a & <- & Ha). apply Long. apply firstn_In in Ha. exact Ha. }
  assert (MapIds : map d_id (map to_article_dict (firstn 50 U))
                   = map a_id (firstn 50 U))
    by (rewrite map_map; reflexivity).
  rewrite Sel in Len, E1. rewrite MapIds in E1.
  assert (Ids : map e_article_id
                    (map row_of (combine (map a_id (firstn 50 U)) vs))
                = map a_id (firstn 50 U)).
  { rewrite article_ids_of_rows, map_fst_combine; [reflexivity|].
    rewrite length_map. rewrite length_map in Len. symmetry. exact Len. }
  split; [exact F1|]. split; [exact A1|].
  unfold unembedded at 1. rewrite A1.
  rewrite <- (filter_not_among_first U 50).
  - unfold U, unembedded. rewrite <- filter_filter.
    apply filter_ext. intros a. unfold without_embedding.
    rewrite (has_embedding_app (a_id a) _ _ _ E1), negb_orb. f_equal. f_equal.
    etransitivity;
      [exact (existsb_map e_article_id (fun i => Z.eqb i (a_id a)) _)|].
    rewrite Ids. reflexivity.
  - unfold U, unembedded. apply NoDup_map_filter. exact N.
Qed.

(** X21: the backlog is drained 50 at a time.  With distinct article ids,
    a store that does not fail and a model that returns one vector per
    text, when every article without an embedding has a normalized text of
    more than 50 characters and there are at most [50 * n] of them, [n]
    calls of [generate_embeddings_for_unprocessed] leave no article
    without an embedding. *)
Theorem backlog_is_drained (n : nat) : forall w : world,
  w_faults w = [] ->
  NoDup (map a_id (articles (w_db w))) ->
  (forall texts, exists vs,
      encode texts = Ok vs /\ List.length vs = List.length texts) ->
  (forall a, In a (unembedded (w_db w)) ->
             long_enough (to_article_dict a) = true) ->
  (List.length (unembedded (w_db w)) <= 50 * n)%nat ->
  unembedded (w_db (after_calls n w)) = [].
Proof.
  induction n as [|k IH]; intros w F N Enc Long Len.
  - simpl. destruct (unembedded (w_db w)); [reflexivity|simpl in Len; lia].
  - simpl after_calls.
    destruct (one_call_takes_fifty w F N Enc Long) as (F1 & A1 & U1).
    cbv zeta in F1, A1, U1.
    apply IH; [exact F1|rewrite A1; exact N|exact Enc| |].
    + intros a Ha. rewrite U1 in Ha. apply Long.
      rewrite <- (firstn_skipn 50 (unembedded (w_db w))).
      apply in_or_app. right. exact Ha.
    + rewrite U1, length_skipn. lia.
Qed.

End Backlog.

Lemma backlog_is_drained_witness :
  let w := Toy.mk_world (Toy.fresh_db 51) [] in
  (List.length (unembedded (w_db w)) <= 50 * 2)%nat
  /\ unembedded (w_db (after_calls 1 w))
     = [Toy.mk_article 51 (Toy.letters 60)]
  /\ unembedded (w_db (after_calls 2 w)) = [].
Proof.
  cbv zeta.
  assert (F : w_faults (Toy.mk_world (Toy.fresh_db 51) []) = []) by reflexivity.
  assert (N : NoDup (map a_id (articles (w_db (Toy.mk_world (Toy.fresh_db 51) []))))).
  { apply (NoDup_map_inv (fun z => Z.to_nat z)).
    vm_compute. apply (seq_NoDup 51 1). }
  assert (E : forall texts, exists vs,
             @encode Toy.backend texts = Ok vs
             /\ List.length vs = List.length texts).
  { intros texts. eexists. split; [reflexivity|]. apply length_map. }
  assert (Long : forall a,
             In a (unembedded (w_db (Toy.mk_world (Toy.fresh_db 51) []))) ->
             long_enough (to_article_dict a) = true).
  { intros a Ha.
    assert (All : forallb (fun a => long_enough (to_article_dict a))
                          (unembedded (w_db (Toy.mk_world (Toy.fresh_db 51) [])))
                  = true) by (vm_compute; reflexivity).
    exact (proj1 (forallb_forall _ _) All a Ha). }
  assert (Len : (List.length
                   (unembedded (w_db (Toy.mk_world (Toy.fresh_db 51) [])))
                 <= 50 * 2)%nat) by (vm_compute; lia).
  split; [exact Len|]. split; [vm_compute; reflexivity|].
  exact (backlog_is_drained 2 (Toy.mk_world (Toy.fresh_db 51) []) F N E Long Len).
Defined.

(** ** Labels are not empty *)

Section LabelText.
Context {B : MLBackend}.

Lemma pick_terms_are_names (names : list string) (sums : list weight) :
  forall indices terms,
    pick_terms names sums indices = Ok terms ->
    forall t, In t terms -> In t names.
Proof.
  induction indices as [|i r IH]; intros terms P t Ht; simpl in P.
  - inversion P. subst. destruct Ht.
  - destruct (nth_error sums i) as [w|]; [|discriminate].
    destruct (weight_pos w); [|exact (IH _ P t Ht)].
    destruct (nth_error names i) as [name|] eqn:N; [|discriminate].
    destruct (pick_terms names sums r) as [rest|e]; [|discriminate].
    simpl in P. inversion P. subst. destruct Ht as [<-|Ht].
    + exact (nth_error_In _ _ N).
    + exact (IH _ eq_refl t Ht).
Qed.

Lemma title_from_length (s : PyStr.chars) : forall prev,
  List.length (PyStr.title_from prev s) = List.length s.
Proof.
  induction s as [|c r IH]; intros prev; simpl; [reflexivity|].
  rewrite IH. reflexivity.
Qed.

Lemma join_length (sep p : PyStr.chars) (rest : list PyStr.chars) :
  (List.length p <= List.length (PyStr.join sep (p :: rest)))%nat.
Proof.
  destruct rest as [|q r]; simpl; [lia|]. rewrite length_app. lia.
Qed.

Lemma render_label_length (t : string) (rest : list string) :
  (String.length t <= String.length (render_label (t :: rest)))%nat.
Proof.
  unfold render_label, PyStr.title, PyStr.replace_char.
  rewrite (string_length_chars (string_of_list_ascii _)).
  rewrite list_ascii_of_string_of_list_ascii, title_from_length, length_map.
  simpl firstn. simpl map. rewrite string_length_chars. apply join_length.
Qed.

Lemma placeholder_label_not_empty (c : Z) : placeholder_label c <> "".
Proof. unfold placeholder_label. simpl. discriminate. Qed.

Lemma cluster_label_not_empty (c : Z) (texts : list string) :
  (forall names sums, tfidf_fit_transform texts = Ok (names, sums) ->
                      Forall (fun name => name <> "") names) ->
  cluster_label c texts <> "".
Proof.
  intros Names. unfold cluster_label.
  destruct texts as [|t0 ts]; [apply placeholder_label_not_empty|].
  unfold tfidf_label.
  destruct (tfidf_fit_transform (t0 :: ts)) as [[names sums]|e] eqn:T;
    simpl rbind; [|apply placeholder_label_not_empty].
  destruct (pick_terms names sums (rev (last_n 5 (argsort sums))))
    as [terms|e] eqn:P; simpl rbind; [|apply placeholder_label_not_empty].
  destruct terms as [|t r]; [apply placeholder_label_not_empty|].
  intros E.
  assert (In_t : In t names).
  { apply (pick_terms_are_names _ _ _ P). left. reflexivity. }
  pose proof (proj1 (Forall_forall _ _) (Names names sums eq_refl) t In_t) as Nt.
  pose proof (render_label_length t r) as L. rewrite E in L. simpl in L.
  destruct t; [exact (Nt eq_refl)|simpl in L; lia].
Qed.

Lemma fold_label_step_values {A} `{TitleText A} (P : string -> Prop)
      (l : list (Z * list A)) :
  (forall c texts, P (cluster_label c texts)) ->
  forall d : PyDict.t string,
    Forall (fun p => P (snd p)) d ->
    Forall (fun p => P (snd p)) (fold_left label_step l d).
Proof.
  intros Hp. induction l as [|[k arts] r IH]; intros d F; simpl; [exact F|].
  apply IH. apply set_values; [apply Hp|exact F].
Qed.

(** X22: no cluster is labelled with the empty string.  When the term
    model never lists an empty feature name, every label in the dictionary
    of [generate_cluster_labels] has at least one character, be it made of
    terms or the placeholder. *)
Theorem labels_are_not_empty {A} `{TitleText A}
        (articles : list A) (cluster_labels : list Z) (d : PyDict.t string) :
  (forall texts names sums,
      tfidf_fit_transform texts = Ok (names, sums) ->
      Forall (fun name => name <> "") names) ->
  generate_cluster_labels articles cluster_labels = Ok d ->
  forall c label, In (c, label) (PyDict.items d) -> label <> "".
Proof.
  intros Names G c label I. unfold generate_cluster_labels in G.
  destruct (group_by_label articles 0 cluster_labels PyDict.empty)
    as [clusters|e]; [|discriminate].
  simpl in G. inversion G. subst d. clear G.
  assert (F : Forall (fun p => snd p <> "")
                     (fold_left label_step (PyDict.items clusters)
                                (@PyDict.empty string))).
  { apply (fold_label_step_values (fun s => s <> "")); [|constructor].
    intros c0 texts. apply cluster_label_not_empty. intros names sums.
    apply Names. }
  exact (proj1 (Forall_forall _ _) F (c, label) I).
Qed.

End LabelText.

Lemma labels_are_not_empty_witness :
  let articles :=
    [ {| d_id := 1; d_title := "markets rally"; d_text := "" |};
      {| d_id := 2; d_title := "markets fall"; d_text := "" |};
      {| d_id := 3; d_title := "storm warning"; d_text := "" |} ] in
  generate_cluster_labels (B := Toy.backend) articles [0; 0; 1]%Z
  = Ok [(0%Z, "Story"); (1%Z, "Cluster 1")]
  /\ "Cluster 1" <> "".
Proof.
  cbv zeta.
  assert (Names : forall texts names sums,
             @tfidf_fit_transform Toy.backend texts = Ok (names, sums) ->
             Forall (fun name => name <> "") names).
  { intros texts names sums T. simpl in T. unfold Toy.toy_tfidf in T.
    destruct texts as [|t1 [|t2 ts]]; try discriminate T.
    inversion T. constructor; [discriminate|constructor]. }
  assert (G : generate_cluster_labels
                (B := Toy.backend)
                [ {| d_id := 1; d_title := "markets rally"; d_text := "" |};
                  {| d_id := 2; d_title := "markets fall"; d_text := "" |};
                  {| d_id := 3; d_title := "storm warning"; d_text := "" |} ]
                [0; 0; 1]%Z
              = Ok [(0%Z, "Story"); (1%Z, "Cluster 1")])
    by (vm_compute; reflexivity).
  split; [exact G|].
  apply (labels_are_not_empty _ _ Names G 1%Z).
  right. left. reflexivity.
Defined.
